(** * ImageOverlay: the window-geometry controller of [main.py]

    A shallow embedding of the frameless-window controller of
    [ImageOverlayApp] (hit-testing, drag-to-move, drag-to-resize with the
    aspect-ratio lock, load and rotate geometry recomputation), followed by
    the properties established about it.

    Conventions of the embedding.
    - Qt coordinates are C++ [int]s; they are modelled by [Z].  Signed
      overflow has no defined behaviour in C++, so for the arithmetic done
      inside Qt the model describes the executions in which every
      coordinate stays inside the [int] range.  A Python integer handed to
      Qt is converted to an [int] by PyQt6, which raises [OverflowError]
      outside that range; the model makes every such conversion explicit.
    - A top-level window obeys its size constraints: Qt bounds the size of
      every geometry it is given by the maximum and the minimum size of the
      window.  The minimum size is the one of the layout once the window
      has been shown.
    - Python [float]s are IEEE-754 binary64 values, modelled bit-exactly by
      [spec_float] with precision 53 and maximal exponent 1024.
    - Python exceptions are explicit outcomes; an attribute holding [None]
      is an [option]. *)

From Stdlib Require Import ZArith Lia Bool List String Ascii QArith.
From Stdlib Require Import Floats.SpecFloat.
Import ListNotations.

Local Open Scope Z_scope.

(* ------------------------------------------------------------------ *)
(** ** Python exceptions and the outcome of an expression *)

Inductive exn : Type :=
| TypeError
| ValueError
| OverflowError
| ZeroDivisionError
| UnboundLocalError.

(** Outcome of evaluating a side-effect free expression. *)
Inductive Exc (A : Type) : Type :=
| Val (a : A)
| Err (e : exn).
Arguments Val {A} a.
Arguments Err {A} e.

Definition exc_bind {A B : Type} (c : Exc A) (k : A -> Exc B) : Exc B :=
  match c with
  | Val a => k a
  | Err e => Err e
  end.

(* ------------------------------------------------------------------ *)
(** ** Python floats (binary64) *)

Module PyFloat.

Definition prec : Z := 53.
Definition emax : Z := 1024.

Definition float : Type := spec_float.

(** [float(n)] for an integer [n]: the nearest binary64 value, ties to
    even.  Exact for [|n| <= 2^53], which covers every Qt [int]. *)
Definition of_int (n : Z) : float := binary_normalize prec emax n 0 false.

Definition add (a b : float) : float := SFadd prec emax a b.
Definition sub (a b : float) : float := SFsub prec emax a b.
Definition mul (a b : float) : float := SFmul prec emax a b.

Definition is_zero (a : float) : bool :=
  match a with
  | S754_zero _ => true
  | _ => false
  end.

(** Truth value of a float in a condition: [x != 0.0] (a NaN is true). *)
Definition truthy (a : float) : bool := negb (is_zero a).

Definition div (a b : float) : float := SFdiv prec emax a b.

(** True division [a / b], by the types of its operands; an integer
    operand is converted first (for two integers Python rounds the exact
    quotient once, which is the same as long as both convert exactly).
    [ZeroDivisionError] on a zero divisor. *)
Definition truediv_int_int (a b : Z) : Exc float :=
  if b =? 0 then Err ZeroDivisionError else Val (div (of_int a) (of_int b)).
Definition truediv_int_float (a : Z) (b : float) : Exc float :=
  if is_zero b then Err ZeroDivisionError else Val (div (of_int a) b).
Definition truediv_float_int (a : float) (b : Z) : Exc float :=
  if b =? 0 then Err ZeroDivisionError else Val (div a (of_int b)).

(** [a < b]; false as soon as one side is a NaN. *)
Definition ltb (a b : float) : bool := SFltb a b.

(** [int(a)]: truncation toward zero; [OverflowError] on an infinity,
    [ValueError] on a NaN. *)
Definition to_int (a : float) : Exc Z :=
  match a with
  | S754_zero _ => Val 0
  | S754_finite s m e =>
      let mag := match e with
                 | Zneg p => Z.shiftr (Zpos m) (Zpos p)
                 | _ => Z.shiftl (Zpos m) e
                 end in
      Val (if s then - mag else mag)
  | S754_infinity _ => Err OverflowError
  | S754_nan => Err ValueError
  end.

(** The literals of the source. *)
Definition one : float := of_int 1.
(** [0.85]: the binary64 value nearest to 85/100, which is what the
    correctly rounded quotient of the exact values 85.0 and 100.0 is. *)
Definition lit_0_85 : float := div (of_int 85) (of_int 100).

(** Built-in [min(a, b, c)]: the first argument is kept until a later one
    compares strictly smaller. *)
Definition min3 (a b c : float) : float :=
  let m := if ltb b a then b else a in
  if ltb c m then c else m.

End PyFloat.

(* ------------------------------------------------------------------ *)
(** ** Qt value types: [QPoint] and [QRect]

    [QRect] stores its two corners; the width of a rectangle is
    [x2 - x1 + 1].  The integer divisions of [center] and [moveCenter] are
    C++ divisions, truncating toward zero ([Z.quot]). *)

Module Qt.

Record QPoint : Type := mkQPoint { x : Z; y : Z }.

Definition padd (p q : QPoint) : QPoint := mkQPoint (x p + x q) (y p + y q).
Definition psub (p q : QPoint) : QPoint := mkQPoint (x p - x q) (y p - y q).

Record QRect : Type := mkCorners { x1 : Z; y1 : Z; x2 : Z; y2 : Z }.

(** [QRect(left, top, width, height)]. *)
Definition mkQRect (l t w h : Z) : QRect :=
  mkCorners l t (l + w - 1) (t + h - 1).

Definition left (r : QRect) : Z := x1 r.
Definition top (r : QRect) : Z := y1 r.
Definition right (r : QRect) : Z := x2 r.
Definition bottom (r : QRect) : Z := y2 r.
Definition width (r : QRect) : Z := x2 r - x1 r + 1.
Definition height (r : QRect) : Z := y2 r - y1 r + 1.
Definition topLeft (r : QRect) : QPoint := mkQPoint (x1 r) (y1 r).

Definition setLeft (v : Z) (r : QRect) : QRect :=
  mkCorners v (y1 r) (x2 r) (y2 r).
Definition setTop (v : Z) (r : QRect) : QRect :=
  mkCorners (x1 r) v (x2 r) (y2 r).
Definition setRight (v : Z) (r : QRect) : QRect :=
  mkCorners (x1 r) (y1 r) v (y2 r).
Definition setBottom (v : Z) (r : QRect) : QRect :=
  mkCorners (x1 r) (y1 r) (x2 r) v.

Definition setWidth (w : Z) (r : QRect) : QRect :=
  mkCorners (x1 r) (y1 r) (x1 r + w - 1) (y2 r).
Definition setHeight (h : Z) (r : QRect) : QRect :=
  mkCorners (x1 r) (y1 r) (x2 r) (y1 r + h - 1).
Definition setSize (w h : Z) (r : QRect) : QRect :=
  mkCorners (x1 r) (y1 r) (x1 r + w - 1) (y1 r + h - 1).

Definition moveLeft (pos : Z) (r : QRect) : QRect :=
  mkCorners pos (y1 r) (x2 r + (pos - x1 r)) (y2 r).
Definition moveTop (pos : Z) (r : QRect) : QRect :=
  mkCorners (x1 r) pos (x2 r) (y2 r + (pos - y1 r)).
Definition moveTo (p : QPoint) (r : QRect) : QRect :=
  moveTop (y p) (moveLeft (x p) r).

Definition center (r : QRect) : QPoint :=
  mkQPoint (Z.quot (x1 r + x2 r) 2) (Z.quot (y1 r + y2 r) 2).

Definition moveCenter (p : QPoint) (r : QRect) : QRect :=
  let w := x2 r - x1 r in
  let h := y2 r - y1 r in
  let nx := x p - Z.quot w 2 in
  let ny := y p - Z.quot h 2 in
  mkCorners nx ny (nx + w) (ny + h).

(** The largest width and height of a widget. *)
Definition QWIDGETSIZE_MAX : Z := 16777215.

End Qt.

(* ------------------------------------------------------------------ *)
(** ** Python integers handed to Qt

    A Qt method that takes a C++ [int] accepts a Python integer inside the
    range of [int] only; outside it PyQt6 raises [OverflowError]. *)

Definition c_int (v : Z) : Exc Z :=
  if (- 2 ^ 31 <=? v) && (v <? 2 ^ 31) then Val v else Err OverflowError.

Module PyQt.

(** A mutator of a [QRect] called with one Python integer. *)
Definition call (f : Z -> Qt.QRect -> Qt.QRect) (v : Z) (r : Qt.QRect)
    : Exc Qt.QRect :=
  exc_bind (c_int v) (fun v => Val (f v r)).

Definition setLeft : Z -> Qt.QRect -> Exc Qt.QRect := call Qt.setLeft.
Definition setTop : Z -> Qt.QRect -> Exc Qt.QRect := call Qt.setTop.
Definition setRight : Z -> Qt.QRect -> Exc Qt.QRect := call Qt.setRight.
Definition setBottom : Z -> Qt.QRect -> Exc Qt.QRect := call Qt.setBottom.
Definition setWidth : Z -> Qt.QRect -> Exc Qt.QRect := call Qt.setWidth.
Definition setHeight : Z -> Qt.QRect -> Exc Qt.QRect := call Qt.setHeight.
Definition moveLeft : Z -> Qt.QRect -> Exc Qt.QRect := call Qt.moveLeft.
Definition moveTop : Z -> Qt.QRect -> Exc Qt.QRect := call Qt.moveTop.

(** [QRect(left, top, width, height)]. *)
Definition QRect (l t w h : Z) : Exc Qt.QRect :=
  exc_bind (c_int l) (fun l =>
  exc_bind (c_int t) (fun t =>
  exc_bind (c_int w) (fun w =>
  exc_bind (c_int h) (fun h =>
  Val (Qt.mkQRect l t w h))))).

End PyQt.

(* ------------------------------------------------------------------ *)
(** ** Collaborators: images, pixmaps, cursors, events *)

Inductive Format : Type :=
| Format_ARGB32
| Format_ARGB32_Premultiplied
| Format_Other.

(** Result of [QImage(file_path)]: the null image when decoding fails. *)
Inductive QImage : Type :=
| NullImage
| Image (fmt : Format) (w h : Z).

Record QPixmap : Type := mkQPixmap { pm_width : Z; pm_height : Z }.

(** [QPixmap.isNull()]: no pixel data. *)
Definition pm_isNull (p : QPixmap) : bool :=
  (pm_width p <=? 0) || (pm_height p <=? 0).

(** The two rotations the buttons of the bottom bar request:
    [rotate_image(-90)] and [rotate_image(90)]. *)
Inductive Angle : Type :=
| RotateLeft
| RotateRight.

(** [pixmap.transformed(QTransform().rotate(angle))] for a quarter turn:
    the bounding box is transposed. *)
Definition transformed (p : QPixmap) (a : Angle) : QPixmap :=
  match a with
  | RotateLeft | RotateRight => mkQPixmap (pm_height p) (pm_width p)
  end.

Inductive CursorShape : Type :=
| ArrowCursor
| SizeHorCursor
| SizeVerCursor
| SizeFDiagCursor
| SizeBDiagCursor.

Inductive FrameStyle : Type :=
| OpaqueFrame
| TransparentFrame.

Inductive MouseButton : Type :=
| LeftButton
| RightButton
| MiddleButton.

Inductive QEvent : Type :=
| MouseButtonPress (b : MouseButton) (globalPosition : Qt.QPoint)
| MouseMove (globalPosition : Qt.QPoint)
| MouseButtonRelease (b : MouseButton) (globalPosition : Qt.QPoint)
| OtherEvent.

(** Text of the title label: the caption given at construction, or
    [os.path.basename(file_path)].  What [os.path.basename] answers depends
    on the path rules of the platform ([posixpath] or [ntpath]); the call
    is kept as it is written. *)
Inductive Title : Type :=
| Caption (text : string)
| os_path_basename (file_path : string).

(* ------------------------------------------------------------------ *)
(** ** The window: state of [ImageOverlayApp] *)

Record App : Type := mkApp {
  (* the widget itself *)
  geometry : Qt.QRect;
  cursor : CursorShape;
  (* chrome widgets *)
  title_bar_height : Z;
  bottom_bar_height : Z;
  title_text : Title;
  container_style : FrameStyle;
  (* image_widget.pixmap *)
  pixmap : option QPixmap;
  (* resize logic *)
  resizing : bool;
  dragging : bool;
  resize_edge : option Z;
  resize_margin : Z;
  start_pos : option Qt.QPoint;
  drag_start_pos : option Qt.QPoint;
  window_start_pos : option Qt.QPoint;
  start_geometry : option Qt.QRect;
  aspect_ratio : option PyFloat.float;
  (* minimumSize() of the window *)
  minimum_width : Z;
  minimum_height : Z
}.

Definition with_geometry (v : Qt.QRect) (s : App) : App :=
  mkApp v (cursor s) (title_bar_height s) (bottom_bar_height s) (title_text s)
    (container_style s) (pixmap s) (resizing s) (dragging s) (resize_edge s)
    (resize_margin s) (start_pos s) (drag_start_pos s) (window_start_pos s)
    (start_geometry s) (aspect_ratio s) (minimum_width s)
    (minimum_height s).

Definition with_cursor (v : CursorShape) (s : App) : App :=
  mkApp (geometry s) v (title_bar_height s) (bottom_bar_height s) (title_text s)
    (container_style s) (pixmap s) (resizing s) (dragging s) (resize_edge s)
    (resize_margin s) (start_pos s) (drag_start_pos s) (window_start_pos s)
    (start_geometry s) (aspect_ratio s) (minimum_width s)
    (minimum_height s).

Definition with_title_text (v : Title) (s : App) : App :=
  mkApp (geometry s) (cursor s) (title_bar_height s) (bottom_bar_height s) v
    (container_style s) (pixmap s) (resizing s) (dragging s) (resize_edge s)
    (resize_margin s) (start_pos s) (drag_start_pos s) (window_start_pos s)
    (start_geometry s) (aspect_ratio s) (minimum_width s)
    (minimum_height s).

Definition with_container_style (v : FrameStyle) (s : App) : App :=
  mkApp (geometry s) (cursor s) (title_bar_height s) (bottom_bar_height s)
    (title_text s) v (pixmap s) (resizing s) (dragging s) (resize_edge s)
    (resize_margin s) (start_pos s) (drag_start_pos s) (window_start_pos s)
    (start_geometry s) (aspect_ratio s) (minimum_width s)
    (minimum_height s).

Definition with_pixmap (v : option QPixmap) (s : App) : App :=
  mkApp (geometry s) (cursor s) (title_bar_height s) (bottom_bar_height s)
    (title_text s) (container_style s) v (resizing s) (dragging s)
    (resize_edge s) (resize_margin s) (start_pos s) (drag_start_pos s)
    (window_start_pos s) (start_geometry s) (aspect_ratio s) (minimum_width s)
    (minimum_height s).

Definition with_resizing (v : bool) (s : App) : App :=
  mkApp (geometry s) (cursor s) (title_bar_height s) (bottom_bar_height s)
    (title_text s) (container_style s) (pixmap s) v (dragging s)
    (resize_edge s) (resize_margin s) (start_pos s) (drag_start_pos s)
    (window_start_pos s) (start_geometry s) (aspect_ratio s) (minimum_width s)
    (minimum_height s).

Definition with_dragging (v : bool) (s : App) : App :=
  mkApp (geometry s) (cursor s) (title_bar_height s) (bottom_bar_height s)
    (title_text s) (container_style s) (pixmap s) (resizing s) v
    (resize_edge s) (resize_margin s) (start_pos s) (drag_start_pos s)
    (window_start_pos s) (start_geometry s) (aspect_ratio s) (minimum_width s)
    (minimum_height s).

Definition with_resize_edge (v : option Z) (s : App) : App :=
  mkApp (geometry s) (cursor s) (title_bar_height s) (bottom_bar_height s)
    (title_text s) (container_style s) (pixmap s) (resizing s) (dragging s)
    v (resize_margin s) (start_pos s) (drag_start_pos s)
    (window_start_pos s) (start_geometry s) (aspect_ratio s) (minimum_width s)
    (minimum_height s).

Definition with_start_pos (v : option Qt.QPoint) (s : App) : App :=
  mkApp (geometry s) (cursor s) (title_bar_height s) (bottom_bar_height s)
    (title_text s) (container_style s) (pixmap s) (resizing s) (dragging s)
    (resize_edge s) (resize_margin s) v (drag_start_pos s)
    (window_start_pos s) (start_geometry s) (aspect_ratio s) (minimum_width s)
    (minimum_height s).

Definition with_drag_start_pos (v : option Qt.QPoint) (s : App) : App :=
  mkApp (geometry s) (cursor s) (title_bar_height s) (bottom_bar_height s)
    (title_text s) (container_style s) (pixmap s) (resizing s) (dragging s)
    (resize_edge s) (resize_margin s) (start_pos s) v
    (window_start_pos s) (start_geometry s) (aspect_ratio s) (minimum_width s)
    (minimum_height s).

Definition with_window_start_pos (v : option Qt.QPoint) (s : App) : App :=
  mkApp (geometry s) (cursor s) (title_bar_height s) (bottom_bar_height s)
    (title_text s) (container_style s) (pixmap s) (resizing s) (dragging s)
    (resize_edge s) (resize_margin s) (start_pos s) (drag_start_pos s)
    v (start_geometry s) (aspect_ratio s) (minimum_width s)
    (minimum_height s).

Definition with_start_geometry (v : option Qt.QRect) (s : App) : App :=
  mkApp (geometry s) (cursor s) (title_bar_height s) (bottom_bar_height s)
    (title_text s) (container_style s) (pixmap s) (resizing s) (dragging s)
    (resize_edge s) (resize_margin s) (start_pos s) (drag_start_pos s)
    (window_start_pos s) v (aspect_ratio s) (minimum_width s)
    (minimum_height s).

Definition with_aspect_ratio (v : option PyFloat.float) (s : App) : App :=
  mkApp (geometry s) (cursor s) (title_bar_height s) (bottom_bar_height s)
    (title_text s) (container_style s) (pixmap s) (resizing s) (dragging s)
    (resize_edge s) (resize_margin s) (start_pos s) (drag_start_pos s)
    (window_start_pos s) (start_geometry s) v (minimum_width s)
    (minimum_height s).

Definition with_minimum_size (w h : Z) (s : App) : App :=
  mkApp (geometry s) (cursor s) (title_bar_height s) (bottom_bar_height s)
    (title_text s) (container_style s) (pixmap s) (resizing s) (dragging s)
    (resize_edge s) (resize_margin s) (start_pos s) (drag_start_pos s)
    (window_start_pos s) (start_geometry s) (aspect_ratio s) w h.

(** The window as [__init__] leaves it when no file is given on the command
    line: 500x400, fixed 30-high title bar, fixed 35-high bottom bar,
    margin 10, nothing loaded.  The position is the window system's.  The
    window has not been shown: no layout has run, the minimum size is
    empty. *)
Definition init (pos : Qt.QPoint) : App :=
  mkApp (Qt.mkQRect (Qt.x pos) (Qt.y pos) 500 400) ArrowCursor 30 35
    (Caption "Image Overlay") OpaqueFrame None false false None 10 None None
    None None None 0 0.

(* ------------------------------------------------------------------ *)
(** ** Methods run in a state-and-exception monad *)

Inductive Res (A : Type) : Type :=
| Ok (a : A) (s : App)
| Raise (e : exn) (s : App).
Arguments Ok {A} a s.
Arguments Raise {A} e s.

Definition M (A : Type) : Type := App -> Res A.

Definition ret {A : Type} (a : A) : M A := fun s => Ok a s.

Definition bind {A B : Type} (c : M A) (k : A -> M B) : M B :=
  fun s =>
    match c s with
    | Ok a s' => k a s'
    | Raise e s' => Raise e s'
    end.

Definition raise {A : Type} (e : exn) : M A := fun s => Raise e s.
Definition get : M App := fun s => Ok s s.
Definition modify (f : App -> App) : M unit := fun s => Ok tt (f s).

(** A pure expression evaluated inside a method. *)
Definition lift {A : Type} (c : Exc A) : M A :=
  match c with
  | Val a => ret a
  | Err e => raise e
  end.

(** Use of an attribute as an operand: a [TypeError] when it holds [None]. *)
Definition operand {A : Type} (o : option A) : M A :=
  match o with
  | Some a => ret a
  | None => raise TypeError
  end.

Declare Scope monad_scope.
Delimit Scope monad_scope with monad.
Notation "x <- c ;; k" := (bind c (fun x => k))
  (at level 61, c at next level, right associativity) : monad_scope.
Notation "c ;;; k" := (bind c (fun _ => k))
  (at level 61, right associativity) : monad_scope.
Notation "' pat <- c ;; k" := (bind c (fun x => match x with pat => k end))
  (at level 61, pat pattern, c at next level, right associativity) : monad_scope.

Open Scope monad_scope.

(* ------------------------------------------------------------------ *)
(** ** Widget primitives of the frameless top-level window

    The window has no frame, so [pos()] is the top-left corner of
    [geometry()] and [mapFromGlobal] subtracts it.

    [setGeometry] and [resize] keep the top-left corner they are given and
    bound the size: [size.boundedTo(maximumSize()).expandedTo(minimumSize())].
    The maximum size is never changed by the program. *)

Definition self_pos (s : App) : Qt.QPoint := Qt.topLeft (geometry s).
Definition self_width (s : App) : Z := Qt.width (geometry s).
Definition self_height (s : App) : Z := Qt.height (geometry s).

Definition mapFromGlobal (s : App) (global_pos : Qt.QPoint) : Qt.QPoint :=
  Qt.psub global_pos (self_pos s).

(** A width or height [v] bounded by the maximum, then by the minimum
    [lo]. *)
Definition bounded (lo v : Z) : Z := Z.max lo (Z.min v Qt.QWIDGETSIZE_MAX).

(** The rectangle the window takes when it is asked to take [r]. *)
Definition constrained (s : App) (r : Qt.QRect) : Qt.QRect :=
  Qt.setSize (bounded (minimum_width s) (Qt.width r))
             (bounded (minimum_height s) (Qt.height r)) r.

Definition setGeometry (r : Qt.QRect) : M unit :=
  modify (fun s => with_geometry (constrained s r) s).

(** [move(QPoint)]. *)
Definition move (p : Qt.QPoint) : M unit :=
  modify (fun s => with_geometry (Qt.moveTo p (geometry s)) s).

(** [move(x, y)], with two Python integers. *)
Definition move_xy (x y : Z) : M unit :=
  x <- lift (c_int x) ;;
  y <- lift (c_int y) ;;
  move (Qt.mkQPoint x y).

(** [resize(w, h)], with two Python integers. *)
Definition resize (w h : Z) : M unit :=
  w <- lift (c_int w) ;;
  h <- lift (c_int h) ;;
  s <- get ;;
  setGeometry (Qt.setSize w h (geometry s)).

Definition setCursor (c : CursorShape) : M unit := modify (with_cursor c).

(** [show()], the first time: the layout is activated, which makes its
    minimum size the minimum size of the window and grows the window to
    it.  The minimum size of the layout depends on the style and the fonts
    of the platform; a later pass of the layout that changes it is another
    [show]. *)
Definition show (layout_minimum_width layout_minimum_height : Z) : M unit :=
  modify (with_minimum_size layout_minimum_width layout_minimum_height) ;;;
  s <- get ;;
  setGeometry (geometry s).

(* ------------------------------------------------------------------ *)
(** ** Chrome extents

    [load_image] and [rotate_image] each compute the vertical extra from the
    current heights of the title bar and of the bottom bar; [handle_resize]
    uses the two constants written in its body. *)

Definition load_extra_w : Z := 18.

Definition load_extra_h (s : App) : Z :=
  let title_h := title_bar_height s in
  let bottom_h := bottom_bar_height s in
  let bottom_h := if bottom_h <? 35 then 35 else bottom_h in
  title_h + bottom_h + 18.

Definition rotate_extra_w : Z := 18.

Definition rotate_extra_h (s : App) : Z :=
  let title_h := title_bar_height s in
  let bottom_h := bottom_bar_height s in
  let bottom_h := if bottom_h <? 35 then 35 else bottom_h in
  title_h + bottom_h + 18.

Definition resize_extra_w : Z := 18.
Definition resize_extra_h : Z := 78.

(* ------------------------------------------------------------------ *)
(** ** [load_image]

    [screen] is [QApplication.primaryScreen()]: the available geometry of
    the primary screen, or [None]; [image] is what [QImage(file_path)]
    decoded. *)

(** The branch taken when a screen is known: target size and position. *)
Definition load_fit (screen_geo : Qt.QRect) (pm : QPixmap)
    (extra_w extra_h : Z) : Exc (Z * Z * Z * Z) :=
  let max_w := PyFloat.mul (PyFloat.of_int (Qt.width screen_geo)) PyFloat.lit_0_85 in
  let max_h := PyFloat.mul (PyFloat.of_int (Qt.height screen_geo)) PyFloat.lit_0_85 in
  let max_img_w := PyFloat.sub max_w (PyFloat.of_int extra_w) in
  let max_img_h := PyFloat.sub max_h (PyFloat.of_int extra_h) in
  let img_w := pm_width pm in
  let img_h := pm_height pm in
  exc_bind (if 0 <? img_w then PyFloat.truediv_float_int max_img_w img_w
            else Val PyFloat.one) (fun scale_w =>
  exc_bind (if 0 <? img_h then PyFloat.truediv_float_int max_img_h img_h
            else Val PyFloat.one) (fun scale_h =>
  let scale := if PyFloat.ltb scale_h scale_w then scale_h else scale_w in
  let scale := if PyFloat.ltb PyFloat.one scale then PyFloat.one else scale in
  exc_bind (PyFloat.to_int
              (PyFloat.add (PyFloat.mul (PyFloat.of_int img_w) scale)
                           (PyFloat.of_int extra_w))) (fun target_w =>
  exc_bind (PyFloat.to_int
              (PyFloat.add (PyFloat.mul (PyFloat.of_int img_h) scale)
                           (PyFloat.of_int extra_h))) (fun target_h =>
  let x := Qt.left screen_geo + (Qt.width screen_geo - target_w) / 2 in
  let y := Qt.top screen_geo + (Qt.height screen_geo - target_h) / 2 in
  Val (target_w, target_h, x, y))))).

Definition load_image (screen : option Qt.QRect) (file_path : string)
    (image : QImage) : M unit :=
  match image with
  | NullImage => ret tt
  | Image fmt iw ih =>
      (* the conversion to ARGB32 keeps the dimensions *)
      let pm := mkQPixmap iw ih in
      modify (with_pixmap (Some pm)) ;;;
      modify (with_title_text (os_path_basename file_path)) ;;;
      (if 0 <? pm_height pm
       then r <- lift (PyFloat.truediv_int_int (pm_width pm) (pm_height pm)) ;;
            modify (with_aspect_ratio (Some r))
       else ret tt) ;;;
      modify (with_container_style TransparentFrame) ;;;
      s <- get ;;
      let extra_w := load_extra_w in
      let extra_h := load_extra_h s in
      match screen with
      | Some screen_geo =>
          '(target_w, target_h, x, y) <- lift (load_fit screen_geo pm extra_w extra_h) ;;
          resize target_w target_h ;;;
          move_xy x y
      | None =>
          let target_w := pm_width pm + extra_w in
          let target_h := pm_height pm + extra_h in
          resize target_w target_h
      end
  end.

(* ------------------------------------------------------------------ *)
(** ** [rotate_image] *)

(** "Adjust window dimensions to match rotation": the content box of the
    current window, transposed, with the chrome added back. *)
Definition rotate_proposed_size (s : App) : Z * Z :=
  let geo := geometry s in
  let w := Qt.width geo in
  let h := Qt.height geo in
  let extra_w := rotate_extra_w in
  let extra_h := rotate_extra_h s in
  let content_w := Z.max 1 (w - extra_w) in
  let content_h := Z.max 1 (h - extra_h) in
  let new_content_w := content_h in
  let new_content_h := content_w in
  let new_w := new_content_w + extra_w in
  let new_h := new_content_h + extra_h in
  (new_w, new_h).

(** "Ensure it fits on screen": the proposed size, scaled down when it
    exceeds the screen; untouched when no screen is known. *)
Definition rotate_fit (screen : option Qt.QRect) (new_w new_h : Z)
    : Exc (Z * Z) :=
  match screen with
  | Some screen_geo =>
      if (Qt.width screen_geo <? new_w) || (Qt.height screen_geo <? new_h)
      then
        exc_bind (PyFloat.truediv_int_int (Qt.width screen_geo) new_w)
          (fun scale_w =>
        exc_bind (PyFloat.truediv_int_int (Qt.height screen_geo) new_h)
          (fun scale_h =>
        let scale := PyFloat.min3 scale_w scale_h PyFloat.one in
        exc_bind (PyFloat.to_int (PyFloat.mul (PyFloat.of_int new_w) scale))
          (fun new_w' =>
        exc_bind (PyFloat.to_int (PyFloat.mul (PyFloat.of_int new_h) scale))
          (fun new_h' =>
        Val (new_w', new_h')))))
      else Val (new_w, new_h)
  | None => Val (new_w, new_h)
  end.

(** "Ensure top-left is on screen". *)
Definition clamp_top_left (screen_geo new_geo : Qt.QRect) : Exc Qt.QRect :=
  exc_bind (if Qt.left new_geo <? Qt.left screen_geo
            then PyQt.moveLeft (Qt.left screen_geo) new_geo
            else Val new_geo) (fun new_geo =>
  if Qt.top new_geo <? Qt.top screen_geo
  then PyQt.moveTop (Qt.top screen_geo) new_geo
  else Val new_geo).

Definition rotate_image (screen : option Qt.QRect) (angle : Angle) : M unit :=
  s0 <- get ;;
  match pixmap s0 with
  | None => ret tt
  | Some old_pixmap =>
      if pm_isNull old_pixmap then ret tt else
      let new_pixmap := transformed old_pixmap angle in
      modify (with_pixmap (Some new_pixmap)) ;;;
      (if 0 <? pm_height new_pixmap
       then r <- lift (PyFloat.truediv_int_int (pm_width new_pixmap)
                                                (pm_height new_pixmap)) ;;
            modify (with_aspect_ratio (Some r))
       else ret tt) ;;;
      s <- get ;;
      let geo := geometry s in
      let '(new_w, new_h) := rotate_proposed_size s in
      '(new_w, new_h) <- lift (rotate_fit screen new_w new_h) ;;
      let center := Qt.center geo in
      new_geo <- lift (PyQt.QRect 0 0 new_w new_h) ;;
      let new_geo := Qt.moveCenter center new_geo in
      (* [screen_geo] is bound only inside the [if screen:] block above *)
      screen_geo <- match screen with
                    | Some screen_geo => ret screen_geo
                    | None => raise UnboundLocalError
                    end ;;
      new_geo <- lift (clamp_top_left screen_geo new_geo) ;;
      setGeometry new_geo
  end.

(** Successive presses of the rotation buttons. *)
Fixpoint rotations (screen : option Qt.QRect) (angles : list Angle) : M unit :=
  match angles with
  | [] => ret tt
  | angle :: rest => rotate_image screen angle ;;; rotations screen rest
  end.

(* ------------------------------------------------------------------ *)
(** ** Manual resize logic *)

(** Edge flags: 1 Left, 2 Right, 4 Top, 8 Bottom. *)
Definition get_resize_edge (s : App) (pos : Qt.QPoint) : Z :=
  let x := Qt.x pos in
  let y := Qt.y pos in
  let w := self_width s in
  let h := self_height s in
  let m := resize_margin s in
  let edge := 0 in
  let edge := if x <? m then Z.lor edge 1
              else if w - m <? x then Z.lor edge 2
              else edge in
  let edge := if y <? m then Z.lor edge 4
              else if h - m <? y then Z.lor edge 8
              else edge in
  edge.

Definition update_cursor (pos : Qt.QPoint) : M unit :=
  s <- get ;;
  let edge := get_resize_edge s pos in
  if (edge =? 1) || (edge =? 2) then setCursor SizeHorCursor
  else if (edge =? 4) || (edge =? 8) then setCursor SizeVerCursor
  else if (edge =? 5) || (edge =? 10) then setCursor SizeFDiagCursor
  else if (edge =? 6) || (edge =? 9) then setCursor SizeBDiagCursor
  else setCursor ArrowCursor.

(** A flag test [edge & k] used as a condition. *)
Definition flag (edge k : Z) : bool := negb (Z.land edge k =? 0).

(** "Calculate rough new geometry first". *)
Definition rough_geometry (edge : Z) (geo : Qt.QRect) (diff : Qt.QPoint)
    : Exc Qt.QRect :=
  let new_geo := geo in
  exc_bind
    (if flag edge 1 then PyQt.setLeft (Qt.left geo + Qt.x diff) new_geo
     else if flag edge 2 then PyQt.setRight (Qt.right geo + Qt.x diff) new_geo
     else Val new_geo) (fun new_geo =>
  if flag edge 4 then PyQt.setTop (Qt.top geo + Qt.y diff) new_geo
  else if flag edge 8 then PyQt.setBottom (Qt.bottom geo + Qt.y diff) new_geo
  else Val new_geo).

(** Height that a window of width [w] gets when the width drives. *)
Definition height_from_width (w : Z) (aspect_ratio : PyFloat.float) : Exc Z :=
  let extra_w := resize_extra_w in
  let extra_h := resize_extra_h in
  let target_content_w := w - extra_w in
  let target_content_w := if target_content_w <? 1 then 1 else target_content_w in
  exc_bind (PyFloat.truediv_int_float target_content_w aspect_ratio)
    (fun target_content_h =>
  PyFloat.to_int (PyFloat.add target_content_h (PyFloat.of_int extra_h))).

(** Width that a window of height [h] gets when the height drives. *)
Definition width_from_height (h : Z) (aspect_ratio : PyFloat.float) : Exc Z :=
  let extra_w := resize_extra_w in
  let extra_h := resize_extra_h in
  let target_content_h := h - extra_h in
  let target_content_h := if target_content_h <? 1 then 1 else target_content_h in
  let target_content_w := PyFloat.mul (PyFloat.of_int target_content_h) aspect_ratio in
  PyFloat.to_int (PyFloat.add target_content_w (PyFloat.of_int extra_w)).

(** The test of the corner branch: [delta_w > delta_h * aspect_ratio]. *)
Definition width_drives (geo new_geo : Qt.QRect) (aspect_ratio : PyFloat.float)
    : bool :=
  let delta_w := Z.abs (Qt.width new_geo - Qt.width geo) in
  let delta_h := Z.abs (Qt.height new_geo - Qt.height geo) in
  PyFloat.ltb (PyFloat.mul (PyFloat.of_int delta_h) aspect_ratio)
              (PyFloat.of_int delta_w).

(** "Enforce Aspect Ratio if image is loaded": the body of
    [if self.aspect_ratio:]. *)
Definition enforce_aspect_ratio (edge : Z) (geo new_geo : Qt.QRect)
    (aspect_ratio : PyFloat.float) : Exc Qt.QRect :=
  let w := Qt.width new_geo in
  let h := Qt.height new_geo in
  if (edge =? 1) || (edge =? 2) then
    exc_bind (height_from_width w aspect_ratio) (fun new_h =>
    PyQt.setHeight new_h new_geo)
  else if (edge =? 4) || (edge =? 8) then
    exc_bind (width_from_height h aspect_ratio) (fun new_w =>
    PyQt.setWidth new_w new_geo)
  else if width_drives geo new_geo aspect_ratio then
    exc_bind (height_from_width w aspect_ratio) (fun new_h =>
    if flag edge 4
    then PyQt.setTop (Qt.bottom new_geo - new_h + 1) new_geo
    else PyQt.setHeight new_h new_geo)
  else
    exc_bind (width_from_height h aspect_ratio) (fun new_w =>
    if flag edge 1
    then PyQt.setLeft (Qt.right new_geo - new_w + 1) new_geo
    else PyQt.setWidth new_w new_geo).

(** "Minimum size check".  The argument of the two calls is the literal
    100, which is an [int]. *)
Definition minimum_size_check (new_geo : Qt.QRect) : Qt.QRect :=
  let new_geo := if Qt.width new_geo <? 100 then Qt.setWidth 100 new_geo
                 else new_geo in
  let new_geo := if Qt.height new_geo <? 100 then Qt.setHeight 100 new_geo
                 else new_geo in
  new_geo.

(** The rectangle [handle_resize] hands to [setGeometry]. *)
Definition resized_geometry (edge : Z) (geo : Qt.QRect) (diff : Qt.QPoint)
    (aspect_ratio : option PyFloat.float) : Exc Qt.QRect :=
  exc_bind (rough_geometry edge geo diff) (fun new_geo =>
  exc_bind
    (match aspect_ratio with
     | Some r => if PyFloat.truthy r
                 then enforce_aspect_ratio edge geo new_geo r
                 else Val new_geo
     | None => Val new_geo
     end)
    (fun new_geo => Val (minimum_size_check new_geo))).

Definition handle_resize (global_pos : Qt.QPoint) : M unit :=
  s <- get ;;
  if negb (resizing s) then ret tt else
  start <- operand (start_pos s) ;;
  let diff := Qt.psub global_pos start in
  geo <- operand (start_geometry s) ;;
  edge <- operand (resize_edge s) ;;
  new_geo <- lift (resized_geometry edge geo diff (aspect_ratio s)) ;;
  setGeometry new_geo.

Definition handle_mouse_press (global_pos : Qt.QPoint) : M unit :=
  s <- get ;;
  let local_pos := mapFromGlobal s global_pos in
  let edge := get_resize_edge s local_pos in
  if negb (edge =? 0) then
    modify (with_resizing true) ;;;
    modify (with_resize_edge (Some edge)) ;;;
    modify (with_start_pos (Some global_pos)) ;;;
    modify (with_start_geometry (Some (geometry s)))
  else
    modify (with_dragging true) ;;;
    modify (with_drag_start_pos (Some global_pos)) ;;;
    modify (with_window_start_pos (Some (self_pos s))).

Definition handle_mouse_move (global_pos : Qt.QPoint) : M unit :=
  s <- get ;;
  if resizing s then handle_resize global_pos
  else if dragging s then
    start <- operand (drag_start_pos s) ;;
    let delta := Qt.psub global_pos start in
    origin <- operand (window_start_pos s) ;;
    move (Qt.padd origin delta)
  else
    let local_pos := mapFromGlobal s global_pos in
    update_cursor local_pos.

Definition handle_mouse_release : M unit :=
  modify (with_resizing false) ;;;
  modify (with_dragging false) ;;;
  modify (with_resize_edge None) ;;;
  setCursor ArrowCursor.

(** [eventFilter]: the result tells whether the event was consumed. *)
Definition eventFilter (event : QEvent) : M bool :=
  match event with
  | MouseButtonPress LeftButton p => handle_mouse_press p ;;; ret true
  | MouseMove p => handle_mouse_move p ;;; ret true
  | MouseButtonRelease LeftButton _ => handle_mouse_release ;;; ret true
  | _ => ret false
  end.

(** A stream of events delivered in arrival order; it stops at the first
    exception. *)
Fixpoint dispatch (events : list QEvent) : M unit :=
  match events with
  | [] => ret tt
  | event :: rest => eventFilter event ;;; dispatch rest
  end.

(* ------------------------------------------------------------------ *)
(** ** Interaction states

    The states of the controller, read off the two flags and the anchors
    stored at the press. *)

Definition idle_state (s : App) : Prop :=
  resizing s = false /\ dragging s = false.

(** Dragging, with the pointer and the window anchored at [p0] and [w0]. *)
Definition drag_state (p0 w0 : Qt.QPoint) (s : App) : Prop :=
  resizing s = false /\ dragging s = true /\
  drag_start_pos s = Some p0 /\ window_start_pos s = Some w0.

(** Resizing, anchored at pointer [p0] and geometry [g0], on [edge]. *)
Definition resize_state (p0 : Qt.QPoint) (g0 : Qt.QRect) (edge : Z)
    (s : App) : Prop :=
  resizing s = true /\ start_pos s = Some p0 /\
  start_geometry s = Some g0 /\ resize_edge s = Some edge.

(** The edge values that name a corner: one horizontal and one vertical
    flag. *)
Definition is_corner (edge : Z) : bool :=
  (edge =? 5) || (edge =? 6) || (edge =? 9) || (edge =? 10).

(* ------------------------------------------------------------------ *)
(** ** Content box

    The window size minus the chrome extent, as [rotate_image] subtracts it
    (before its floor at 1), and the ratio of the two. *)

Definition content_w (s : App) : Z := Qt.width (geometry s) - rotate_extra_w.
Definition content_h (s : App) : Z := Qt.height (geometry s) - rotate_extra_h s.

Definition content_aspect (s : App) : Q :=
  Qmake (content_w s) (Z.to_pos (content_h s)).

(** The window shows an image and is larger than its chrome. *)
Definition shows_content (s : App) : Prop :=
  (exists pm, pixmap s = Some pm /\ pm_isNull pm = false) /\
  1 <= content_w s /\ 1 <= content_h s.

(* ------------------------------------------------------------------ *)
(** ** Ranges

    The values the window really handles: coordinates that fit a C++
    [int], sizes that Qt allows, pointer positions of a desktop, and aspect
    ratios that are positive finite floats of moderate magnitude, as the
    quotient of two image dimensions is. *)

(** [f] is finite and not zero, of sign [s], and the number of binary
    digits of its mantissa plus its exponent lies between [lo] and [hi]:
    [2^(lo-1) <= |f| < 2^hi]. *)
Definition finite_mag (s : bool) (lo hi : Z) (f : spec_float) : Prop :=
  exists (m : positive) (e : Z),
    f = S754_finite s m e /\
    lo <= Z.log2 (Zpos m) + 1 + e <= hi.

(** Ratios between 1:256 and 256:1. *)
Definition ratio_in_range (r : PyFloat.float) : Prop :=
  finite_mag false (-7) 8 r.

(** The aspect ratio of the window, when it has one, is in range. *)
Definition ratio_ok (s : App) : Prop :=
  forall r : PyFloat.float, aspect_ratio s = Some r -> ratio_in_range r.

Definition int_range (z : Z) : Prop := - 2 ^ 31 <= z < 2 ^ 31.

Definition point_in_range (p : Qt.QPoint) : Prop :=
  int_range (Qt.x p) /\ int_range (Qt.y p).

(** A rectangle as Qt hands it out for a window or a screen: corners that
    fit an [int], and a size between 0 and [QWIDGETSIZE_MAX]. *)
Definition rect_in_range (r : Qt.QRect) : Prop :=
  int_range (Qt.x1 r) /\ int_range (Qt.y1 r) /\
  int_range (Qt.x2 r) /\ int_range (Qt.y2 r) /\
  0 <= Qt.width r <= Qt.QWIDGETSIZE_MAX /\
  0 <= Qt.height r <= Qt.QWIDGETSIZE_MAX.

(** Coordinates of a desktop: the 16 bits of a window system. *)
Definition desk_range (z : Z) : Prop := - 2 ^ 15 <= z < 2 ^ 15.

Definition point_on_desk (p : Qt.QPoint) : Prop :=
  desk_range (Qt.x p) /\ desk_range (Qt.y p).

Definition rect_on_desk (r : Qt.QRect) : Prop :=
  desk_range (Qt.x1 r) /\ desk_range (Qt.y1 r) /\
  desk_range (Qt.x2 r) /\ desk_range (Qt.y2 r).

(** The usable area of a screen of a desktop: its origin within those 16
    bits, its sides below 2^15 pixels. *)
Definition screen_on_desk (r : Qt.QRect) : Prop :=
  desk_range (Qt.left r) /\ desk_range (Qt.top r) /\
  0 <= Qt.width r < 2 ^ 15 /\ 0 <= Qt.height r < 2 ^ 15.

(** The geometry of the window obeys its size constraints, and these are
    sizes of a widget. *)
Definition size_constrained (s : App) : Prop :=
  0 <= minimum_width s <= Qt.width (geometry s) /\
  Qt.width (geometry s) <= Qt.QWIDGETSIZE_MAX /\
  0 <= minimum_height s <= Qt.height (geometry s) /\
  Qt.height (geometry s) <= Qt.QWIDGETSIZE_MAX.

(* ------------------------------------------------------------------ *)
(** ** Scenarios used by the examples below *)

Module Scenario.

(** A usable screen area of 1920x1080 at the origin. *)
Definition screen : Qt.QRect := Qt.mkQRect 0 0 1920 1080.

(** The float [1.5], as the ratio of a 600x400 image. *)
Definition ratio_3_2 : PyFloat.float :=
  PyFloat.div (PyFloat.of_int 600) (PyFloat.of_int 400).

(** Window at (100,100) of size 500x400, margin 10, showing a 600x400
    image, so that the aspect constraint is 1.5. *)
Definition window_3_2 : App :=
  with_aspect_ratio (Some ratio_3_2)
    (with_pixmap (Some (mkQPixmap 600 400)) (init (Qt.mkQPoint 100 100))).

(** A window 15 wide and 15 high: narrower and shorter than twice the
    margin. *)
Definition tiny_window : App :=
  with_geometry (Qt.mkQRect 0 0 15 15) (init (Qt.mkQPoint 0 0)).

(** Window at (100,100) shrunk to the 100x100 floor, showing a 600x400
    image. *)
Definition floor_window : App :=
  with_geometry (Qt.mkQRect 100 100 100 100) window_3_2.

(** [window_3_2] once its bottom-right corner is pressed at (595,495). *)
Definition resizing_window : App :=
  with_start_geometry (Some (Qt.mkQRect 100 100 500 400))
    (with_start_pos (Some (Qt.mkQPoint 595 495))
       (with_resize_edge (Some 10) (with_resizing true window_3_2))).

(** Two windows that lie entirely inside [screen]: a tall one next to
    its right border, a wide one next to its bottom border. *)
Definition tall_window : App :=
  with_geometry (Qt.mkQRect 1700 50 200 1000) window_3_2.
Definition wide_window : App :=
  with_geometry (Qt.mkQRect 100 800 900 250) window_3_2.

(** Press on the right border of [window_3_2], then a move 50 to the
    right. *)
Definition right_edge_drag : list QEvent :=
  [ MouseButtonPress LeftButton (Qt.mkQPoint 600 300);
    MouseMove (Qt.mkQPoint 650 300) ].

(** Press on the bottom-right corner of [window_3_2], a move far up and
    left, release. *)
Definition shrink_gesture : list QEvent :=
  [ MouseButtonPress LeftButton (Qt.mkQPoint 595 495);
    MouseMove (Qt.mkQPoint 95 95);
    MouseButtonRelease LeftButton (Qt.mkQPoint 95 95) ].

(** An 800x600 photograph and a tall strip of 5x5000 pixels. *)
Definition photo : QImage := Image Format_Other 800 600.
Definition strip : QImage := Image Format_Other 5 5000.

(** Press inside the initial window, one move, release further away. *)
Definition drag_gesture : list QEvent :=
  [ MouseButtonPress LeftButton (Qt.mkQPoint 300 300);
    MouseMove (Qt.mkQPoint 320 310);
    MouseButtonRelease LeftButton (Qt.mkQPoint 350 300) ].

End Scenario.

(* ------------------------------------------------------------------ *)
(** ** Consistency of the interaction state

    What the handlers rely on between events. *)

(** The anchors a gesture reads are set whenever its flag is. *)
Definition anchors_set (s : App) : Prop :=
  (resizing s = true ->
   exists (p0 : Qt.QPoint) (g0 : Qt.QRect) (edge : Z),
     start_pos s = Some p0 /\ start_geometry s = Some g0 /\
     resize_edge s = Some edge) /\
  (dragging s = true ->
   exists p0 w0 : Qt.QPoint,
     drag_start_pos s = Some p0 /\ window_start_pos s = Some w0).

(** The window is at least 100x100. *)
Definition size_floor (s : App) : Prop :=
  100 <= Qt.width (geometry s) /\ 100 <= Qt.height (geometry s).


(** Position of a pointer relative to the borders of the window, in local
    coordinates: the four tests of [get_resize_edge], the second of each
    axis being made only when the first fails. *)
Definition on_left (s : App) (pos : Qt.QPoint) : Prop :=
  Qt.x pos < resize_margin s.
Definition on_right (s : App) (pos : Qt.QPoint) : Prop :=
  ~ Qt.x pos < resize_margin s /\ self_width s - resize_margin s < Qt.x pos.
Definition on_top (s : App) (pos : Qt.QPoint) : Prop :=
  Qt.y pos < resize_margin s.
Definition on_bottom (s : App) (pos : Qt.QPoint) : Prop :=
  ~ Qt.y pos < resize_margin s /\ self_height s - resize_margin s < Qt.y pos.

(* ------------------------------------------------------------------ *)
(** ** Further ranges *)

(** [f] is a zero, or finite of magnitude at most [hi]: [|f| < 2^hi]. *)
Definition float_below (hi : Z) (f : spec_float) : Prop :=
  match f with
  | S754_zero _ => True
  | S754_finite _ m e => Z.log2 (Zpos m) + 1 + e <= hi
  | _ => False
  end.

(** Dimensions of an image: below 2^24 pixels a side, and no more than 32
    times as wide as high or as high as wide. *)
Definition image_in_range (w h : Z) : Prop :=
  0 < w < 2 ^ 24 /\ 0 < h < 2 ^ 24 /\ w <= 32 * h /\ h <= 32 * w.

Definition pixmap_in_range (pm : QPixmap) : Prop :=
  image_in_range (pm_width pm) (pm_height pm).

(** Heights of the title bar and of the bottom bar (the constructor fixes
    them at 30 and 35): heights of widgets. *)
Definition chrome_in_range (s : App) : Prop :=
  0 <= title_bar_height s <= Qt.QWIDGETSIZE_MAX /\
  0 <= bottom_bar_height s <= Qt.QWIDGETSIZE_MAX.

(** The same on a desktop: bars below 2^15 pixels. *)
Definition chrome_on_desk (s : App) : Prop :=
  0 <= title_bar_height s < 2 ^ 15 /\ 0 <= bottom_bar_height s < 2 ^ 15.

(** A finite float that is not negative, in the form the operations
    produce: at most 53 binary digits. *)
Definition canonical_pos (f : spec_float) : Prop :=
  match f with
  | S754_zero _ => True
  | S754_finite false m _ => Z.log2 (Zpos m) <= 52
  | _ => False
  end.

(* ------------------------------------------------------------------ *)
(** ** What the user does to the window

    The callers of the methods above: the window is shown, an image is
    opened (command line, drop, file dialog), a rotation button is clicked,
    a pointer event reaches the filter.  Each comes with the primary screen
    of the moment. *)

Inductive Action : Type :=
| Show (layout_minimum_width layout_minimum_height : Z)
| Load (screen : option Qt.QRect) (file_path : string) (image : QImage)
| Rotate (screen : option Qt.QRect) (angle : Angle)
| Pointer (event : QEvent).

Definition perform (action : Action) : M unit :=
  match action with
  | Show w h => show w h
  | Load screen file_path image => load_image screen file_path image
  | Rotate screen angle => rotate_image screen angle
  | Pointer event => eventFilter event ;;; ret tt
  end.

(** Actions in arrival order, up to the first exception. *)
Fixpoint perform_all (actions : list Action) : M unit :=
  match actions with
  | [] => ret tt
  | action :: rest => perform action ;;; perform_all rest
  end.

(** A decoded image is null or has a positive height. *)
Definition image_ok (image : QImage) : Prop :=
  match image with
  | NullImage => True
  | Image _ _ h => 0 < h
  end.

Definition action_ok (action : Action) : Prop :=
  match action with
  | Load _ _ image => image_ok image
  | _ => True
  end.

(** The aspect ratio is the one of the pixmap shown. *)
Definition ratio_matches (s : App) : Prop :=
  match pixmap s with
  | Some pm =>
      0 < pm_height pm /\
      aspect_ratio s = Some (PyFloat.div (PyFloat.of_int (pm_width pm))
                                         (PyFloat.of_int (pm_height pm)))
  | None => aspect_ratio s = None
  end.

(* ------------------------------------------------------------------ *)
(** ** The title bar and its own drag

    [TitleBar] receives the pointer events over it itself (no filter is
    installed on it) and moves its parent window.  [parent_pos] is created
    by the first left press; [None] stands for the missing attribute. *)

Record TitleBar : Type := mkTitleBar {
  tb_start_pos : option Qt.QPoint;
  tb_click_pos : option Qt.QPoint;
  tb_parent_pos : option Qt.QPoint
}.

Definition TitleBar_init : TitleBar := mkTitleBar None None None.

(** Truth value of a [QPoint] in a condition: PyQt answers [not isNull()],
    so the point (0,0) is false. *)
Definition QPoint_bool (p : Qt.QPoint) : bool :=
  negb ((Qt.x p =? 0) && (Qt.y p =? 0)).

Inductive TitleBarRes : Type :=
| TbOk (tb : TitleBar) (s : App)
| TbAttributeError (tb : TitleBar) (s : App).

(** [click_pos] is [mapToGlobal(event.position().toPoint())]. *)
Definition TitleBar_mousePressEvent (button : MouseButton)
    (global_pos click_pos : Qt.QPoint) (tb : TitleBar) (s : App)
    : TitleBarRes :=
  match button with
  | LeftButton =>
      TbOk (mkTitleBar (Some global_pos) (Some click_pos) (Some (self_pos s))) s
  | _ => TbOk tb s
  end.

Definition TitleBar_mouseMoveEvent (global_pos : Qt.QPoint) (tb : TitleBar)
    (s : App) : TitleBarRes :=
  match tb_start_pos tb with
  | Some start =>
      if QPoint_bool start then
        let delta := Qt.psub global_pos start in
        match tb_parent_pos tb with
        | Some parent_pos =>
            TbOk tb (with_geometry
                       (Qt.moveTo (Qt.padd parent_pos delta) (geometry s)) s)
        | None => TbAttributeError tb s
        end
      else TbOk tb s
  | None => TbOk tb s
  end.

Definition TitleBar_mouseReleaseEvent (tb : TitleBar) (s : App)
    : TitleBarRes :=
  TbOk (mkTitleBar None (tb_click_pos tb) (tb_parent_pos tb)) s.

(** [parent_pos] exists whenever a drag is in progress. *)
Definition TitleBar_consistent (tb : TitleBar) : Prop :=
  tb_start_pos tb <> None -> tb_parent_pos tb <> None.

Inductive TitleBarEvent : Type :=
| TbPress (button : MouseButton) (global_pos click_pos : Qt.QPoint)
| TbMove (global_pos : Qt.QPoint)
| TbRelease (button : MouseButton).

Definition TitleBar_event (event : TitleBarEvent) (tb : TitleBar) (s : App)
    : TitleBarRes :=
  match event with
  | TbPress button global_pos click_pos =>
      TitleBar_mousePressEvent button global_pos click_pos tb s
  | TbMove global_pos => TitleBar_mouseMoveEvent global_pos tb s
  | TbRelease _ => TitleBar_mouseReleaseEvent tb s
  end.

Definition is_left_press (event : TitleBarEvent) : bool :=
  match event with
  | TbPress LeftButton _ _ => true
  | _ => false
  end.

Fixpoint TitleBar_events (events : list TitleBarEvent) (tb : TitleBar)
    (s : App) : TitleBarRes :=
  match events with
  | [] => TbOk tb s
  | event :: rest =>
      match TitleBar_event event tb s with
      | TbOk tb' s' => TitleBar_events rest tb' s'
      | TbAttributeError tb' s' => TbAttributeError tb' s'
      end
  end.

(* ------------------------------------------------------------------ *)
(** ** Opacity

    [change_opacity(value)] hands [value / 100.0] to the image widget; the
    slider is given the range 10..100. *)

Definition change_opacity (value : Z) : Exc PyFloat.float :=
  PyFloat.truediv_int_float value (PyFloat.of_int 100).

Definition slider_values : list Z := map Z.of_nat (seq 10 91).

(* ------------------------------------------------------------------ *)
(** ** Further scenarios *)

Module Example.

(** The initial window at (100,100), nothing loaded, once its
    bottom-right corner is pressed at (595,495). *)
Definition free_resizing : App :=
  with_start_geometry (Some (Qt.mkQRect 100 100 500 400))
    (with_start_pos (Some (Qt.mkQPoint 595 495))
       (with_resize_edge (Some 10)
          (with_resizing true (init (Qt.mkQPoint 100 100))))).

(** [Scenario.window_3_2] once its right border is pressed at (600,300). *)
Definition right_pressed : App :=
  with_start_geometry (Some (Qt.mkQRect 100 100 500 400))
    (with_start_pos (Some (Qt.mkQPoint 600 300))
       (with_resize_edge (Some 2)
          (with_resizing true Scenario.window_3_2))).

(** A session: open a photograph, press inside the window, rotate. *)
Definition session : list Action :=
  [ Load (Some Scenario.screen) "photo.png" Scenario.photo;
    Pointer (MouseButtonPress LeftButton (Qt.mkQPoint 700 500));
    Rotate (Some Scenario.screen) RotateRight ].

End Example.

(* ------------------------------------------------------------------ *)
(** ** Scenarios on the window once shown

    With the default style the minimum size of the layout is 294x83: the
    bottom bar sets the width, the two fixed bars and the margins the
    height. *)

Module Shown.

Definition layout_minimum_width : Z := 294.
Definition layout_minimum_height : Z := 83.

(** [show()] on a window that is already as large as the layout. *)
Definition shown (s : App) : App :=
  with_minimum_size layout_minimum_width layout_minimum_height s.

(** The initial window at (100,100), and the same showing a 600x400
    image. *)
Definition window : App := shown (init (Qt.mkQPoint 100 100)).
Definition window_3_2 : App := shown Scenario.window_3_2.

(** [window_3_2] once its bottom-right corner is pressed at (595,495), and
    once its right border is pressed at (600,300). *)
Definition corner_pressed : App := shown Scenario.resizing_window.
Definition right_pressed : App := shown Example.right_pressed.

(** [window], nothing loaded, once its bottom-right corner is pressed at
    (595,495). *)
Definition free_pressed : App := shown Example.free_resizing.

(** [window_3_2] once its top-left corner is pressed at (102,102). *)
Definition top_left_pressed : App :=
  with_start_geometry (Some (Qt.mkQRect 100 100 500 400))
    (with_start_pos (Some (Qt.mkQPoint 102 102))
       (with_resize_edge (Some 5) (with_resizing true window_3_2))).

(** Two windows that lie entirely inside the screen: a tall one next to
    its right border, a wide one next to its bottom border. *)
Definition tall_window : App :=
  with_geometry (Qt.mkQRect 1600 50 300 1000) window_3_2.
Definition wide_window : App :=
  with_geometry (Qt.mkQRect 100 600 900 400) window_3_2.

(** A banner of 882x167 pixels and a strip of 40x1000 pixels. *)
Definition banner : QImage := Image Format_Other 882 167.
Definition strip : QImage := Image Format_Other 40 1000.

(** The window is shown, then the banner is opened: the window takes the
    size of the banner plus the chrome, 900x250. *)
Definition banner_opened : list Action :=
  [ Show layout_minimum_width layout_minimum_height;
    Load (Some Scenario.screen) "banner.png" banner ].

(** The window is shown, the strip is opened (the window is 294x918 at
    (934,81)), and the right border is dragged one pixel to the right. *)
Definition strip_widened : list Action :=
  [ Show layout_minimum_width layout_minimum_height;
    Load (Some Scenario.screen) "strip.png" strip;
    Pointer (MouseButtonPress LeftButton (Qt.mkQPoint 1225 500));
    Pointer (MouseMove (Qt.mkQPoint 1226 500));
    Pointer (MouseButtonRelease LeftButton (Qt.mkQPoint 1226 500)) ].

(** Press on the top-left corner of [window_3_2], then a move 450 to the
    right. *)
Definition top_left_drag : list QEvent :=
  [ MouseButtonPress LeftButton (Qt.mkQPoint 102 102);
    MouseMove (Qt.mkQPoint 552 102) ].

End Shown.

(* ------------------------------------------------------------------ *)
(** * Properties *)

(** ** The float model on the literals of the source

    [0.85] is 0x3FEB333333333333, [1.5] is 0x3FF8000000000000, and
    [int(-2.5)] is [-2]. *)

Example lit_0_85_bits :
  PyFloat.lit_0_85 = S754_finite false 7656119366529843 (-53).
Proof. vm_compute. reflexivity. Qed.

Example ratio_3_2_bits :
  Scenario.ratio_3_2 = S754_finite false 6755399441055744 (-52).
Proof. vm_compute. reflexivity. Qed.

Example to_int_truncates :
  PyFloat.to_int (PyFloat.div (PyFloat.of_int (-5)) (PyFloat.of_int 2))
  = Val (-2).
Proof. vm_compute. reflexivity. Qed.

(** ** Edge classifier *)

Section EdgeClassifier.

Variable s : App.
Variable pos : Qt.QPoint.

Let edge := get_resize_edge s pos.

Lemma get_resize_edge_values :
  In edge [0; 1; 2; 4; 5; 6; 8; 9; 10].
Proof.
  unfold edge, get_resize_edge.
  destruct (Qt.x pos <? resize_margin s);
    [| destruct (self_width s - resize_margin s <? Qt.x pos)];
    (destruct (Qt.y pos <? resize_margin s);
     [| destruct (self_height s - resize_margin s <? Qt.y pos)]);
    cbn; tauto.
Qed.

End EdgeClassifier.

(** C6. The edge classifier never reports Left together with Right, nor Top
    together with Bottom.  Left is reported as soon as the pointer is left
    of the margin, and then Right is not, even if the test of Right holds
    too (which needs a window narrower than twice the margin); likewise Top
    has precedence over Bottom. *)
Theorem get_resize_edge_one_flag_per_axis :
  forall (s : App) (pos : Qt.QPoint),
    let edge := get_resize_edge s pos in
    let m := resize_margin s in
    (flag edge 1 && flag edge 2 = false) /\
    (flag edge 4 && flag edge 8 = false) /\
    (Qt.x pos < m -> flag edge 1 = true /\ flag edge 2 = false) /\
    (Qt.y pos < m -> flag edge 4 = true /\ flag edge 8 = false) /\
    (Qt.x pos < m -> self_width s - m < Qt.x pos -> self_width s < 2 * m) /\
    (Qt.y pos < m -> self_height s - m < Qt.y pos -> self_height s < 2 * m).
Proof.
  intros s pos edge m. unfold edge, m, get_resize_edge.
  repeat (match goal with |- _ /\ _ => split end); try lia.
  all: destruct (Z.ltb_spec (Qt.x pos) (resize_margin s)) as [Hx | Hx];
    [| destruct (self_width s - resize_margin s <? Qt.x pos)];
    (destruct (Z.ltb_spec (Qt.y pos) (resize_margin s)) as [Hy | Hy];
     [| destruct (self_height s - resize_margin s <? Qt.y pos)]);
    cbn; repeat split; intros; try reflexivity; exfalso; lia.
Qed.

Lemma get_resize_edge_one_flag_per_axis_witness :
  let s := Scenario.tiny_window in
  let pos := Qt.mkQPoint 7 8 in
  (self_width s - resize_margin s < Qt.x pos) /\
  (self_height s - resize_margin s < Qt.y pos) /\
  get_resize_edge s pos = 5 /\
  flag (get_resize_edge s pos) 2 = false /\
  flag (get_resize_edge s pos) 8 = false.
Proof.
  cbv zeta.
  pose proof (get_resize_edge_one_flag_per_axis
                Scenario.tiny_window (Qt.mkQPoint 7 8)) as H.
  cbv zeta in H.
  destruct H as (_ & _ & Hl & Ht & _ & _).
  split; [vm_compute; reflexivity |].
  split; [vm_compute; reflexivity |].
  split; [reflexivity |].
  split.
  - apply Hl. vm_compute. reflexivity.
  - apply Ht. vm_compute. reflexivity.
Defined.

(* ------------------------------------------------------------------ *)
(** ** Loading *)

(** C10. A file whose decoding yields the null image leaves the whole
    window state as it was: pixmap, aspect ratio, geometry, title and every
    other attribute; the call returns normally. *)
Theorem load_image_null_is_noop :
  forall (screen : option Qt.QRect) (file_path : string) (s : App),
    load_image screen file_path NullImage s = Ok tt s.
Proof.
  intros screen file_path s. unfold load_image. reflexivity.
Qed.

(* ------------------------------------------------------------------ *)
(** ** Chrome extents *)

(** C3.  With the heights the constructor fixes for the title bar (30) and
    the bottom bar (35), [load_image] and [rotate_image] use a vertical
    extra of 83, whereas [handle_resize] uses the constant 78 of its body;
    the horizontal extra is 18 everywhere. *)
Theorem resize_extra_h_differs_from_load :
  forall pos : Qt.QPoint,
    let s := init pos in
    load_extra_h s = 83 /\
    rotate_extra_h s = 83 /\
    resize_extra_h = 78 /\
    load_extra_w = resize_extra_w /\
    rotate_extra_w = resize_extra_w.
Proof.
  intros pos s. unfold s. repeat split.
Qed.

(** The constant of [handle_resize] is below what the other two paths
    compute as soon as the title bar is at least 26 high. *)
Lemma resize_extra_h_below_load :
  forall s : App,
    26 <= title_bar_height s ->
    resize_extra_h < load_extra_h s /\ load_extra_h s = rotate_extra_h s.
Proof.
  intros s Ht. unfold resize_extra_h, load_extra_h, rotate_extra_h.
  destruct (Z.ltb_spec (bottom_bar_height s) 35); split; try reflexivity; lia.
Qed.

(* ------------------------------------------------------------------ *)
(** ** The Right-edge scenario *)

(** C4, as stated: the drag does not end with a window 433 high. *)
Lemma right_edge_drag_height_not_433 :
  ~ (exists s' : App,
        dispatch Scenario.right_edge_drag Scenario.window_3_2 = Ok tt s' /\
        Qt.width (geometry s') = 550 /\
        Qt.height (geometry s') = 433).
Proof.
  intros (s' & Hrun & _ & Hh).
  vm_compute in Hrun. injection Hrun as <-.
  vm_compute in Hh. discriminate Hh.
Qed.

(** C4, amended.  Window (100,100,500,400), margin 10, aspect ratio 1.5,
    chrome constants 18 and 78: the press at (600,300) is classified as the
    Right edge, and the move to (650,300) gives a window 550 wide and 432
    high, [int] truncating 532/1.5 + 78 = 432.66... toward zero. *)
Theorem right_edge_drag_geometry :
  get_resize_edge Scenario.window_3_2
    (mapFromGlobal Scenario.window_3_2 (Qt.mkQPoint 600 300)) = 2 /\
  height_from_width 550 Scenario.ratio_3_2 = Val 432 /\
  exists s' : App,
    dispatch Scenario.right_edge_drag Scenario.window_3_2 = Ok tt s' /\
    geometry s' = Qt.mkQRect 100 100 550 432 /\
    Qt.width (geometry s') = 550 /\
    Qt.height (geometry s') = 432.
Proof.
  split; [reflexivity |].
  split; [vm_compute; reflexivity |].
  eexists. split; [vm_compute; reflexivity |].
  repeat split.
Qed.

(* ------------------------------------------------------------------ *)
(** ** Drag-to-move *)

Lemma dispatch_app :
  forall (l1 l2 : list QEvent) (s : App),
    dispatch (l1 ++ l2) s =
    match dispatch l1 s with
    | Ok _ s1 => dispatch l2 s1
    | Raise e s1 => Raise e s1
    end.
Proof.
  induction l1 as [| ev l1 IH]; intros l2 s; [reflexivity |].
  cbn [app dispatch]. unfold bind.
  destruct (eventFilter ev s) as [b s1 | e s1]; [apply IH | reflexivity].
Qed.

Section Dragging.

Variable p0 : Qt.QPoint.   (* pointer position at the press *)
Variable w0 : Qt.QPoint.   (* window position at the press *)

Lemma handle_mouse_move_dragging :
  forall (p : Qt.QPoint) (s : App),
    drag_state p0 w0 s ->
    handle_mouse_move p s =
    Ok tt (with_geometry (Qt.moveTo (Qt.padd w0 (Qt.psub p p0)) (geometry s)) s).
Proof.
  intros p s (Hr & Hd & Hp & Hw).
  unfold handle_mouse_move, bind, get. rewrite Hr, Hd, Hp. cbn.
  rewrite Hw. reflexivity.
Qed.

Lemma drag_moves :
  forall (ms : list Qt.QPoint) (s : App),
    drag_state p0 w0 s ->
    exists s',
      dispatch (map MouseMove ms) s = Ok tt s' /\
      drag_state p0 w0 s' /\
      Qt.width (geometry s') = Qt.width (geometry s) /\
      Qt.height (geometry s') = Qt.height (geometry s) /\
      self_pos s' = match ms with
                    | [] => self_pos s
                    | _ :: _ => Qt.padd w0 (Qt.psub (last ms p0) p0)
                    end.
Proof.
  induction ms as [| p ms IH]; intros s Hs.
  - exists s. repeat split; try reflexivity; apply Hs.
  - cbn [map dispatch eventFilter]. unfold bind.
    rewrite (handle_mouse_move_dragging p s Hs). cbn [ret].
    set (s1 := with_geometry _ s).
    assert (Hs1 : drag_state p0 w0 s1) by exact Hs.
    destruct (IH s1 Hs1) as (s' & Hrun & Hs' & Hw & Hh & Hpos).
    exists s'. split; [exact Hrun |]. split; [exact Hs' |].
    split; [rewrite Hw; unfold s1, Qt.width; cbn; lia |].
    split; [rewrite Hh; unfold s1, Qt.height; cbn; lia |].
    rewrite Hpos. destruct ms as [| p' ms']; reflexivity.
Qed.

End Dragging.

(** C7, as stated: a release away from the last move does not take the
    window along.  Press at (300,300) inside the window placed at (100,100),
    move to (320,310), release at (350,300): the window ends at (120,110),
    not at (100,100) + ((350,300) - (300,300)). *)
Lemma drag_release_position_ignored :
  exists s' : App,
    dispatch Scenario.drag_gesture (init (Qt.mkQPoint 100 100)) = Ok tt s' /\
    self_pos s' = Qt.mkQPoint 120 110 /\
    self_pos s' <>
    Qt.padd (self_pos (init (Qt.mkQPoint 100 100)))
            (Qt.psub (Qt.mkQPoint 350 300) (Qt.mkQPoint 300 300)).
Proof.
  eexists. split; [vm_compute; reflexivity |].
  split; [reflexivity |].
  vm_compute. discriminate.
Qed.

(** C7, amended.  From the idle state, a press away from the borders, any
    finite sequence of moves and a release leave the window at its initial
    position plus (position of the last move - position of the press), at
    its initial position when there was no move; the release position plays
    no part, so this is initial + (release - press) exactly when the last
    move was delivered at the release position.  Earlier moves do not
    matter, the size is untouched and nothing is clamped. *)
Theorem drag_move_gesture :
  forall (s : App) (p0 q : Qt.QPoint) (ms : list Qt.QPoint),
    resizing s = false ->
    get_resize_edge s (mapFromGlobal s p0) = 0 ->
    exists s' : App,
      dispatch (MouseButtonPress LeftButton p0
                  :: map MouseMove ms ++ [MouseButtonRelease LeftButton q]) s
      = Ok tt s' /\
      self_pos s' = Qt.padd (self_pos s) (Qt.psub (last ms p0) p0) /\
      (last ms p0 = q ->
       self_pos s' = Qt.padd (self_pos s) (Qt.psub q p0)) /\
      Qt.width (geometry s') = Qt.width (geometry s) /\
      Qt.height (geometry s') = Qt.height (geometry s) /\
      idle_state s'.
Proof.
  intros s p0 q ms Hidle Hedge.
  cbn [dispatch eventFilter]. unfold bind at 1 2.
  unfold handle_mouse_press, bind, get. rewrite Hedge. cbn.
  set (s1 := with_window_start_pos _ _).
  assert (Hs1 : drag_state p0 (self_pos s) s1).
  { unfold drag_state, s1. cbn. auto. }
  rewrite dispatch_app.
  destruct (drag_moves p0 (self_pos s) ms s1 Hs1)
    as (s2 & Hrun & Hs2 & Hw & Hh & Hpos).
  rewrite Hrun. cbn.
  eexists. split; [reflexivity |]. cbn.
  assert (Hfinal : self_pos s2 = Qt.padd (self_pos s) (Qt.psub (last ms p0) p0)).
  { rewrite Hpos. destruct ms as [| p ms']; [| reflexivity].
    unfold s1, self_pos, Qt.topLeft, Qt.padd, Qt.psub. cbn. f_equal; lia. }
  split; [exact Hfinal |].
  split; [intros <-; exact Hfinal |].
  split; [exact Hw |]. split; [exact Hh |]. split; reflexivity.
Qed.

Lemma drag_move_gesture_witness :
  exists s' : App,
    dispatch Scenario.drag_gesture (init (Qt.mkQPoint 100 100)) = Ok tt s' /\
    self_pos s' = Qt.mkQPoint 120 110.
Proof.
  destruct (drag_move_gesture (init (Qt.mkQPoint 100 100))
              (Qt.mkQPoint 300 300) (Qt.mkQPoint 350 300)
              [Qt.mkQPoint 320 310] eq_refl eq_refl)
    as (s' & Hrun & Hpos & _).
  exists s'. split; [exact Hrun | exact Hpos].
Defined.

(* ------------------------------------------------------------------ *)
(** ** Python integers handed to Qt *)

Lemma c_int_ok : forall v : Z, int_range v -> c_int v = Val v.
Proof.
  intros v [Hlo Hhi]. unfold c_int.
  destruct (Z.leb_spec (- 2 ^ 31) v); [| lia].
  destruct (Z.ltb_spec v (2 ^ 31)); [reflexivity | lia].
Qed.

Lemma c_int_val :
  forall v z : Z, c_int v = Val z -> z = v /\ int_range v.
Proof.
  intros v z. unfold c_int, int_range.
  destruct (Z.leb_spec (- 2 ^ 31) v); [| discriminate].
  destruct (Z.ltb_spec v (2 ^ 31)); [| discriminate].
  intros [= <-]. split; [reflexivity | split; assumption].
Qed.

Lemma c_int_err :
  forall (v : Z) (e : exn),
    c_int v = Err e -> e = OverflowError /\ ~ int_range v.
Proof.
  intros v e. unfold c_int, int_range.
  destruct (Z.leb_spec (- 2 ^ 31) v);
    [destruct (Z.ltb_spec v (2 ^ 31)); [discriminate |] |];
    intros [= <-]; split; try reflexivity; lia.
Qed.

Lemma call_ok :
  forall (f : Z -> Qt.QRect -> Qt.QRect) (v : Z) (r : Qt.QRect),
    int_range v -> PyQt.call f v r = Val (f v r).
Proof.
  intros f v r Hv. unfold PyQt.call. rewrite (c_int_ok v Hv). reflexivity.
Qed.

Lemma call_val :
  forall (f : Z -> Qt.QRect -> Qt.QRect) (v : Z) (r r' : Qt.QRect),
    PyQt.call f v r = Val r' -> r' = f v r /\ int_range v.
Proof.
  intros f v r r'. unfold PyQt.call.
  destruct (c_int v) as [z | e] eqn:Hc; [| discriminate].
  destruct (c_int_val v z Hc) as [-> Hv].
  intros [= <-]. split; [reflexivity | exact Hv].
Qed.

Lemma call_err :
  forall (f : Z -> Qt.QRect -> Qt.QRect) (v : Z) (r : Qt.QRect) (e : exn),
    PyQt.call f v r = Err e -> e = OverflowError.
Proof.
  intros f v r e. unfold PyQt.call.
  destruct (c_int v) as [z | e'] eqn:Hc; [discriminate |].
  intros [= <-]. apply (c_int_err v e' Hc).
Qed.

Lemma QRect_ok :
  forall l t w h : Z,
    int_range l -> int_range t -> int_range w -> int_range h ->
    PyQt.QRect l t w h = Val (Qt.mkQRect l t w h).
Proof.
  intros l t w h Hl Ht Hw Hh. unfold PyQt.QRect.
  rewrite (c_int_ok l Hl), (c_int_ok t Ht), (c_int_ok w Hw), (c_int_ok h Hh).
  reflexivity.
Qed.

Lemma QRect_val :
  forall (l t w h : Z) (r : Qt.QRect),
    PyQt.QRect l t w h = Val r ->
    r = Qt.mkQRect l t w h /\ int_range w /\ int_range h.
Proof.
  intros l t w h r. unfold PyQt.QRect.
  destruct (c_int l) as [l' | e] eqn:Hl; [| discriminate].
  destruct (c_int t) as [t' | e] eqn:Ht; [| discriminate].
  destruct (c_int w) as [w' | e] eqn:Hw; [| discriminate].
  destruct (c_int h) as [h' | e] eqn:Hh; [| discriminate].
  destruct (c_int_val _ _ Hl) as [-> _]. destruct (c_int_val _ _ Ht) as [-> _].
  destruct (c_int_val _ _ Hw) as [-> Hwr]. destruct (c_int_val _ _ Hh) as [-> Hhr].
  cbn [exc_bind]. intros [= <-]. split; [reflexivity | split; assumption].
Qed.

Lemma QRect_err :
  forall (l t w h : Z) (e : exn),
    PyQt.QRect l t w h = Err e -> e = OverflowError.
Proof.
  intros l t w h e. unfold PyQt.QRect.
  destruct (c_int l) as [l' | e1] eqn:Hl;
    [| intros [= <-]; apply (c_int_err _ _ Hl)].
  destruct (c_int t) as [t' | e2] eqn:Ht;
    [| intros [= <-]; apply (c_int_err _ _ Ht)].
  destruct (c_int w) as [w' | e3] eqn:Hw;
    [| intros [= <-]; apply (c_int_err _ _ Hw)].
  destruct (c_int h) as [h' | e4] eqn:Hh;
    [| intros [= <-]; apply (c_int_err _ _ Hh)].
  discriminate.
Qed.

(* ------------------------------------------------------------------ *)
(** ** Size constraints of the window *)

Lemma constrained_spec :
  forall (s : App) (r : Qt.QRect),
    let g := constrained s r in
    Qt.left g = Qt.left r /\
    Qt.top g = Qt.top r /\
    Qt.width g = bounded (minimum_width s) (Qt.width r) /\
    Qt.height g = bounded (minimum_height s) (Qt.height r).
Proof.
  intros s r g. unfold g, constrained, Qt.setSize, Qt.left, Qt.top, Qt.width,
    Qt.height. cbn [Qt.x1 Qt.x2 Qt.y1 Qt.y2].
  repeat split; lia.
Qed.

Lemma bounded_id :
  forall lo v : Z, lo <= v <= Qt.QWIDGETSIZE_MAX -> bounded lo v = v.
Proof. intros lo v H. unfold bounded. lia. Qed.

Lemma bounded_floor :
  forall lo v : Z, 100 <= v -> 100 <= bounded lo v.
Proof. intros lo v H. unfold bounded, Qt.QWIDGETSIZE_MAX. lia. Qed.

Lemma bounded_ge : forall lo v : Z, lo <= bounded lo v.
Proof. intros lo v. unfold bounded. lia. Qed.

Lemma constrained_id :
  forall (s : App) (r : Qt.QRect),
    minimum_width s <= Qt.width r <= Qt.QWIDGETSIZE_MAX ->
    minimum_height s <= Qt.height r <= Qt.QWIDGETSIZE_MAX ->
    constrained s r = r.
Proof.
  intros s r Hw Hh. unfold constrained.
  rewrite !bounded_id by assumption.
  destruct r as [a b c d]. unfold Qt.setSize, Qt.width, Qt.height.
  cbn [Qt.x1 Qt.x2 Qt.y1 Qt.y2]. f_equal; lia.
Qed.

Lemma constrained_floor :
  forall (s : App) (r : Qt.QRect),
    100 <= Qt.width r -> 100 <= Qt.height r ->
    100 <= Qt.width (constrained s r) /\ 100 <= Qt.height (constrained s r).
Proof.
  intros s r Hw Hh.
  destruct (constrained_spec s r) as (_ & _ & -> & ->).
  split; apply bounded_floor; assumption.
Qed.

Lemma setGeometry_run :
  forall (r : Qt.QRect) (s : App),
    setGeometry r s = Ok tt (with_geometry (constrained s r) s).
Proof. reflexivity. Qed.

(** Showing the window grows it to the minimum size of the layout and
    leaves its top-left corner where it is. *)
Lemma show_spec :
  forall (mw mh : Z) (s : App),
    exists s' : App,
      show mw mh s = Ok tt s' /\
      minimum_width s' = mw /\ minimum_height s' = mh /\
      Qt.topLeft (geometry s') = Qt.topLeft (geometry s) /\
      Qt.width (geometry s') = bounded mw (Qt.width (geometry s)) /\
      Qt.height (geometry s') = bounded mh (Qt.height (geometry s)) /\
      pixmap s' = pixmap s /\ aspect_ratio s' = aspect_ratio s /\
      resizing s' = resizing s /\ dragging s' = dragging s.
Proof.
  intros mw mh s. eexists. split; [reflexivity |].
  cbn [minimum_width minimum_height with_geometry with_minimum_size geometry
       pixmap aspect_ratio resizing dragging].
  destruct (constrained_spec (with_minimum_size mw mh s) (geometry s))
    as (Hl & Ht & Hw & Hh).
  cbn [minimum_width minimum_height with_minimum_size] in Hw, Hh.
  unfold Qt.left, Qt.top in Hl, Ht. cbn [geometry with_minimum_size] in Hl, Ht.
  split; [reflexivity |]. split; [reflexivity |].
  split; [unfold Qt.topLeft; rewrite Hl, Ht; reflexivity |].
  split; [exact Hw |]. split; [exact Hh |]. repeat split.
Qed.

(* ------------------------------------------------------------------ *)
(** ** Minimum size of a manual resize *)

Lemma minimum_size_check_floor :
  forall g : Qt.QRect,
    100 <= Qt.width (minimum_size_check g) /\
    100 <= Qt.height (minimum_size_check g).
Proof.
  intros g. unfold minimum_size_check.
  destruct (Z.ltb_spec (Qt.width g) 100) as [Hw | Hw];
    match goal with
    | |- context [Qt.height ?r <? 100] =>
        destruct (Z.ltb_spec (Qt.height r) 100) as [Hh | Hh]
    end;
    unfold Qt.width, Qt.height, Qt.setWidth, Qt.setHeight in *; cbn in *; lia.
Qed.

Lemma minimum_size_check_id :
  forall g : Qt.QRect,
    100 <= Qt.width g -> 100 <= Qt.height g -> minimum_size_check g = g.
Proof.
  intros g Hw Hh. unfold minimum_size_check.
  destruct (Z.ltb_spec (Qt.width g) 100); [lia |].
  destruct (Z.ltb_spec (Qt.height g) 100); [lia | reflexivity].
Qed.

Lemma resized_geometry_floor :
  forall (edge : Z) (geo : Qt.QRect) (diff : Qt.QPoint)
         (ar : option PyFloat.float) (new_geo : Qt.QRect),
    resized_geometry edge geo diff ar = Val new_geo ->
    100 <= Qt.width new_geo /\ 100 <= Qt.height new_geo.
Proof.
  intros edge geo diff ar new_geo. unfold resized_geometry.
  destruct (rough_geometry edge geo diff) as [cand | e]; [| discriminate].
  cbn [exc_bind]. unfold exc_bind.
  match goal with
  | |- match ?c with _ => _ end = _ -> _ => destruct c as [g | e]
  end; [| discriminate].
  intros [= <-]. apply minimum_size_check_floor.
Qed.

Lemma resized_geometry_unconstrained :
  forall (edge : Z) (geo : Qt.QRect) (diff : Qt.QPoint),
    resized_geometry edge geo diff None =
    exc_bind (rough_geometry edge geo diff)
      (fun cand => Val (minimum_size_check cand)).
Proof. reflexivity. Qed.

(* ------------------------------------------------------------------ *)
(** ** Rotation *)

Lemma pm_isNull_false :
  forall pm : QPixmap,
    pm_isNull pm = false -> 0 < pm_width pm /\ 0 < pm_height pm.
Proof.
  intros pm H. unfold pm_isNull in H.
  apply orb_false_iff in H. destruct H as [Hw Hh].
  apply Z.leb_gt in Hw. apply Z.leb_gt in Hh. split; assumption.
Qed.

(** The state once the pixmap is turned and the aspect ratio updated,
    before the geometry is touched, and what follows. *)
Lemma rotate_image_run :
  forall (screen : option Qt.QRect) (a : Angle) (s : App) (pm : QPixmap),
    pixmap s = Some pm ->
    pm_isNull pm = false ->
    exists s1 : App,
      geometry s1 = geometry s /\
      title_bar_height s1 = title_bar_height s /\
      bottom_bar_height s1 = bottom_bar_height s /\
      pixmap s1 = Some (transformed pm a) /\
      pm_isNull (transformed pm a) = false /\
      aspect_ratio s1 = Some (PyFloat.div (PyFloat.of_int (pm_height pm))
                                          (PyFloat.of_int (pm_width pm))) /\
      minimum_width s1 = minimum_width s /\
      minimum_height s1 = minimum_height s /\
      rotate_image screen a s =
      match rotate_fit screen (fst (rotate_proposed_size s))
                              (snd (rotate_proposed_size s)) with
      | Err e => Raise e s1
      | Val (nw, nh) =>
          match PyQt.QRect 0 0 nw nh with
          | Err e => Raise e s1
          | Val rect =>
              match screen with
              | None => Raise UnboundLocalError s1
              | Some screen_geo =>
                  match clamp_top_left screen_geo
                          (Qt.moveCenter (Qt.center (geometry s)) rect) with
                  | Err e => Raise e s1
                  | Val new_geo =>
                      Ok tt (with_geometry (constrained s new_geo) s1)
                  end
              end
          end
      end.
Proof.
  intros screen a s pm Hpix Hnull.
  destruct (pm_isNull_false pm Hnull) as [Hw Hh].
  exists (with_aspect_ratio
            (Some (PyFloat.div (PyFloat.of_int (pm_height pm))
                               (PyFloat.of_int (pm_width pm))))
            (with_pixmap (Some (transformed pm a)) s)).
  split; [reflexivity |]. split; [reflexivity |]. split; [reflexivity |].
  split; [reflexivity |].
  split.
  { unfold pm_isNull. destruct a; cbn; apply orb_false_iff;
      split; apply Z.leb_gt; assumption. }
  split; [reflexivity |]. split; [reflexivity |]. split; [reflexivity |].
  unfold rotate_image, bind, get. rewrite Hpix, Hnull.
  assert (Hth : pm_height (transformed pm a) = pm_width pm)
    by (destruct a; reflexivity).
  assert (Htw : pm_width (transformed pm a) = pm_height pm)
    by (destruct a; reflexivity).
  cbn [modify]. rewrite Hth, Htw.
  destruct (Z.ltb_spec 0 (pm_width pm)) as [_ | Hc]; [| lia].
  unfold PyFloat.truediv_int_int.
  destruct (Z.eqb_spec (pm_width pm) 0) as [Hz | _]; [lia |].
  cbn [lift ret modify].
  match goal with
  | |- context [rotate_proposed_size ?t] =>
      change (rotate_proposed_size t) with (rotate_proposed_size s)
  end.
  destruct (rotate_proposed_size s) as [pw ph]. cbn [fst snd].
  destruct (rotate_fit screen pw ph) as [[nw nh] | e]; cbn [lift ret raise];
    [| reflexivity].
  destruct (PyQt.QRect 0 0 nw nh) as [rect | e]; cbn [lift ret raise];
    [| reflexivity].
  destruct screen as [sg |]; [| reflexivity].
  cbn [ret geometry with_aspect_ratio with_pixmap].
  destruct (clamp_top_left sg (Qt.moveCenter (Qt.center (geometry s)) rect))
    as [g | e]; reflexivity.
Qed.

(** C1.  An 800x600 image is loaded while no screen is known: the load
    completes with the unscaled size 818x683 at the unchanged position.
    The rotation that follows, still without a screen, raises
    [UnboundLocalError] out of [rotate_image]; the pixmap is already
    turned, the geometry is not updated. *)
Theorem rotate_image_without_screen_raises :
  exists s1 s2 : App,
    load_image None "photo.png" Scenario.photo (init (Qt.mkQPoint 100 100))
    = Ok tt s1 /\
    geometry s1 = Qt.mkQRect 100 100 818 683 /\
    rotate_image None RotateRight s1 = Raise UnboundLocalError s2 /\
    pixmap s2 = Some (mkQPixmap 600 800) /\
    geometry s2 = geometry s1.
Proof.
  eexists. eexists.
  split; [vm_compute; reflexivity |].
  split; [reflexivity |].
  split; [vm_compute; reflexivity |].
  split; reflexivity.
Qed.

(** The proposed size of a window within the ranges of Qt fits an [int]. *)
Lemma rotate_proposed_size_range :
  forall s : App,
    chrome_in_range s -> rect_in_range (geometry s) ->
    19 <= fst (rotate_proposed_size s) < 2 ^ 26 /\
    54 <= snd (rotate_proposed_size s) < 2 ^ 26.
Proof.
  intros s [Ht Hb] (_ & _ & _ & _ & Hw & Hh).
  unfold rotate_proposed_size, rotate_extra_w, rotate_extra_h,
    Qt.QWIDGETSIZE_MAX in *. cbn [fst snd].
  destruct (Z.ltb_spec (bottom_bar_height s) 35); split; lia.
Qed.

(** The same on every window that shows an image. *)
Lemma rotate_image_no_screen :
  forall (a : Angle) (s : App) (pm : QPixmap),
    pixmap s = Some pm ->
    pm_isNull pm = false ->
    chrome_in_range s -> rect_in_range (geometry s) ->
    exists s' : App,
      rotate_image None a s = Raise UnboundLocalError s' /\
      geometry s' = geometry s.
Proof.
  intros a s pm Hpix Hnull Hchrome Hgeo.
  destruct (rotate_image_run None a s pm Hpix Hnull)
    as (s1 & Hg & _ & _ & _ & _ & _ & _ & _ & Hrun).
  exists s1. split; [| exact Hg].
  rewrite Hrun. cbn [rotate_fit].
  destruct (rotate_proposed_size_range s Hchrome Hgeo) as [Hw Hh].
  destruct (rotate_proposed_size s) as [pw ph]. cbn [fst snd] in *.
  rewrite QRect_ok; [reflexivity | | | |]; unfold int_range; lia.
Qed.

Lemma moveCenter_size :
  forall (c : Qt.QPoint) (w h : Z),
    Qt.width (Qt.moveCenter c (Qt.mkQRect 0 0 w h)) = w /\
    Qt.height (Qt.moveCenter c (Qt.mkQRect 0 0 w h)) = h.
Proof.
  intros c w h. unfold Qt.width, Qt.height, Qt.moveCenter, Qt.mkQRect. cbn.
  split; lia.
Qed.

(** The midpoint of the moved rectangle is within half a unit of the
    requested centre, on each axis. *)
Lemma moveCenter_centered :
  forall (c : Qt.QPoint) (r : Qt.QRect),
    let r' := Qt.moveCenter c r in
    Z.abs (Qt.left r' + Qt.right r' - 2 * Qt.x c) <= 1 /\
    Z.abs (Qt.top r' + Qt.bottom r' - 2 * Qt.y c) <= 1.
Proof.
  intros c r r'. unfold r', Qt.moveCenter, Qt.left, Qt.right, Qt.top, Qt.bottom.
  cbn [Qt.x1 Qt.x2 Qt.y1 Qt.y2].
  pose proof (Z.quot_rem' (Qt.x2 r - Qt.x1 r) 2) as Hx.
  pose proof (Z.rem_bound_abs (Qt.x2 r - Qt.x1 r) 2 ltac:(lia)) as Hxb.
  pose proof (Z.quot_rem' (Qt.y2 r - Qt.y1 r) 2) as Hy.
  pose proof (Z.rem_bound_abs (Qt.y2 r - Qt.y1 r) 2 ltac:(lia)) as Hyb.
  split; lia.
Qed.

Lemma clamp_top_left_val :
  forall sg r r' : Qt.QRect,
    clamp_top_left sg r = Val r' ->
    Qt.left r' = Z.max (Qt.left r) (Qt.left sg) /\
    Qt.top r' = Z.max (Qt.top r) (Qt.top sg) /\
    Qt.width r' = Qt.width r /\
    Qt.height r' = Qt.height r.
Proof.
  intros sg r r'. unfold clamp_top_left, PyQt.moveLeft, PyQt.moveTop.
  destruct (Z.ltb_spec (Qt.left r) (Qt.left sg)) as [Hl | Hl].
  - destruct (PyQt.call Qt.moveLeft (Qt.left sg) r) as [r1 | e] eqn:H1;
      [| discriminate].
    destruct (call_val _ _ _ _ H1) as [-> _]. cbn [exc_bind].
    destruct (Z.ltb_spec (Qt.top (Qt.moveLeft (Qt.left sg) r)) (Qt.top sg))
      as [Ht | Ht].
    + intros H2. destruct (call_val _ _ _ _ H2) as [-> _].
      unfold Qt.left, Qt.top, Qt.width, Qt.height, Qt.moveLeft, Qt.moveTop in *.
      cbn [Qt.x1 Qt.x2 Qt.y1 Qt.y2] in *. repeat split; lia.
    + intros [= <-].
      unfold Qt.left, Qt.top, Qt.width, Qt.height, Qt.moveLeft, Qt.moveTop in *.
      cbn [Qt.x1 Qt.x2 Qt.y1 Qt.y2] in *. repeat split; lia.
  - cbn [exc_bind].
    destruct (Z.ltb_spec (Qt.top r) (Qt.top sg)) as [Ht | Ht].
    + intros H2. destruct (call_val _ _ _ _ H2) as [-> _].
      unfold Qt.left, Qt.top, Qt.width, Qt.height, Qt.moveLeft, Qt.moveTop in *.
      cbn [Qt.x1 Qt.x2 Qt.y1 Qt.y2] in *. repeat split; lia.
    + intros [= <-].
      unfold Qt.left, Qt.top, Qt.width, Qt.height in *. repeat split; lia.
Qed.

Lemma clamp_top_left_ok :
  forall sg r : Qt.QRect,
    int_range (Qt.left sg) -> int_range (Qt.top sg) ->
    exists r' : Qt.QRect, clamp_top_left sg r = Val r'.
Proof.
  intros sg r Hl Ht. unfold clamp_top_left, PyQt.moveLeft, PyQt.moveTop.
  destruct (Qt.left r <? Qt.left sg);
    [rewrite call_ok by assumption |]; cbn [exc_bind];
    match goal with
    | |- context [if ?c then _ else _] => destruct c
    end;
    try rewrite call_ok by assumption; eexists; reflexivity.
Qed.

(** A rectangle is what its top-left corner and its size say. *)
Lemma rect_eq :
  forall (r : Qt.QRect) (l t w h : Z),
    Qt.left r = l -> Qt.top r = t -> Qt.width r = w -> Qt.height r = h ->
    r = Qt.mkQRect l t w h.
Proof.
  intros [a b c d] l t w h. unfold Qt.left, Qt.top, Qt.width, Qt.height,
    Qt.mkQRect. cbn [Qt.x1 Qt.x2 Qt.y1 Qt.y2].
  intros <- <- <- <-. f_equal; lia.
Qed.

(* ------------------------------------------------------------------ *)
(** ** Binary64 arithmetic on moderate magnitudes stays finite

    Bounds on the magnitude of the results of the operations of
    [SpecFloat], enough to show that the float arithmetic of the aspect
    lock neither overflows nor yields a NaN. *)

Lemma digits2_pos_size :
  forall p : positive, digits2_pos p = Pos.size p.
Proof.
  induction p as [p IH | p IH |]; cbn; congruence.
Qed.

Lemma digits2_pos_log2 :
  forall p : positive, Zpos (digits2_pos p) = Z.log2 (Zpos p) + 1.
Proof.
  intros p. rewrite digits2_pos_size.
  destruct p; cbn [Pos.size Z.log2]; rewrite ?Pos2Z.inj_succ; lia.
Qed.

Lemma shr_1_m :
  forall mrs : shr_record,
    0 <= shr_m mrs -> shr_m (shr_1 mrs) = Z.shiftr (shr_m mrs) 1.
Proof.
  intros [m r s] Hm. cbn in Hm. rewrite <- Z.div2_spec.
  destruct m as [| [p | p |] | p]; try reflexivity. lia.
Qed.

Lemma iter_shr_1_m :
  forall (p : positive) (mrs : shr_record),
    0 <= shr_m mrs ->
    shr_m (iter_pos shr_1 p mrs) = Z.shiftr (shr_m mrs) (Zpos p).
Proof.
  induction p as [p IH | p IH |]; intros mrs Hm; cbn [iter_pos].
  - assert (H1 : 0 <= shr_m (shr_1 mrs)).
    { rewrite shr_1_m by assumption. apply Z.shiftr_nonneg. assumption. }
    assert (H2 : 0 <= shr_m (iter_pos shr_1 p (shr_1 mrs))).
    { rewrite IH by assumption. apply Z.shiftr_nonneg. assumption. }
    rewrite IH, IH, shr_1_m by assumption.
    rewrite !Z.shiftr_shiftr by lia. f_equal. lia.
  - assert (H2 : 0 <= shr_m (iter_pos shr_1 p mrs)).
    { rewrite IH by assumption. apply Z.shiftr_nonneg. assumption. }
    rewrite IH, IH by assumption.
    rewrite !Z.shiftr_shiftr by lia. f_equal. lia.
  - apply shr_1_m. assumption.
Qed.

Lemma shr_record_of_loc_m :
  forall (m : Z) (l : location), shr_m (shr_record_of_loc m l) = m.
Proof. intros m [| []]; reflexivity. Qed.

Lemma round_nearest_even_bounds :
  forall (m : Z) (l : location),
    m <= round_nearest_even m l <= m + 1.
Proof.
  intros m [| []]; cbn; try lia. destruct (Z.even m); lia.
Qed.

Lemma fexp_normal :
  forall k : Z, -1021 <= k -> fexp PyFloat.prec PyFloat.emax k = k - 53.
Proof.
  intros k Hk. unfold fexp, emin, PyFloat.prec, PyFloat.emax. lia.
Qed.

Lemma Zdigits2_log2 :
  forall m : Z, 0 < m -> Zdigits2 m = Z.log2 m + 1.
Proof.
  intros [| p | p] Hm; try lia. cbn [Zdigits2]. apply digits2_pos_log2.
Qed.

Lemma shr_fexp_spec :
  forall (m e : Z) (l : location),
    0 < m ->
    -1021 <= Z.log2 m + 1 + e ->
    exists (mrs : shr_record) (e' : Z),
      shr_fexp PyFloat.prec PyFloat.emax m e l = (mrs, e') /\
      0 < shr_m mrs /\
      Z.log2 (shr_m mrs) + e' = Z.log2 m + e /\
      e' = Z.max e (Z.log2 m + e - 52).
Proof.
  intros m e l Hm Hk. unfold shr_fexp.
  rewrite (Zdigits2_log2 m Hm), (fexp_normal _ Hk).
  replace (Z.log2 m + 1 + e - 53 - e) with (Z.log2 m - 52) by lia.
  unfold shr.
  destruct (Z.log2 m - 52) as [| p | p] eqn:Hn.
  - do 2 eexists. split; [reflexivity |].
    rewrite shr_record_of_loc_m. repeat split; lia.
  - do 2 eexists. split; [reflexivity |].
    rewrite iter_shr_1_m by (rewrite shr_record_of_loc_m; lia).
    rewrite shr_record_of_loc_m.
    assert (Hlog : Z.log2 (Z.shiftr m (Zpos p)) = 52).
    { rewrite Z.log2_shiftr by assumption. lia. }
    split.
    { destruct (Z.ltb_spec 0 (Z.shiftr m (Zpos p))) as [H | H]; [exact H |].
      rewrite (Z.log2_nonpos _ H) in Hlog. discriminate Hlog. }
    rewrite Hlog. split; lia.
  - do 2 eexists. split; [reflexivity |].
    rewrite shr_record_of_loc_m. repeat split; lia.
Qed.

Lemma binary_round_aux_mag :
  forall (s : bool) (mz ez : Z) (l : location),
    0 < mz ->
    -1021 <= Z.log2 mz + 1 + ez <= 1000 ->
    ez <= 900 ->
    finite_mag s (Z.log2 mz + 1 + ez) (Z.log2 mz + 1 + ez + 1)
      (binary_round_aux PyFloat.prec PyFloat.emax s mz ez l).
Proof.
  intros s mz ez l Hm Hk He. unfold binary_round_aux.
  destruct (shr_fexp_spec mz ez l Hm ltac:(lia))
    as (mrs1 & e1 & -> & Hm1 & Hmag1 & He1).
  pose proof (round_nearest_even_bounds (shr_m mrs1) (loc_of_shr_record mrs1))
    as Hr.
  set (m1 := round_nearest_even (shr_m mrs1) (loc_of_shr_record mrs1)) in *.
  assert (Hm1' : 0 < m1) by lia.
  assert (Hlo : Z.log2 (shr_m mrs1) <= Z.log2 m1)
    by (apply Z.log2_le_mono; lia).
  assert (Hhi : Z.log2 m1 <= Z.log2 (shr_m mrs1) + 1).
  { transitivity (Z.log2 (Z.succ (shr_m mrs1))).
    - apply Z.log2_le_mono. lia.
    - pose proof (Z.log2_succ_le (shr_m mrs1)). lia. }
  destruct (shr_fexp_spec m1 e1 loc_Exact Hm1' ltac:(lia))
    as (mrs2 & e2 & -> & Hm2 & Hmag2 & He2).
  destruct (shr_m mrs2) as [| m2 | m2] eqn:Hmrs2; try lia.
  assert (Hle : (e2 <=? PyFloat.emax - PyFloat.prec) = true).
  { apply Z.leb_le. unfold PyFloat.emax, PyFloat.prec. lia. }
  rewrite Hle. exists m2, e2. split; [reflexivity | lia].
Qed.

Lemma iter_xO_shiftl :
  forall (m d : positive),
    Zpos (Pos.iter xO m d) = Z.shiftl (Zpos m) (Zpos d).
Proof.
  intros m d. cbn [Z.shiftl].
  induction d as [| d IH] using Pos.peano_ind.
  - reflexivity.
  - rewrite !Pos.iter_succ, <- IH. reflexivity.
Qed.

Lemma shl_align_spec :
  forall (mx : positive) (ex ex' : Z),
    exists (mz : positive),
      shl_align mx ex ex' = (mz, Z.min ex ex') /\
      Z.log2 (Zpos mz) + Z.min ex ex' = Z.log2 (Zpos mx) + ex.
Proof.
  intros mx ex ex'. unfold shl_align.
  destruct (ex' - ex) as [| d | d] eqn:Hd.
  - exists mx. rewrite Z.min_l by lia. split; reflexivity.
  - exists mx. rewrite Z.min_l by lia. split; reflexivity.
  - exists (Pos.iter xO mx d). rewrite Z.min_r by lia.
    split; [reflexivity |].
    rewrite iter_xO_shiftl, Z.log2_shiftl by lia. lia.
Qed.

Lemma binary_round_mag :
  forall (s : bool) (mx : positive) (ex : Z),
    -1021 <= Z.log2 (Zpos mx) + 1 + ex <= 1000 ->
    ex <= 900 ->
    finite_mag s (Z.log2 (Zpos mx) + 1 + ex) (Z.log2 (Zpos mx) + 1 + ex + 1)
      (binary_round PyFloat.prec PyFloat.emax s mx ex).
Proof.
  intros s mx ex Hk He. unfold binary_round.
  destruct (shl_align_spec mx ex
              (fexp PyFloat.prec PyFloat.emax (Zpos (digits2_pos mx) + ex)))
    as (mz & -> & Hmag).
  set (ez := Z.min ex _) in *.
  assert (Hez : ez <= ex) by (unfold ez; lia).
  replace (Z.log2 (Zpos mx) + 1 + ex) with (Z.log2 (Zpos mz) + 1 + ez) by lia.
  apply binary_round_aux_mag; lia.
Qed.

Lemma of_int_mag :
  forall n : Z,
    0 < n -> n < 2 ^ 999 ->
    finite_mag false (Z.log2 n + 1) (Z.log2 n + 2) (PyFloat.of_int n).
Proof.
  intros n Hn Hlt. unfold PyFloat.of_int, binary_normalize.
  destruct n as [| p | p]; try lia.
  assert (Hlog : Z.log2 (Zpos p) < 999) by (apply Z.log2_lt_pow2; lia).
  pose proof (Z.log2_nonneg (Zpos p)).
  pose proof (binary_round_mag false p 0 ltac:(lia) ltac:(lia)) as H0.
  replace (Z.log2 (Zpos p) + 1 + 0) with (Z.log2 (Zpos p) + 1) in H0 by lia.
  replace (Z.log2 (Zpos p) + 1 + 1) with (Z.log2 (Zpos p) + 2) in H0 by lia.
  exact H0.
Qed.

Lemma log2_div_bounds :
  forall a b : Z,
    0 < b -> Z.log2 b + 1 <= Z.log2 a ->
    0 < a / b /\
    Z.log2 a - Z.log2 b - 1 <= Z.log2 (a / b) <= Z.log2 a - Z.log2 b.
Proof.
  intros a b Hb Hab.
  pose proof (Z.log2_nonneg b) as Hlb.
  assert (Ha : 0 < a).
  { destruct (Z.ltb_spec 0 a) as [H | H]; [exact H |].
    rewrite (Z.log2_nonpos a H) in Hab. lia. }
  destruct (Z.log2_spec a Ha) as [Ha1 Ha2].
  destruct (Z.log2_spec b Hb) as [Hb1 Hb2].
  rewrite <- Z.add_1_r in Ha2, Hb2.
  assert (Hlow : 2 ^ (Z.log2 a - Z.log2 b - 1) <= a / b).
  { replace (Z.log2 a - Z.log2 b - 1) with (Z.log2 a - (Z.log2 b + 1)) by lia.
    rewrite Z.pow_sub_r by lia.
    transitivity (2 ^ Z.log2 a / b).
    - apply Z.div_le_compat_l; [apply Z.pow_nonneg; lia | lia].
    - apply Z.div_le_mono; lia. }
  assert (Hpos : 0 < a / b).
  { assert (0 < 2 ^ (Z.log2 a - Z.log2 b - 1)) by (apply Z.pow_pos_nonneg; lia).
    lia. }
  assert (Hup : a / b < 2 ^ (Z.log2 a - Z.log2 b + 1)).
  { apply Z.div_lt_upper_bound; [lia |].
    assert (HP : 0 < 2 ^ (Z.log2 a - Z.log2 b + 1))
      by (apply Z.pow_pos_nonneg; lia).
    assert (Hsplit : 2 ^ (Z.log2 a + 1)
                     = 2 ^ Z.log2 b * 2 ^ (Z.log2 a - Z.log2 b + 1)).
    { rewrite <- Z.pow_add_r by lia. f_equal. lia. }
    assert (Hle : 2 ^ Z.log2 b * 2 ^ (Z.log2 a - Z.log2 b + 1)
                  <= b * 2 ^ (Z.log2 a - Z.log2 b + 1))
      by (apply Z.mul_le_mono_nonneg_r; lia).
    lia. }
  split; [exact Hpos |]. split.
  - apply Z.log2_le_pow2; assumption.
  - assert (Z.log2 (a / b) < Z.log2 a - Z.log2 b + 1)
      by (apply Z.log2_lt_pow2; assumption).
    lia.
Qed.

Lemma div_mag :
  forall (sx sy : bool) (lx hx ly hy : Z) (x y : spec_float),
    finite_mag sx lx hx x ->
    finite_mag sy ly hy y ->
    -1021 <= lx - hy ->
    hx - ly <= 950 ->
    finite_mag (xorb sx sy) (lx - hy) (hx - ly + 2) (PyFloat.div x y).
Proof.
  intros sx sy lx hx ly hy x y (mx & ex & -> & Hx) (my & ey & -> & Hy) Hlo Hhi.
  unfold PyFloat.div, SFdiv, SFdiv_core_binary.
  rewrite !Zdigits2_log2 by lia.
  set (K := Z.log2 (Zpos mx) + 1 + ex - (Z.log2 (Zpos my) + 1 + ey)).
  rewrite (fexp_normal K) by (unfold K; lia).
  set (e' := Z.min (K - 53) (ex - ey)).
  assert (Hs : 0 <= ex - ey - e') by (unfold e'; lia).
  assert (Hm' : match ex - ey - e' with
                | Zpos _ => Z.shiftl (Zpos mx) (ex - ey - e')
                | Z0 => Zpos mx
                | Zneg _ => 0
                end = Z.shiftl (Zpos mx) (ex - ey - e')).
  { destruct (ex - ey - e'); try reflexivity; lia. }
  rewrite Hm'.
  set (m' := Z.shiftl (Zpos mx) (ex - ey - e')).
  assert (Hlm' : Z.log2 m' = Z.log2 (Zpos mx) + (ex - ey - e'))
    by (unfold m'; apply Z.log2_shiftl; lia).
  destruct (Z.div_eucl m' (Zpos my)) as [q r] eqn:Hqr.
  assert (Hq : q = m' / Zpos my) by (unfold Z.div; rewrite Hqr; reflexivity).
  destruct (log2_div_bounds m' (Zpos my) ltac:(lia)
              ltac:(rewrite Hlm'; unfold e', K; lia))
    as (Hqpos & Hqlo & Hqhi).
  rewrite <- Hq in Hqpos, Hqlo, Hqhi.
  pose proof (binary_round_aux_mag (xorb sx sy) q e'
                (new_location (Zpos my) r) Hqpos) as Hround.
  assert (Hmag : K <= Z.log2 q + 1 + e' <= K + 1).
  { rewrite Hlm' in Hqlo, Hqhi. unfold K. lia. }
  destruct Hround as (m & e & Heq & Hme).
  - unfold K in Hmag. lia.
  - unfold e', K. lia.
  - exists m, e. split; [exact Heq |]. unfold K in Hmag. lia.
Qed.

Lemma mul_mag :
  forall (sx sy : bool) (lx hx ly hy : Z) (x y : spec_float),
    finite_mag sx lx hx x ->
    finite_mag sy ly hy y ->
    -1021 <= lx + ly - 1 ->
    hx + hy <= 900 ->
    finite_mag (xorb sx sy) (lx + ly - 1) (hx + hy + 1) (PyFloat.mul x y).
Proof.
  intros sx sy lx hx ly hy x y (mx & ex & -> & Hx) (my & ey & -> & Hy) Hlo Hhi.
  unfold PyFloat.mul, SFmul.
  pose proof (Z.log2_mul_below (Zpos mx) (Zpos my) ltac:(lia) ltac:(lia)) as Hb.
  pose proof (Z.log2_mul_above (Zpos mx) (Zpos my) ltac:(lia) ltac:(lia)) as Ha.
  pose proof (Z.log2_nonneg (Zpos mx)). pose proof (Z.log2_nonneg (Zpos my)).
  change (Zpos mx * Zpos my) with (Zpos (mx * my)) in Hb, Ha.
  destruct (binary_round_aux_mag (xorb sx sy) (Zpos (mx * my)) (ex + ey)
              loc_Exact ltac:(lia) ltac:(lia) ltac:(lia))
    as (m & e & Heq & Hme).
  exists m, e. split; [exact Heq | lia].
Qed.

Lemma add_mag :
  forall (lx hx ly hy : Z) (x y : spec_float),
    finite_mag false lx hx x ->
    finite_mag false ly hy y ->
    -1021 <= Z.max lx ly ->
    Z.max hx hy <= 900 ->
    finite_mag false (Z.max lx ly) (Z.max hx hy + 2) (PyFloat.add x y).
Proof.
  intros lx hx ly hy x y (mx & ex & -> & Hx) (my & ey & -> & Hy) Hlo Hhi.
  unfold PyFloat.add, SFadd.
  destruct (shl_align_spec mx ex (Z.min ex ey)) as (ax & -> & Hax).
  destruct (shl_align_spec my ey (Z.min ex ey)) as (ay & -> & Hay).
  cbn [fst cond_Zopp].
  replace (Z.min ex (Z.min ex ey)) with (Z.min ex ey) in Hax by lia.
  replace (Z.min ey (Z.min ex ey)) with (Z.min ex ey) in Hay by lia.
  change (Zpos ax + Zpos ay) with (Zpos (ax + ay)).
  cbn [binary_normalize].
  assert (Hlo1 : Z.log2 (Zpos ax) <= Z.log2 (Zpos (ax + ay)))
    by (apply Z.log2_le_mono; lia).
  assert (Hlo2 : Z.log2 (Zpos ay) <= Z.log2 (Zpos (ax + ay)))
    by (apply Z.log2_le_mono; lia).
  assert (Hup : Z.log2 (Zpos (ax + ay))
                <= Z.max (Z.log2 (Zpos ax)) (Z.log2 (Zpos ay)) + 1).
  { destruct (Z.le_ge_cases (Zpos ax) (Zpos ay)) as [Hc | Hc].
    - transitivity (Z.log2 (2 * Zpos ay)).
      + apply Z.log2_le_mono. lia.
      + rewrite Z.log2_double by lia. lia.
    - transitivity (Z.log2 (2 * Zpos ax)).
      + apply Z.log2_le_mono. lia.
      + rewrite Z.log2_double by lia. lia. }
  pose proof (Z.log2_nonneg (Zpos mx)). pose proof (Z.log2_nonneg (Zpos my)).
  destruct (binary_round_mag false (ax + ay) (Z.min ex ey)
              ltac:(lia) ltac:(lia))
    as (m & e & Heq & Hme).
  exists m, e. split; [exact Heq | lia].
Qed.

Lemma to_int_finite :
  forall (s : bool) (lo hi : Z) (f : spec_float),
    finite_mag s lo hi f -> exists z : Z, PyFloat.to_int f = Val z.
Proof.
  intros s lo hi f (m & e & -> & _). cbn. eexists. reflexivity.
Qed.

Lemma finite_mag_weaken :
  forall (s : bool) (lo hi lo' hi' : Z) (f : spec_float),
    finite_mag s lo hi f -> lo' <= lo -> hi <= hi' -> finite_mag s lo' hi' f.
Proof.
  intros s lo hi lo' hi' f (m & e & Heq & Hme) Hlo Hhi.
  exists m, e. split; [exact Heq | lia].
Qed.

Lemma of_int_mag_below :
  forall (n k : Z),
    0 < n -> n < 2 ^ k -> 0 < k <= 900 ->
    finite_mag false 1 (k + 1) (PyFloat.of_int n).
Proof.
  intros n k Hn Hlt Hk.
  assert (Hlog : Z.log2 n < k) by (apply Z.log2_lt_pow2; lia).
  pose proof (Z.log2_nonneg n).
  apply (finite_mag_weaken false (Z.log2 n + 1) (Z.log2 n + 2)); try lia.
  apply of_int_mag; [lia |].
  apply Z.lt_le_trans with (2 ^ k); [exact Hlt |].
  apply Z.pow_le_mono_r; lia.
Qed.

(* ------------------------------------------------------------------ *)
(** ** Binary64 results bounded from above *)

Lemma Zdigits2_nonneg : forall m : Z, 0 <= Zdigits2 m.
Proof. intros [| p | p]; cbn; lia. Qed.

Lemma Zdigits2_le_mono :
  forall a b : Z, 0 <= a <= b -> Zdigits2 a <= Zdigits2 b.
Proof.
  intros a b [Ha Hab].
  destruct (Z.eq_dec a 0) as [-> | Hne]; [apply Zdigits2_nonneg |].
  rewrite !Zdigits2_log2 by lia.
  pose proof (Z.log2_le_mono a b Hab). lia.
Qed.

Lemma Zdigits2_succ :
  forall a : Z, 0 <= a -> Zdigits2 (a + 1) <= Zdigits2 a + 1.
Proof.
  intros a Ha.
  destruct (Z.eq_dec a 0) as [-> | Hne]; [cbn; lia |].
  rewrite !Zdigits2_log2 by lia.
  pose proof (Z.log2_succ_le a). unfold Z.succ in *. lia.
Qed.

Lemma Zdigits2_shiftr :
  forall (m : Z) (p : positive),
    0 <= m -> Zdigits2 (Z.shiftr m (Zpos p)) <= Z.max 0 (Zdigits2 m - Zpos p).
Proof.
  intros m p Hm.
  assert (Hs : 0 <= Z.shiftr m (Zpos p)) by (apply Z.shiftr_nonneg; exact Hm).
  destruct (Z.eq_dec (Z.shiftr m (Zpos p)) 0) as [-> | Hne]; [cbn; lia |].
  assert (Hpos : 0 < m).
  { destruct (Z.eq_dec m 0) as [-> | ]; [| lia].
    rewrite Z.shiftr_0_l in Hne. contradiction. }
  rewrite !Zdigits2_log2 by lia.
  rewrite Z.log2_shiftr by lia.
  destruct (Z.le_gt_cases (Zpos p) (Z.log2 m)) as [Hc | Hc]; [lia |].
  exfalso. apply Hne. apply Z.shiftr_eq_0; [lia | lia].
Qed.

Lemma fexp_bounds :
  forall k : Z,
    -1074 <= fexp PyFloat.prec PyFloat.emax k /\
    fexp PyFloat.prec PyFloat.emax k <= Z.max (k - 53) (-1074).
Proof.
  intros k. unfold fexp, emin, PyFloat.prec, PyFloat.emax. lia.
Qed.

Lemma shr_fexp_below :
  forall (m e : Z) (l : location),
    0 <= m ->
    exists (mrs : shr_record) (e' : Z),
      shr_fexp PyFloat.prec PyFloat.emax m e l = (mrs, e') /\
      0 <= shr_m mrs /\
      Zdigits2 (shr_m mrs) + e' <= Z.max (Zdigits2 m + e) (-1074) /\
      e' <= Z.max e (Z.max (Zdigits2 m + e - 53) (-1074)).
Proof.
  intros m e l Hm. unfold shr_fexp, shr.
  destruct (fexp_bounds (Zdigits2 m + e)) as [Hf1 Hf2].
  set (f := fexp PyFloat.prec PyFloat.emax (Zdigits2 m + e)) in *.
  pose proof (Zdigits2_nonneg m) as Hd.
  destruct (f - e) as [| p | p] eqn:Hn.
  - do 2 eexists. split; [reflexivity |].
    rewrite shr_record_of_loc_m. repeat split; lia.
  - do 2 eexists. split; [reflexivity |].
    rewrite iter_shr_1_m by (rewrite shr_record_of_loc_m; lia).
    rewrite shr_record_of_loc_m.
    pose proof (Zdigits2_shiftr m p Hm) as Hs.
    split; [apply Z.shiftr_nonneg; exact Hm |]. split; lia.
  - do 2 eexists. split; [reflexivity |].
    rewrite shr_record_of_loc_m. repeat split; lia.
Qed.

Lemma binary_round_aux_below :
  forall (s : bool) (mz ez : Z) (l : location) (K : Z),
    0 <= mz ->
    Zdigits2 mz + ez <= K ->
    -1074 <= K <= 1000 ->
    ez <= 900 ->
    float_below (K + 1) (binary_round_aux PyFloat.prec PyFloat.emax s mz ez l).
Proof.
  intros s mz ez l K Hm HK HKr He. unfold binary_round_aux.
  destruct (shr_fexp_below mz ez l Hm) as (mrs1 & e1 & -> & Hm1 & Hmag1 & He1).
  pose proof (round_nearest_even_bounds (shr_m mrs1) (loc_of_shr_record mrs1))
    as Hr.
  set (m1 := round_nearest_even (shr_m mrs1) (loc_of_shr_record mrs1)) in *.
  assert (Hm1' : 0 <= m1) by lia.
  assert (Hd1 : Zdigits2 m1 <= Zdigits2 (shr_m mrs1) + 1).
  { transitivity (Zdigits2 (shr_m mrs1 + 1)).
    - apply Zdigits2_le_mono. lia.
    - apply Zdigits2_succ. exact Hm1. }
  destruct (shr_fexp_below m1 e1 loc_Exact Hm1')
    as (mrs2 & e2 & -> & Hm2 & Hmag2 & He2).
  pose proof (Zdigits2_nonneg mz).
  destruct (shr_m mrs2) as [| m2 | m2] eqn:Hmrs2; [exact I | | lia].
  assert (Hle : (e2 <=? PyFloat.emax - PyFloat.prec) = true).
  { apply Z.leb_le. unfold PyFloat.emax, PyFloat.prec. lia. }
  rewrite Hle. cbn [float_below].
  rewrite (Zdigits2_log2 (Zpos m2)) in Hmag2 by lia. lia.
Qed.

Lemma binary_round_below :
  forall (s : bool) (mx : positive) (ex K : Z),
    Z.log2 (Zpos mx) + 1 + ex <= K ->
    -1074 <= K <= 1000 ->
    ex <= 900 ->
    float_below (K + 1) (binary_round PyFloat.prec PyFloat.emax s mx ex).
Proof.
  intros s mx ex K HK HKr He. unfold binary_round.
  destruct (shl_align_spec mx ex
              (fexp PyFloat.prec PyFloat.emax (Zpos (digits2_pos mx) + ex)))
    as (mz & -> & Hmag).
  set (ez := Z.min ex _) in *.
  apply binary_round_aux_below; try lia.
  rewrite Zdigits2_log2 by lia. lia.
Qed.

Lemma binary_normalize_below :
  forall (z ez K : Z),
    Zdigits2 z + ez <= K ->
    -1074 <= K <= 1000 ->
    ez <= 900 ->
    float_below (K + 1) (binary_normalize PyFloat.prec PyFloat.emax z ez false).
Proof.
  intros z ez K HK HKr He. unfold binary_normalize.
  destruct z as [| p | p]; [exact I | |];
    apply binary_round_below; try lia;
    cbn [Zdigits2] in HK; rewrite digits2_pos_log2 in HK; lia.
Qed.

Lemma of_int_below :
  forall (n k : Z),
    Z.abs n < 2 ^ k -> 0 <= k <= 999 ->
    float_below (k + 1) (PyFloat.of_int n).
Proof.
  intros n k Hn Hk. unfold PyFloat.of_int.
  apply binary_normalize_below; try lia.
  destruct n as [| p | p]; cbn [Zdigits2]; try lia;
    rewrite digits2_pos_log2;
    assert (Z.log2 (Zpos p) < k) by (apply Z.log2_lt_pow2; lia); lia.
Qed.

Lemma finite_mag_below :
  forall (s : bool) (lo hi : Z) (f : spec_float),
    finite_mag s lo hi f -> float_below hi f.
Proof.
  intros s lo hi f (m & e & -> & H). cbn [float_below]. lia.
Qed.

Lemma float_below_weaken :
  forall (hi hi' : Z) (f : spec_float),
    float_below hi f -> hi <= hi' -> float_below hi' f.
Proof.
  intros hi hi' [sg | sg | | sg m e] H Hle; cbn [float_below] in *; try assumption. lia.
Qed.

Lemma Zdigits2_add :
  forall a b : Z,
    Zdigits2 (a + b) <= Z.max (Zdigits2 a) (Zdigits2 b) + 1.
Proof.
  intros a b.
  assert (Habs : forall z, Zdigits2 z = Zdigits2 (Z.abs z))
    by (intros [| p | p]; reflexivity).
  rewrite (Habs (a + b)), (Habs a), (Habs b).
  pose proof (Z.abs_triangle a b) as Ht.
  pose proof (Z.abs_nonneg a). pose proof (Z.abs_nonneg b).
  pose proof (Z.abs_nonneg (a + b)).
  transitivity (Zdigits2 (2 * Z.max (Z.abs a) (Z.abs b))).
  - apply Zdigits2_le_mono. lia.
  - destruct (Z.eq_dec (Z.max (Z.abs a) (Z.abs b)) 0) as [Hz | Hnz].
    + rewrite Hz. change (Zdigits2 (2 * 0)) with 0.
      pose proof (Zdigits2_nonneg (Z.abs a)). lia.
    + rewrite (Zdigits2_log2 (2 * Z.max (Z.abs a) (Z.abs b))) by lia.
      rewrite Z.log2_double by lia.
      pose proof (Zdigits2_nonneg (Z.abs a)).
      pose proof (Zdigits2_nonneg (Z.abs b)).
      destruct (Z.max_spec (Z.abs a) (Z.abs b)) as [[Hc Hm] | [Hc Hm]];
        rewrite Hm in *.
      * rewrite (Zdigits2_log2 (Z.abs b)) by lia. lia.
      * rewrite (Zdigits2_log2 (Z.abs a)) by lia. lia.
Qed.

Lemma Zdigits2_opp : forall z : Z, Zdigits2 (- z) = Zdigits2 z.
Proof. intros [| p | p]; reflexivity. Qed.

Lemma Zdigits2_cond_Zopp :
  forall (b : bool) (z : Z), Zdigits2 (cond_Zopp b z) = Zdigits2 z.
Proof. intros [] z; cbn [cond_Zopp]; [apply Zdigits2_opp | reflexivity]. Qed.

Lemma aligned_sum_below :
  forall (sx sy : bool) (mx my : positive) (ex ey hx hy : Z) (minus : bool),
    Z.log2 (Zpos mx) + 1 + ex <= hx ->
    Z.log2 (Zpos my) + 1 + ey <= hy ->
    -1074 <= Z.max hx hy -> Z.max hx hy <= 900 ->
    let ez := Z.min ex ey in
    let a := cond_Zopp sx (Zpos (fst (shl_align mx ex ez))) in
    let b := cond_Zopp sy (Zpos (fst (shl_align my ey ez))) in
    float_below (Z.max hx hy + 2)
      (binary_normalize PyFloat.prec PyFloat.emax
         (if minus then a - b else a + b) ez false).
Proof.
  intros sx sy mx my ex ey hx hy minus Hx Hy Hlo Hhi ez a b.
  destruct (shl_align_spec mx ex ez) as (ax & Hax & Hmx).
  destruct (shl_align_spec my ey ez) as (ay & Hay & Hmy).
  unfold a, b. rewrite Hax, Hay. cbn [fst].
  replace (Z.min ex ez) with ez in Hmx by (unfold ez; lia).
  replace (Z.min ey ez) with ez in Hmy by (unfold ez; lia).
  pose proof (Z.log2_nonneg (Zpos mx)). pose proof (Z.log2_nonneg (Zpos my)).
  assert (Hda : Zdigits2 (cond_Zopp sx (Zpos ax)) + ez <= hx).
  { rewrite Zdigits2_cond_Zopp, Zdigits2_log2 by lia. lia. }
  assert (Hdb : Zdigits2 (cond_Zopp sy (Zpos ay)) + ez <= hy).
  { rewrite Zdigits2_cond_Zopp, Zdigits2_log2 by lia. lia. }
  replace (Z.max hx hy + 2) with (Z.max hx hy + 1 + 1) by lia.
  apply binary_normalize_below; [| lia | unfold ez; lia].
  destruct minus.
  - pose proof (Zdigits2_add (cond_Zopp sx (Zpos ax))
                  (- cond_Zopp sy (Zpos ay))) as Hs.
    rewrite Zdigits2_opp in Hs.
    replace (cond_Zopp sx (Zpos ax) + - cond_Zopp sy (Zpos ay))
      with (cond_Zopp sx (Zpos ax) - cond_Zopp sy (Zpos ay)) in Hs by lia.
    lia.
  - pose proof (Zdigits2_add (cond_Zopp sx (Zpos ax))
                  (cond_Zopp sy (Zpos ay))) as Hs.
    lia.
Qed.

Lemma add_below :
  forall (hx hy : Z) (x y : spec_float),
    float_below hx x -> float_below hy y ->
    -1074 <= Z.max hx hy -> Z.max hx hy <= 900 ->
    float_below (Z.max hx hy + 2) (PyFloat.add x y).
Proof.
  intros hx hy x y Hx Hy Hlo Hhi. unfold PyFloat.add, SFadd.
  destruct x as [sx | sx | | sx mx ex]; try contradiction;
    destruct y as [sy | sy | | sy my ey]; try contradiction;
    cbn [float_below] in *.
  - destruct sx, sy; exact I.
  - lia.
  - lia.
  - exact (aligned_sum_below sx sy mx my ex ey hx hy false Hx Hy Hlo Hhi).
Qed.

Lemma sub_below :
  forall (hx hy : Z) (x y : spec_float),
    float_below hx x -> float_below hy y ->
    -1074 <= Z.max hx hy -> Z.max hx hy <= 900 ->
    float_below (Z.max hx hy + 2) (PyFloat.sub x y).
Proof.
  intros hx hy x y Hx Hy Hlo Hhi. unfold PyFloat.sub, SFsub.
  destruct x as [sx | sx | | sx mx ex]; try contradiction;
    destruct y as [sy | sy | | sy my ey]; try contradiction;
    cbn [float_below] in *.
  - destruct sx, sy; exact I.
  - lia.
  - lia.
  - exact (aligned_sum_below sx sy mx my ex ey hx hy true Hx Hy Hlo Hhi).
Qed.

Lemma mul_below :
  forall (hx hy : Z) (x y : spec_float),
    float_below hx x -> float_below hy y ->
    -1074 <= hx + hy -> hx + hy <= 900 ->
    float_below (hx + hy + 1) (PyFloat.mul x y).
Proof.
  intros hx hy x y Hx Hy Hlo Hhi. unfold PyFloat.mul, SFmul.
  destruct x as [sx | sx | | sx mx ex]; try contradiction;
    destruct y as [sy | sy | | sy my ey]; try contradiction;
    cbn [float_below] in *; try exact I.
  pose proof (Z.log2_mul_above (Zpos mx) (Zpos my) ltac:(lia) ltac:(lia)) as Ha.
  pose proof (Z.log2_nonneg (Zpos mx)). pose proof (Z.log2_nonneg (Zpos my)).
  change (Zpos mx * Zpos my) with (Zpos (mx * my)) in Ha.
  apply binary_round_aux_below; try lia.
  rewrite Zdigits2_log2 by lia. lia.
Qed.

Lemma div_below :
  forall (sy : bool) (hx ly hy : Z) (x y : spec_float),
    float_below hx x ->
    finite_mag sy ly hy y ->
    -1074 <= hx - ly -> hx - ly <= 950 ->
    float_below (hx - ly + 2) (PyFloat.div x y).
Proof.
  intros sy hx ly hy x y Hx (my & ey & -> & Hy) Hlo Hhi.
  unfold PyFloat.div, SFdiv.
  destruct x as [sx | sx | | sx mx ex]; try contradiction;
    cbn [float_below] in *; [exact I |].
  unfold SFdiv_core_binary.
  rewrite !Zdigits2_log2 by lia.
  set (K := Z.log2 (Zpos mx) + 1 + ex - (Z.log2 (Zpos my) + 1 + ey)).
  destruct (fexp_bounds K) as [Hf1 Hf2].
  set (e' := Z.min (fexp PyFloat.prec PyFloat.emax K) (ex - ey)).
  assert (Hs : 0 <= ex - ey - e') by (unfold e'; lia).
  assert (Hm' : match ex - ey - e' with
                | Zpos _ => Z.shiftl (Zpos mx) (ex - ey - e')
                | Z0 => Zpos mx
                | Zneg _ => 0
                end = Z.shiftl (Zpos mx) (ex - ey - e')).
  { destruct (ex - ey - e'); try reflexivity; lia. }
  rewrite Hm'.
  set (m' := Z.shiftl (Zpos mx) (ex - ey - e')).
  assert (Hlm' : Z.log2 m' = Z.log2 (Zpos mx) + (ex - ey - e'))
    by (unfold m'; apply Z.log2_shiftl; lia).
  assert (Hm'pos : 0 < m').
  { unfold m'. rewrite Z.shiftl_mul_pow2 by lia.
    apply Z.mul_pos_pos; [lia | apply Z.pow_pos_nonneg; lia]. }
  destruct (Z.div_eucl m' (Zpos my)) as [q r] eqn:Hqr.
  assert (Hq : q = m' / Zpos my) by (unfold Z.div; rewrite Hqr; reflexivity).
  assert (Hq0 : 0 <= q) by (rewrite Hq; apply Z.div_pos; lia).
  assert (Hdq : Zdigits2 q + e' <= Z.max (K + 1) (-1074)).
  { destruct (Z.eq_dec q 0) as [-> | Hne].
    - cbn [Zdigits2]. unfold e'. lia.
    - rewrite Zdigits2_log2 by lia.
      assert (Hmul : q * Zpos my <= m').
      { rewrite Hq, Z.mul_comm. apply Z.mul_div_le. lia. }
      pose proof (Z.log2_mul_below q (Zpos my) ltac:(lia) ltac:(lia)) as Hb.
      pose proof (Z.log2_le_mono _ _ Hmul) as Hle.
      unfold K. lia. }
  replace (hx - ly + 2) with (hx - ly + 1 + 1) by lia.
  unfold K in Hdq, Hf2.
  apply binary_round_aux_below; try lia. unfold e', K. lia.
Qed.

Lemma to_int_below :
  forall (hi : Z) (f : spec_float),
    float_below hi f -> exists z : Z, PyFloat.to_int f = Val z.
Proof.
  intros hi [sg | sg | | sg m e] H; try contradiction; cbn [PyFloat.to_int];
    eexists; reflexivity.
Qed.

Lemma one_mag : finite_mag false 1 1 PyFloat.one.
Proof.
  exists 4503599627370496%positive, (-52). split; [reflexivity |].
  vm_compute. split; discriminate.
Qed.

Lemma lit_0_85_below : float_below 0 PyFloat.lit_0_85.
Proof. vm_compute. discriminate. Qed.


(* ------------------------------------------------------------------ *)
(** ** Integer part and canonical form of the results *)

Lemma to_int_bound :
  forall (hi : Z) (f : spec_float),
    0 <= hi -> float_below hi f ->
    exists z : Z, PyFloat.to_int f = Val z /\ Z.abs z < 2 ^ hi.
Proof.
  intros hi [sg | sg | | sg m e] Hhi H; try contradiction;
    cbn [PyFloat.to_int float_below] in *.
  - exists 0. split; [reflexivity |]. cbn [Z.abs].
    apply Z.pow_pos_nonneg; lia.
  - eexists. split; [reflexivity |].
    pose proof (Z.log2_nonneg (Zpos m)) as Hl.
    destruct (Z.log2_spec (Zpos m) ltac:(lia)) as [_ Hm].
    rewrite <- Z.add_1_r in Hm.
    assert (Hmag : match e with
                   | Zneg p => Z.shiftr (Zpos m) (Zpos p)
                   | _ => Z.shiftl (Zpos m) e
                   end < 2 ^ hi
                   /\ 0 <= match e with
                           | Zneg p => Z.shiftr (Zpos m) (Zpos p)
                           | _ => Z.shiftl (Zpos m) e
                           end).
    { destruct e as [| p | p].
      - rewrite Z.shiftl_0_r. split; [| lia].
        apply Z.lt_le_trans with (2 ^ (Z.log2 (Zpos m) + 1)); [exact Hm |].
        apply Z.pow_le_mono_r; lia.
      - rewrite Z.shiftl_mul_pow2 by lia. split.
        + apply Z.lt_le_trans
            with (2 ^ (Z.log2 (Zpos m) + 1) * 2 ^ Zpos p).
          * apply Z.mul_lt_mono_pos_r; [apply Z.pow_pos_nonneg; lia | exact Hm].
          * rewrite <- Z.pow_add_r by lia. apply Z.pow_le_mono_r; lia.
        + apply Z.mul_nonneg_nonneg; [lia | apply Z.pow_nonneg; lia].
      - rewrite Z.shiftr_div_pow2 by lia. split.
        + apply Z.div_lt_upper_bound; [apply Z.pow_pos_nonneg; lia |].
          apply Z.lt_le_trans with (2 ^ (Z.log2 (Zpos m) + 1)); [exact Hm |].
          rewrite <- Z.pow_add_r by lia. apply Z.pow_le_mono_r; lia.
        + apply Z.div_pos; [lia | apply Z.pow_pos_nonneg; lia]. }
    destruct Hmag as [Hlt Hge]. destruct sg; lia.
Qed.

Lemma binary_round_aux_canon :
  forall (s : bool) (mz ez : Z) (l : location),
    0 < mz ->
    -1021 <= Z.log2 mz + 1 + ez <= 1000 ->
    ez <= 900 ->
    exists (m : positive) (e : Z),
      binary_round_aux PyFloat.prec PyFloat.emax s mz ez l
      = S754_finite s m e /\
      Z.log2 (Zpos m) <= 52.
Proof.
  intros s mz ez l Hm Hk He. unfold binary_round_aux.
  destruct (shr_fexp_spec mz ez l Hm ltac:(lia))
    as (mrs1 & e1 & -> & Hm1 & Hmag1 & He1).
  pose proof (round_nearest_even_bounds (shr_m mrs1) (loc_of_shr_record mrs1))
    as Hr.
  set (m1 := round_nearest_even (shr_m mrs1) (loc_of_shr_record mrs1)) in *.
  assert (Hm1' : 0 < m1) by lia.
  assert (Hlo : Z.log2 (shr_m mrs1) <= Z.log2 m1)
    by (apply Z.log2_le_mono; lia).
  assert (Hhi : Z.log2 m1 <= Z.log2 (shr_m mrs1) + 1).
  { transitivity (Z.log2 (Z.succ (shr_m mrs1))).
    - apply Z.log2_le_mono. lia.
    - pose proof (Z.log2_succ_le (shr_m mrs1)). lia. }
  destruct (shr_fexp_spec m1 e1 loc_Exact Hm1' ltac:(lia))
    as (mrs2 & e2 & -> & Hm2 & Hmag2 & He2).
  destruct (shr_m mrs2) as [| m2 | m2] eqn:Hmrs2; try lia.
  assert (Hle : (e2 <=? PyFloat.emax - PyFloat.prec) = true).
  { apply Z.leb_le. unfold PyFloat.emax, PyFloat.prec. lia. }
  rewrite Hle. exists m2, e2. split; [reflexivity | lia].
Qed.

Lemma div_canonical :
  forall (lx hx ly hy : Z) (x y : spec_float),
    finite_mag false lx hx x ->
    finite_mag false ly hy y ->
    -1021 <= lx - hy ->
    hx - ly <= 950 ->
    canonical_pos (PyFloat.div x y).
Proof.
  intros lx hx ly hy x y (mx & ex & -> & Hx) (my & ey & -> & Hy) Hlo Hhi.
  unfold PyFloat.div, SFdiv, SFdiv_core_binary.
  rewrite !Zdigits2_log2 by lia.
  set (K := Z.log2 (Zpos mx) + 1 + ex - (Z.log2 (Zpos my) + 1 + ey)).
  rewrite (fexp_normal K) by (unfold K; lia).
  set (e' := Z.min (K - 53) (ex - ey)).
  assert (Hs : 0 <= ex - ey - e') by (unfold e'; lia).
  assert (Hm' : match ex - ey - e' with
                | Zpos _ => Z.shiftl (Zpos mx) (ex - ey - e')
                | Z0 => Zpos mx
                | Zneg _ => 0
                end = Z.shiftl (Zpos mx) (ex - ey - e')).
  { destruct (ex - ey - e'); try reflexivity; lia. }
  rewrite Hm'.
  set (m' := Z.shiftl (Zpos mx) (ex - ey - e')).
  assert (Hlm' : Z.log2 m' = Z.log2 (Zpos mx) + (ex - ey - e'))
    by (unfold m'; apply Z.log2_shiftl; lia).
  destruct (Z.div_eucl m' (Zpos my)) as [q r] eqn:Hqr.
  assert (Hq : q = m' / Zpos my) by (unfold Z.div; rewrite Hqr; reflexivity).
  destruct (log2_div_bounds m' (Zpos my) ltac:(lia)
              ltac:(rewrite Hlm'; unfold e', K; lia))
    as (Hqpos & Hqlo & Hqhi).
  rewrite <- Hq in Hqpos, Hqlo, Hqhi.
  assert (Hmag : K <= Z.log2 q + 1 + e' <= K + 1).
  { rewrite Hlm' in Hqlo, Hqhi. unfold K. lia. }
  destruct (binary_round_aux_canon (xorb false false) q e'
              (new_location (Zpos my) r) Hqpos) as (m & e & -> & Hme).
  - unfold K in Hmag. lia.
  - unfold e', K. lia.
  - exact Hme.
Qed.

(** The quotient of a size by a positive size. *)
Lemma truediv_sizes_canonical :
  forall a b : Z,
    0 <= a < 2 ^ 40 -> 0 < b < 2 ^ 40 ->
    exists q : PyFloat.float,
      PyFloat.truediv_int_int a b = Val q /\ canonical_pos q.
Proof.
  intros a b Ha Hb. unfold PyFloat.truediv_int_int.
  destruct (Z.eqb_spec b 0) as [Hz | _]; [lia |].
  eexists. split; [reflexivity |].
  destruct (Z.eq_dec a 0) as [-> | Hne].
  - pose proof (of_int_mag_below b 40 ltac:(lia) ltac:(lia) ltac:(lia))
      as (mb & eb & -> & _).
    reflexivity.
  - apply (div_canonical 1 41 1 41); try lia;
      apply (of_int_mag_below _ 40); lia.
Qed.

Lemma one_bits : PyFloat.one = S754_finite false 4503599627370496 (-52).
Proof. vm_compute. reflexivity. Qed.

(** [min(a, b, 1.0)] of two such quotients is at most one. *)
Lemma min3_one_below :
  forall a b : PyFloat.float,
    canonical_pos a -> canonical_pos b ->
    float_below 1 (PyFloat.min3 a b PyFloat.one).
Proof.
  intros a b Ha Hb. unfold PyFloat.min3.
  set (m := if PyFloat.ltb b a then b else a).
  assert (Hm : canonical_pos m) by (unfold m; destruct (PyFloat.ltb b a); assumption).
  clearbody m. clear Ha Hb a b.
  rewrite one_bits. unfold PyFloat.ltb, SFltb.
  destruct m as [sg | sg | | sg mm em]; try contradiction.
  - cbn. exact I.
  - destruct sg; [contradiction |]. cbn [canonical_pos] in Hm.
    cbn [SFcompare].
    destruct (Z.compare_spec (-52) em) as [He | He | He].
    + subst em.
      destruct (Pos.compare_cont Eq 4503599627370496 mm) eqn:Hc.
      * cbn [float_below]. lia.
      * cbn. lia.
      * cbn [float_below]. lia.
    + cbn. lia.
    + cbn [float_below]. lia.
Qed.

(* ------------------------------------------------------------------ *)
(** ** The arithmetic of the aspect lock stays inside the [int] range *)

Lemma ratio_3_2_in_range : ratio_in_range Scenario.ratio_3_2.
Proof.
  exists 6755399441055744%positive, (-52). split; [reflexivity |].
  vm_compute. split; discriminate.
Qed.

(** The ratio of an image that is no more than 32 times as wide as high,
    or as high as wide. *)
Lemma image_ratio_in_range :
  forall w h : Z,
    image_in_range w h ->
    exists r : PyFloat.float,
      PyFloat.truediv_int_int w h = Val r /\ ratio_in_range r.
Proof.
  intros w h (Hw & Hh & Hwh & Hhw). unfold PyFloat.truediv_int_int.
  destruct (Z.eqb_spec h 0) as [Hz | _]; [lia |].
  eexists. split; [reflexivity |].
  pose proof (Z.log2_nonneg w) as Hlw. pose proof (Z.log2_nonneg h) as Hlh.
  assert (H1 : Z.log2 w <= Z.log2 h + 5).
  { transitivity (Z.log2 (h * 2 ^ 5)).
    - apply Z.log2_le_mono. lia.
    - rewrite Z.log2_mul_pow2 by lia. lia. }
  assert (H2 : Z.log2 h <= Z.log2 w + 5).
  { transitivity (Z.log2 (w * 2 ^ 5)).
    - apply Z.log2_le_mono. lia.
    - rewrite Z.log2_mul_pow2 by lia. lia. }
  assert (Hbw : w < 2 ^ 999).
  { apply Z.lt_le_trans with (2 ^ 24); [lia |]. apply Z.pow_le_mono_r; lia. }
  assert (Hbh : h < 2 ^ 999).
  { apply Z.lt_le_trans with (2 ^ 24); [lia |]. apply Z.pow_le_mono_r; lia. }
  assert (Hl24w : Z.log2 w < 24) by (apply Z.log2_lt_pow2; lia).
  assert (Hl24h : Z.log2 h < 24) by (apply Z.log2_lt_pow2; lia).
  apply (finite_mag_weaken false
           (Z.log2 w + 1 - (Z.log2 h + 2)) (Z.log2 w + 2 - (Z.log2 h + 1) + 2));
    try lia.
  apply (div_mag false false (Z.log2 w + 1) (Z.log2 w + 2)
                 (Z.log2 h + 1) (Z.log2 h + 2));
    try lia; apply of_int_mag; lia.
Qed.

Lemma height_from_width_range :
  forall (w : Z) (r : PyFloat.float),
    ratio_in_range r -> w < 2 ^ 17 ->
    exists new_h : Z,
      height_from_width w r = Val new_h /\ Z.abs new_h < 2 ^ 29.
Proof.
  intros w r Hr Hw. unfold height_from_width.
  set (cw := if w - resize_extra_w <? 1 then 1 else w - resize_extra_w).
  assert (Hcw : 0 < cw < 2 ^ 17).
  { unfold cw, resize_extra_w. destruct (Z.ltb_spec (w - 18) 1); lia. }
  unfold PyFloat.truediv_int_float.
  assert (Hnz : PyFloat.is_zero r = false)
    by (destruct Hr as (m & e & -> & _); reflexivity).
  rewrite Hnz. cbn [exc_bind].
  apply (to_int_bound 29); [lia |].
  apply (float_below_weaken (Z.max 27 8 + 2)); [| lia].
  apply add_below; try lia.
  - apply (float_below_weaken (18 - (-7) + 2)); [| lia].
    apply (div_below false 18 (-7) 8); try lia; try exact Hr.
    apply (finite_mag_below false 1).
    apply (of_int_mag_below cw 17); lia.
  - apply (of_int_below resize_extra_h 7); unfold resize_extra_h; lia.
Qed.

Lemma width_from_height_range :
  forall (h : Z) (r : PyFloat.float),
    ratio_in_range r -> h < 2 ^ 17 ->
    exists new_w : Z,
      width_from_height h r = Val new_w /\ Z.abs new_w < 2 ^ 29.
Proof.
  intros h r Hr Hh. unfold width_from_height.
  set (ch := if h - resize_extra_h <? 1 then 1 else h - resize_extra_h).
  assert (Hch : 0 < ch < 2 ^ 17).
  { unfold ch, resize_extra_h. destruct (Z.ltb_spec (h - 78) 1); lia. }
  apply (to_int_bound 29); [lia |].
  apply (float_below_weaken (Z.max 27 6 + 2)); [| lia].
  apply add_below; try lia.
  - apply (float_below_weaken (18 + 8 + 1)); [| lia].
    apply mul_below; try lia.
    + apply (finite_mag_below false 1).
      apply (of_int_mag_below ch 17); lia.
    + apply (finite_mag_below false (-7)). exact Hr.
  - apply (of_int_below resize_extra_w 5); unfold resize_extra_w; lia.
Qed.

Lemma to_int_errors :
  forall (f : PyFloat.float) (e : exn),
    PyFloat.to_int f = Err e -> e = OverflowError \/ e = ValueError.
Proof.
  intros [sg | sg | | sg m ex] e H; cbn in H; try discriminate H;
    injection H as <-; auto.
Qed.

Lemma height_from_width_errors :
  forall (w : Z) (r : PyFloat.float) (e : exn),
    PyFloat.truthy r = true ->
    height_from_width w r = Err e -> e = OverflowError \/ e = ValueError.
Proof.
  intros w r e Hr. unfold height_from_width, PyFloat.truediv_int_float.
  unfold PyFloat.truthy in Hr. apply negb_true_iff in Hr. rewrite Hr.
  cbn [exc_bind]. apply to_int_errors.
Qed.

Lemma width_from_height_errors :
  forall (h : Z) (r : PyFloat.float) (e : exn),
    width_from_height h r = Err e -> e = OverflowError \/ e = ValueError.
Proof.
  intros h r e. unfold width_from_height. apply to_int_errors.
Qed.

(** The formulas of the two conversions, as the source writes them. *)
Lemma height_from_width_formula :
  forall (w : Z) (r : PyFloat.float),
    PyFloat.truthy r = true ->
    height_from_width w r =
    PyFloat.to_int
      (PyFloat.add (PyFloat.div (PyFloat.of_int (Z.max 1 (w - 18))) r)
                   (PyFloat.of_int 78)).
Proof.
  intros w r Hr. unfold height_from_width, PyFloat.truediv_int_float,
    resize_extra_w, resize_extra_h.
  unfold PyFloat.truthy in Hr. apply negb_true_iff in Hr. rewrite Hr.
  cbn [exc_bind].
  destruct (Z.ltb_spec (w - 18) 1);
    [rewrite Z.max_l by lia | rewrite Z.max_r by lia]; reflexivity.
Qed.

Lemma width_from_height_formula :
  forall (h : Z) (r : PyFloat.float),
    width_from_height h r =
    PyFloat.to_int
      (PyFloat.add (PyFloat.mul (PyFloat.of_int (Z.max 1 (h - 78))) r)
                   (PyFloat.of_int 18)).
Proof.
  intros h r. unfold width_from_height, resize_extra_w, resize_extra_h.
  destruct (Z.ltb_spec (h - 78) 1);
    [rewrite Z.max_l by lia | rewrite Z.max_r by lia]; reflexivity.
Qed.

(* ------------------------------------------------------------------ *)
(** ** The candidate rectangle of a resize move *)

Lemma rough_geometry_val :
  forall (edge : Z) (geo : Qt.QRect) (diff : Qt.QPoint) (cand : Qt.QRect),
    rough_geometry edge geo diff = Val cand ->
    Qt.left cand = (if flag edge 1 then Qt.left geo + Qt.x diff else Qt.left geo) /\
    Qt.top cand = (if flag edge 4 then Qt.top geo + Qt.y diff else Qt.top geo) /\
    Qt.width cand =
      Qt.width geo + (if flag edge 1 then - Qt.x diff
                      else if flag edge 2 then Qt.x diff else 0) /\
    Qt.height cand =
      Qt.height geo + (if flag edge 4 then - Qt.y diff
                       else if flag edge 8 then Qt.y diff else 0).
Proof.
  intros edge geo diff cand H. unfold rough_geometry, PyQt.setLeft,
    PyQt.setRight, PyQt.setTop, PyQt.setBottom, PyQt.call in H.
  destruct (flag edge 1); [| destruct (flag edge 2)];
    (destruct (flag edge 4); [| destruct (flag edge 8)]);
    repeat match type of H with
           | context [c_int ?v] =>
               let E := fresh "E" in
               destruct (c_int v) as [? | ?] eqn:E;
               [apply c_int_val in E; destruct E as [-> _]
               | discriminate H];
               cbn [exc_bind] in H
           end;
    cbn [exc_bind] in H; injection H as <-;
    unfold Qt.width, Qt.height, Qt.left, Qt.right, Qt.top, Qt.bottom,
      Qt.setLeft, Qt.setRight, Qt.setTop, Qt.setBottom;
    cbn [Qt.x1 Qt.x2 Qt.y1 Qt.y2]; repeat split; lia.
Qed.

Lemma rough_geometry_err :
  forall (edge : Z) (geo : Qt.QRect) (diff : Qt.QPoint) (e : exn),
    rough_geometry edge geo diff = Err e -> e = OverflowError.
Proof.
  intros edge geo diff e H. unfold rough_geometry, PyQt.setLeft,
    PyQt.setRight, PyQt.setTop, PyQt.setBottom, PyQt.call in H.
  destruct (flag edge 1); [| destruct (flag edge 2)];
    (destruct (flag edge 4); [| destruct (flag edge 8)]);
    repeat match type of H with
           | context [c_int ?v] =>
               let E := fresh "E" in
               destruct (c_int v) as [? | ?] eqn:E;
               [| apply c_int_err in E; destruct E as [-> _];
                  cbn [exc_bind] in H; injection H as <-; reflexivity];
               cbn [exc_bind] in H
           end;
    cbn [exc_bind] in H; discriminate H.
Qed.

(** On a desktop every candidate exists, and is less than 2^17 wide and
    high. *)
Lemma rough_geometry_ok :
  forall (edge : Z) (geo : Qt.QRect) (p p0 : Qt.QPoint),
    rect_on_desk geo -> point_on_desk p -> point_on_desk p0 ->
    exists cand : Qt.QRect,
      rough_geometry edge geo (Qt.psub p p0) = Val cand /\
      Qt.width cand < 2 ^ 17 /\ Qt.height cand < 2 ^ 17 /\
      - 2 ^ 17 < Qt.left cand < 2 ^ 17 /\ - 2 ^ 17 < Qt.right cand < 2 ^ 17 /\
      - 2 ^ 17 < Qt.top cand < 2 ^ 17 /\ - 2 ^ 17 < Qt.bottom cand < 2 ^ 17.
Proof.
  intros edge geo p p0 (Hx1 & Hy1 & Hx2 & Hy2) [Hpx Hpy] [Hqx Hqy].
  unfold desk_range in *.
  unfold rough_geometry, PyQt.setLeft, PyQt.setRight, PyQt.setTop,
    PyQt.setBottom, Qt.psub. cbn [Qt.x Qt.y].
  unfold Qt.left, Qt.right, Qt.top, Qt.bottom.
  destruct (flag edge 1); [| destruct (flag edge 2)];
    (destruct (flag edge 4); [| destruct (flag edge 8)]);
    cbn [exc_bind];
    repeat (rewrite call_ok by (unfold int_range; lia); cbn [exc_bind]);
    eexists; (split; [reflexivity |]);
    unfold Qt.width, Qt.height, Qt.left, Qt.right, Qt.top, Qt.bottom,
      Qt.setLeft, Qt.setRight, Qt.setTop, Qt.setBottom;
    cbn [Qt.x1 Qt.x2 Qt.y1 Qt.y2]; repeat split; lia.
Qed.

Lemma is_corner_cases :
  forall edge : Z,
    is_corner edge = true -> edge = 5 \/ edge = 6 \/ edge = 9 \/ edge = 10.
Proof.
  intros edge H. unfold is_corner in H.
  repeat (apply orb_true_iff in H; destruct H as [H | H]);
    apply Z.eqb_eq in H; auto.
Qed.

Lemma enforce_aspect_ratio_corner :
  forall (edge : Z) (geo new_geo : Qt.QRect) (r : PyFloat.float),
    is_corner edge = true ->
    enforce_aspect_ratio edge geo new_geo r =
    if width_drives geo new_geo r then
      exc_bind (height_from_width (Qt.width new_geo) r) (fun new_h =>
      if flag edge 4
      then PyQt.setTop (Qt.bottom new_geo - new_h + 1) new_geo
      else PyQt.setHeight new_h new_geo)
    else
      exc_bind (width_from_height (Qt.height new_geo) r) (fun new_w =>
      if flag edge 1
      then PyQt.setLeft (Qt.right new_geo - new_w + 1) new_geo
      else PyQt.setWidth new_w new_geo).
Proof.
  intros edge geo new_geo r H.
  destruct (is_corner_cases edge H) as [-> | [-> | [-> | ->]]]; reflexivity.
Qed.

(** On a corner the candidate rectangle differs from the anchored one by
    the pointer displacement, on each axis. *)
Lemma rough_geometry_corner_deltas :
  forall (edge : Z) (geo : Qt.QRect) (diff : Qt.QPoint) (cand : Qt.QRect),
    is_corner edge = true ->
    rough_geometry edge geo diff = Val cand ->
    Z.abs (Qt.width cand - Qt.width geo) = Z.abs (Qt.x diff) /\
    Z.abs (Qt.height cand - Qt.height geo) = Z.abs (Qt.y diff) /\
    (flag edge 4 = true -> Qt.bottom cand = Qt.bottom geo) /\
    (flag edge 4 = false -> Qt.top cand = Qt.top geo) /\
    (flag edge 1 = true -> Qt.right cand = Qt.right geo) /\
    (flag edge 1 = false -> Qt.left cand = Qt.left geo).
Proof.
  intros edge geo diff cand H Hc.
  destruct (rough_geometry_val edge geo diff cand Hc) as (Hl & Ht & Hw & Hh).
  destruct (is_corner_cases edge H) as [-> | [-> | [-> | ->]]];
    cbn in Hl, Ht, Hw, Hh;
    unfold Qt.width, Qt.height, Qt.left, Qt.right, Qt.top, Qt.bottom in *;
    repeat split; intros; try discriminate; lia.
Qed.

(** An exception of the aspect lock comes from [int()] or from a
    conversion to a C++ [int]. *)
Lemma enforce_aspect_ratio_errors :
  forall (edge : Z) (geo new_geo : Qt.QRect) (r : PyFloat.float) (e : exn),
    PyFloat.truthy r = true ->
    enforce_aspect_ratio edge geo new_geo r = Err e ->
    e = OverflowError \/ e = ValueError.
Proof.
  intros edge geo new_geo r e Hr. unfold enforce_aspect_ratio.
  pose proof (height_from_width_errors (Qt.width new_geo) r) as Hh.
  pose proof (width_from_height_errors (Qt.height new_geo) r) as Hw.
  unfold PyQt.setLeft, PyQt.setTop, PyQt.setWidth, PyQt.setHeight.
  destruct (height_from_width (Qt.width new_geo) r) as [nh | eh];
    destruct (width_from_height (Qt.height new_geo) r) as [nw | ew];
    cbn [exc_bind];
    repeat match goal with
           | |- context [if ?b then _ else _] => destruct b
           end;
    cbn [exc_bind]; intros H;
    try (left; apply (call_err _ _ _ _ H));
    try (injection H as <-; auto).
Qed.

Lemma resized_geometry_errors :
  forall (edge : Z) (geo : Qt.QRect) (diff : Qt.QPoint)
         (ar : option PyFloat.float) (e : exn),
    resized_geometry edge geo diff ar = Err e ->
    (e = OverflowError \/ e = ValueError) /\
    (e = ValueError -> ar <> None).
Proof.
  intros edge geo diff ar e. unfold resized_geometry.
  destruct (rough_geometry edge geo diff) as [cand | e0] eqn:Hc.
  - cbn [exc_bind].
    destruct ar as [r |]; [| discriminate].
    destruct (PyFloat.truthy r) eqn:Hr; [| discriminate].
    destruct (enforce_aspect_ratio edge geo cand r) as [g | e1] eqn:He;
      [discriminate |].
    cbn [exc_bind]. intros [= <-].
    split; [apply (enforce_aspect_ratio_errors _ _ _ _ _ Hr He) | discriminate].
  - cbn [exc_bind]. intros [= <-].
    rewrite (rough_geometry_err _ _ _ _ Hc).
    split; [left; reflexivity | discriminate].
Qed.

Lemma enforce_aspect_ratio_ok :
  forall (edge : Z) (geo cand : Qt.QRect) (r : PyFloat.float),
    ratio_in_range r ->
    Qt.width cand < 2 ^ 17 -> Qt.height cand < 2 ^ 17 ->
    - 2 ^ 17 < Qt.right cand < 2 ^ 17 -> - 2 ^ 17 < Qt.bottom cand < 2 ^ 17 ->
    exists g : Qt.QRect, enforce_aspect_ratio edge geo cand r = Val g.
Proof.
  intros edge geo cand r Hr Hw Hh Hri Hbo. unfold enforce_aspect_ratio.
  destruct (height_from_width_range (Qt.width cand) r Hr Hw) as (nh & -> & Hnh).
  destruct (width_from_height_range (Qt.height cand) r Hr Hh) as (nw & -> & Hnw).
  cbn [exc_bind].
  unfold PyQt.setLeft, PyQt.setTop, PyQt.setWidth, PyQt.setHeight.
  repeat match goal with
         | |- context [if ?b then _ else _] => destruct b
         end;
    rewrite call_ok by (unfold int_range; lia); eexists; reflexivity.
Qed.

(** On a desktop, and with a ratio in range, a move sets a geometry. *)
Lemma resized_geometry_total :
  forall (edge : Z) (geo : Qt.QRect) (p p0 : Qt.QPoint)
         (ar : option PyFloat.float),
    (forall r, ar = Some r -> ratio_in_range r) ->
    rect_on_desk geo -> point_on_desk p -> point_on_desk p0 ->
    exists g : Qt.QRect, resized_geometry edge geo (Qt.psub p p0) ar = Val g.
Proof.
  intros edge geo p p0 ar Har Hgeo Hp Hp0.
  destruct (rough_geometry_ok edge geo p p0 Hgeo Hp Hp0)
    as (cand & Hc & Hw & Hh & _ & Hri & _ & Hbo).
  unfold resized_geometry. rewrite Hc. cbn [exc_bind].
  destruct ar as [r |]; [| eexists; reflexivity].
  destruct (PyFloat.truthy r); [| eexists; reflexivity].
  destruct (enforce_aspect_ratio_ok edge geo cand r (Har r eq_refl) Hw Hh Hri Hbo)
    as (g & ->).
  eexists. reflexivity.
Qed.

Lemma minimum_size_check_spec :
  forall g : Qt.QRect,
    Qt.left (minimum_size_check g) = Qt.left g /\
    Qt.top (minimum_size_check g) = Qt.top g /\
    Qt.width (minimum_size_check g) = Z.max 100 (Qt.width g) /\
    Qt.height (minimum_size_check g) = Z.max 100 (Qt.height g).
Proof.
  intros g. unfold minimum_size_check.
  destruct (Z.ltb_spec (Qt.width g) 100) as [Hw | Hw];
    match goal with
    | |- context [Qt.height ?r <? 100] =>
        destruct (Z.ltb_spec (Qt.height r) 100) as [Hh | Hh]
    end;
    unfold Qt.width, Qt.height, Qt.left, Qt.top, Qt.setWidth, Qt.setHeight in *;
    cbn [Qt.x1 Qt.x2 Qt.y1 Qt.y2] in *; repeat split; lia.
Qed.

(** A move of a resize, once the gesture is anchored. *)
Lemma handle_resize_run :
  forall (s : App) (p p0 : Qt.QPoint) (g0 : Qt.QRect) (edge : Z),
    resize_state p0 g0 edge s ->
    handle_resize p s =
    match resized_geometry edge g0 (Qt.psub p p0) (aspect_ratio s) with
    | Val g => Ok tt (with_geometry (constrained s g) s)
    | Err e => Raise e s
    end.
Proof.
  intros s p p0 g0 edge (Hr & Hp & Hg & He).
  unfold handle_resize, bind, get. rewrite Hr, Hp, Hg, He. cbn.
  destruct (resized_geometry edge g0 (Qt.psub p p0) (aspect_ratio s));
    reflexivity.
Qed.

(* ------------------------------------------------------------------ *)
(** ** Every move of a drag-resize sets a floored geometry *)

(** C2, amended.  A move of a drag-resize, with or without an aspect
    ratio, sets a geometry at least 100 wide and 100 high, whatever the
    pointer position, the ratio and the anchored geometry.  In full: the
    move either sets such a geometry, or raises and leaves the window as it
    was; the exception is then an [OverflowError] (of [int()], or of an
    argument that does not fit a C++ [int]) or a [ValueError] (of [int()],
    which needs an aspect ratio).  The move does set a geometry whenever
    pointer and anchored geometry are on a desktop (coordinates of 16 bits)
    and the aspect ratio, if any, lies between 1:256 and 256:1.  (The
    rotation recompute has no floor.) *)
Theorem handle_resize_minimum_size :
  forall (s : App) (p p0 : Qt.QPoint) (g0 : Qt.QRect) (edge : Z),
    resize_state p0 g0 edge s ->
    match handle_resize p s with
    | Ok _ s' =>
        100 <= Qt.width (geometry s') /\ 100 <= Qt.height (geometry s')
    | Raise e s' =>
        s' = s /\ (e = OverflowError \/ e = ValueError) /\
        (e = ValueError -> aspect_ratio s <> None)
    end /\
    (ratio_ok s ->
     rect_on_desk g0 -> point_on_desk p -> point_on_desk p0 ->
     exists s' : App,
       handle_resize p s = Ok tt s' /\
       100 <= Qt.width (geometry s') /\ 100 <= Qt.height (geometry s')).
Proof.
  intros s p p0 g0 edge Hs.
  rewrite (handle_resize_run s p p0 g0 edge Hs).
  split.
  - destruct (resized_geometry edge g0 (Qt.psub p p0) (aspect_ratio s))
      as [g | e] eqn:Hgeo.
    + cbn [geometry with_geometry].
      destruct (resized_geometry_floor _ _ _ _ _ Hgeo) as [Hw Hh].
      apply constrained_floor; assumption.
    + split; [reflexivity |].
      apply (resized_geometry_errors _ _ _ _ _ Hgeo).
  - intros Hok Hgr Hpr Hp0r.
    destruct (resized_geometry_total edge g0 p p0 (aspect_ratio s)
                Hok Hgr Hpr Hp0r) as (g & Hgeo).
    rewrite Hgeo. eexists. split; [reflexivity |].
    cbn [geometry with_geometry].
    destruct (resized_geometry_floor _ _ _ _ _ Hgeo) as [Hw Hh].
    apply constrained_floor; assumption.
Qed.

Lemma desk_range_check :
  forall z : Z, (- 2 ^ 15 <=? z) && (z <? 2 ^ 15) = true -> desk_range z.
Proof.
  intros z H. apply andb_true_iff in H. destruct H as [H1 H2].
  apply Z.leb_le in H1. apply Z.ltb_lt in H2. split; assumption.
Qed.

Lemma int_range_check :
  forall z : Z, (- 2 ^ 31 <=? z) && (z <? 2 ^ 31) = true -> int_range z.
Proof.
  intros z H. apply andb_true_iff in H. destruct H as [H1 H2].
  apply Z.leb_le in H1. apply Z.ltb_lt in H2. split; assumption.
Qed.

Lemma window_3_2_ratio_ok : ratio_ok Shown.window_3_2.
Proof. intros r Hr. injection Hr as <-. exact ratio_3_2_in_range. Qed.

Lemma window_3_2_geometry_on_desk :
  rect_on_desk (Qt.mkQRect 100 100 500 400).
Proof. repeat split; apply desk_range_check; reflexivity. Qed.

Lemma handle_resize_minimum_size_witness :
  dispatch [MouseButtonPress LeftButton (Qt.mkQPoint 595 495)]
    Shown.window_3_2 = Ok tt Shown.corner_pressed /\
  exists s' : App,
    handle_resize (Qt.mkQPoint 95 95) Shown.corner_pressed = Ok tt s' /\
    100 <= Qt.width (geometry s') /\ 100 <= Qt.height (geometry s').
Proof.
  split; [reflexivity |].
  apply (handle_resize_minimum_size Shown.corner_pressed
           (Qt.mkQPoint 95 95) (Qt.mkQPoint 595 495)
           (Qt.mkQRect 100 100 500 400) 10).
  - unfold resize_state. repeat split; reflexivity.
  - exact window_3_2_ratio_ok.
  - exact window_3_2_geometry_on_desk.
  - split; apply desk_range_check; reflexivity.
  - split; apply desk_range_check; reflexivity.
Defined.

(** C2, as stated: the rotation recompute is not floored.  The window is
    shown on a 1920x1080 screen and a strip of 40x1000 pixels is opened:
    the window is 294 wide (the minimum width of the layout) and 918 high.
    Its right border is dragged one pixel to the right: under the aspect
    lock the window becomes 295 wide and 7003 high.  The rotation that
    follows scales the swapped size down to the screen: the window ends
    1919 wide and 99 high. *)
Lemma rotate_image_below_floor :
  exists s1 s2 : App,
    perform_all Shown.strip_widened (init (Qt.mkQPoint 100 100)) = Ok tt s1 /\
    geometry s1 = Qt.mkQRect 934 81 295 7003 /\
    rotate_image (Some Scenario.screen) RotateRight s1 = Ok tt s2 /\
    Qt.width (geometry s2) = 1919 /\
    Qt.height (geometry s2) = 99.
Proof.
  eexists. eexists.
  split; [vm_compute; reflexivity |].
  split; [reflexivity |].
  split; [vm_compute; reflexivity |].
  split; reflexivity.
Qed.

(* ------------------------------------------------------------------ *)
(** ** What a move of a resize sets *)

Lemma handle_resize_ok_inv :
  forall (s s' : App) (p p0 : Qt.QPoint) (g0 : Qt.QRect) (edge : Z),
    resize_state p0 g0 edge s ->
    handle_resize p s = Ok tt s' ->
    exists new_geo : Qt.QRect,
      resized_geometry edge g0 (Qt.psub p p0) (aspect_ratio s) = Val new_geo /\
      s' = with_geometry (constrained s new_geo) s.
Proof.
  intros s s' p p0 g0 edge Hs.
  rewrite (handle_resize_run s p p0 g0 edge Hs).
  destruct (resized_geometry _ _ _ _) as [g | e]; [| discriminate].
  intros [= <-]. exists g. split; reflexivity.
Qed.

Lemma bounded_small :
  forall lo v : Z, v < 2 ^ 17 -> bounded lo v = Z.max lo v.
Proof. intros lo v H. unfold bounded, Qt.QWIDGETSIZE_MAX. lia. Qed.

(** X9.  Free-form resize on a desktop: without an aspect ratio a move of
    a resize completes; each dragged edge follows the pointer, the other
    edges keep the press geometry, and width and height are floored at 100
    (and at the minimum size of the window) by moving the right and the
    bottom edge, so under a Left or Top drag the opposite edge stays put
    exactly when no floor is hit. *)
Theorem handle_resize_unconstrained :
  forall (s : App) (p p0 : Qt.QPoint) (g0 : Qt.QRect) (edge : Z),
    resize_state p0 g0 edge s ->
    aspect_ratio s = None ->
    rect_on_desk g0 -> point_on_desk p -> point_on_desk p0 ->
    exists s' : App,
      handle_resize p s = Ok tt s' /\
      let dx := Qt.x p - Qt.x p0 in
      let dy := Qt.y p - Qt.y p0 in
      let g := geometry s' in
      Qt.left g = (if flag edge 1 then Qt.left g0 + dx else Qt.left g0) /\
      Qt.top g = (if flag edge 4 then Qt.top g0 + dy else Qt.top g0) /\
      Qt.width g =
        Z.max (minimum_width s)
          (Z.max 100 (Qt.width g0 + (if flag edge 1 then - dx
                                     else if flag edge 2 then dx else 0))) /\
      Qt.height g =
        Z.max (minimum_height s)
          (Z.max 100 (Qt.height g0 + (if flag edge 4 then - dy
                                      else if flag edge 8 then dy else 0))) /\
      (flag edge 1 = true ->
       (Qt.right g = Qt.right g0 <->
        Z.max 100 (minimum_width s) <= Qt.width g0 - dx)) /\
      (flag edge 4 = true ->
       (Qt.bottom g = Qt.bottom g0 <->
        Z.max 100 (minimum_height s) <= Qt.height g0 - dy)).
Proof.
  intros s p p0 g0 edge Hs Har Hg0 Hp Hp0.
  rewrite (handle_resize_run s p p0 g0 edge Hs), Har.
  rewrite resized_geometry_unconstrained.
  destruct (rough_geometry_ok edge g0 p p0 Hg0 Hp Hp0)
    as (cand & Hc & Hcw & Hch & _).
  rewrite Hc. cbn [exc_bind].
  eexists. split; [reflexivity |]. cbn [geometry with_geometry].
  destruct (rough_geometry_val edge g0 (Qt.psub p p0) cand Hc)
    as (Hl & Ht & Hw & Hh).
  destruct (minimum_size_check_spec cand) as (Hl' & Ht' & Hw' & Hh').
  destruct (constrained_spec s (minimum_size_check cand))
    as (Hl'' & Ht'' & Hw'' & Hh'').
  cbv zeta in *. cbn [Qt.psub Qt.x Qt.y] in *.
  rewrite Hl', Hl in Hl''. rewrite Ht', Ht in Ht''.
  rewrite Hw', bounded_small in Hw'' by lia.
  rewrite Hh', bounded_small in Hh'' by lia.
  rewrite Hw in Hw''. rewrite Hh in Hh''.
  split; [exact Hl'' |]. split; [exact Ht'' |].
  split; [exact Hw'' |]. split; [exact Hh'' |].
  split.
  - intros Hf. rewrite Hf in *.
    unfold Qt.right, Qt.left, Qt.width in *. lia.
  - intros Hf. rewrite Hf in *.
    unfold Qt.bottom, Qt.top, Qt.height in *. lia.
Qed.

Lemma setHeight_spec :
  forall (h : Z) (r : Qt.QRect),
    Qt.left (Qt.setHeight h r) = Qt.left r /\
    Qt.top (Qt.setHeight h r) = Qt.top r /\
    Qt.width (Qt.setHeight h r) = Qt.width r /\
    Qt.height (Qt.setHeight h r) = h.
Proof.
  intros h r. unfold Qt.left, Qt.top, Qt.width, Qt.height, Qt.setHeight.
  cbn [Qt.x1 Qt.x2 Qt.y1 Qt.y2]. repeat split; lia.
Qed.

Lemma setWidth_spec :
  forall (w : Z) (r : Qt.QRect),
    Qt.left (Qt.setWidth w r) = Qt.left r /\
    Qt.top (Qt.setWidth w r) = Qt.top r /\
    Qt.width (Qt.setWidth w r) = w /\
    Qt.height (Qt.setWidth w r) = Qt.height r.
Proof.
  intros w r. unfold Qt.left, Qt.top, Qt.width, Qt.height, Qt.setWidth.
  cbn [Qt.x1 Qt.x2 Qt.y1 Qt.y2]. repeat split; lia.
Qed.

Lemma setTop_spec :
  forall (t : Z) (r : Qt.QRect),
    Qt.left (Qt.setTop t r) = Qt.left r /\
    Qt.top (Qt.setTop t r) = t /\
    Qt.width (Qt.setTop t r) = Qt.width r /\
    Qt.height (Qt.setTop t r) = Qt.bottom r - t + 1.
Proof.
  intros t r. unfold Qt.left, Qt.top, Qt.width, Qt.height, Qt.bottom,
    Qt.setTop. cbn [Qt.x1 Qt.x2 Qt.y1 Qt.y2]. repeat split; lia.
Qed.

Lemma setLeft_spec :
  forall (l : Z) (r : Qt.QRect),
    Qt.left (Qt.setLeft l r) = l /\
    Qt.top (Qt.setLeft l r) = Qt.top r /\
    Qt.width (Qt.setLeft l r) = Qt.right r - l + 1 /\
    Qt.height (Qt.setLeft l r) = Qt.height r.
Proof.
  intros l r. unfold Qt.left, Qt.top, Qt.width, Qt.height, Qt.right,
    Qt.setLeft. cbn [Qt.x1 Qt.x2 Qt.y1 Qt.y2]. repeat split; lia.
Qed.

(** What the window shows of a rectangle that went through the
    minimum-size check. *)
Lemma checked_geometry_spec :
  forall (s : App) (locked : Qt.QRect),
    let g := constrained s (minimum_size_check locked) in
    Qt.left g = Qt.left locked /\
    Qt.top g = Qt.top locked /\
    Qt.width g = bounded (minimum_width s) (Z.max 100 (Qt.width locked)) /\
    Qt.height g = bounded (minimum_height s) (Z.max 100 (Qt.height locked)).
Proof.
  intros s locked g. unfold g.
  destruct (minimum_size_check_spec locked) as (Hl & Ht & Hw & Hh).
  destruct (constrained_spec s (minimum_size_check locked))
    as (Hl' & Ht' & Hw' & Hh').
  cbv zeta in *. rewrite Hl', Ht', Hw', Hh', Hl, Ht, Hw, Hh.
  repeat split.
Qed.

(** X10.  Aspect-locked drag of a single edge: dragging Left or Right
    sets the width [w] from the pointer and the height to
    [int(max(1, w - 18) / ratio + 78)], top unchanged; dragging Top or
    Bottom sets the height [h] from the pointer and the width to
    [int(max(1, h - 78) * ratio + 18)], left unchanged; both are then
    floored at 100 and bounded by the size constraints of the window. *)
Theorem handle_resize_single_edge_lock :
  forall (s s' : App) (p p0 : Qt.QPoint) (g0 : Qt.QRect) (edge : Z)
         (r : PyFloat.float),
    resize_state p0 g0 edge s ->
    aspect_ratio s = Some r ->
    PyFloat.truthy r = true ->
    handle_resize p s = Ok tt s' ->
    let dx := Qt.x p - Qt.x p0 in
    let dy := Qt.y p - Qt.y p0 in
    let g := geometry s' in
    (edge = 1 \/ edge = 2 ->
     let w := Qt.width g0 + (if edge =? 1 then - dx else dx) in
     exists new_h : Z,
       PyFloat.to_int
         (PyFloat.add (PyFloat.div (PyFloat.of_int (Z.max 1 (w - 18))) r)
                      (PyFloat.of_int 78)) = Val new_h /\
       Qt.top g = Qt.top g0 /\
       Qt.left g = (if edge =? 1 then Qt.left g0 + dx else Qt.left g0) /\
       Qt.width g = bounded (minimum_width s) (Z.max 100 w) /\
       Qt.height g = bounded (minimum_height s) (Z.max 100 new_h)) /\
    (edge = 4 \/ edge = 8 ->
     let h := Qt.height g0 + (if edge =? 4 then - dy else dy) in
     exists new_w : Z,
       PyFloat.to_int
         (PyFloat.add (PyFloat.mul (PyFloat.of_int (Z.max 1 (h - 78))) r)
                      (PyFloat.of_int 18)) = Val new_w /\
       Qt.left g = Qt.left g0 /\
       Qt.top g = (if edge =? 4 then Qt.top g0 + dy else Qt.top g0) /\
       Qt.height g = bounded (minimum_height s) (Z.max 100 h) /\
       Qt.width g = bounded (minimum_width s) (Z.max 100 new_w)).
Proof.
  intros s s' p p0 g0 edge r Hs Har Hr Hrun dx dy g.
  destruct (handle_resize_ok_inv s s' p p0 g0 edge Hs Hrun)
    as (final & Hgeo & Hs').
  rewrite Har in Hgeo. unfold resized_geometry in Hgeo.
  destruct (rough_geometry edge g0 (Qt.psub p p0)) as [cand | e0] eqn:Hc;
    [| discriminate Hgeo].
  cbn [exc_bind] in Hgeo. rewrite Hr in Hgeo.
  destruct (rough_geometry_val edge g0 (Qt.psub p p0) cand Hc)
    as (Hl & Ht & Hw & Hh).
  cbn [Qt.psub Qt.x Qt.y] in Hl, Ht, Hw, Hh.
  fold dx dy in Hl, Ht, Hw, Hh.
  assert (Hg : g = constrained s final) by (unfold g; rewrite Hs'; reflexivity).
  split.
  - intros Hedge w.
    assert (Hb : (edge =? 1) || (edge =? 2) = true)
      by (destruct Hedge as [-> | ->]; reflexivity).
    unfold enforce_aspect_ratio in Hgeo. rewrite Hb in Hgeo.
    destruct (height_from_width (Qt.width cand) r) as [new_h | e] eqn:Hnh;
      [| discriminate Hgeo].
    cbn [exc_bind] in Hgeo. unfold PyQt.setHeight in Hgeo.
    destruct (PyQt.call Qt.setHeight new_h cand) as [locked | e] eqn:Hlk;
      [| discriminate Hgeo].
    destruct (call_val _ _ _ _ Hlk) as [-> _].
    cbn [exc_bind] in Hgeo. injection Hgeo as <-.
    assert (Hcw : Qt.width cand = w).
    { rewrite Hw. unfold w. destruct Hedge as [-> | ->]; reflexivity. }
    exists new_h.
    rewrite (height_from_width_formula _ _ Hr), Hcw in Hnh.
    split; [exact Hnh |].
    destruct (checked_geometry_spec s (Qt.setHeight new_h cand))
      as (Hl' & Ht' & Hw' & Hh').
    cbv zeta in Hl', Ht', Hw', Hh'. rewrite <- Hg in Hl', Ht', Hw', Hh'.
    destruct (setHeight_spec new_h cand) as (Hsl & Hst & Hsw & Hsh).
    rewrite Hsl in Hl'. rewrite Hst in Ht'. rewrite Hsw in Hw'.
    rewrite Hsh in Hh'.
    split; [rewrite Ht', Ht; destruct Hedge as [-> | ->]; reflexivity |].
    split; [rewrite Hl', Hl; destruct Hedge as [-> | ->]; reflexivity |].
    split; [rewrite Hw', Hcw; reflexivity | exact Hh'].
  - intros Hedge h.
    assert (Hb1 : (edge =? 1) || (edge =? 2) = false)
      by (destruct Hedge as [-> | ->]; reflexivity).
    assert (Hb2 : (edge =? 4) || (edge =? 8) = true)
      by (destruct Hedge as [-> | ->]; reflexivity).
    unfold enforce_aspect_ratio in Hgeo. rewrite Hb1, Hb2 in Hgeo.
    destruct (width_from_height (Qt.height cand) r) as [new_w | e] eqn:Hnw;
      [| discriminate Hgeo].
    cbn [exc_bind] in Hgeo. unfold PyQt.setWidth in Hgeo.
    destruct (PyQt.call Qt.setWidth new_w cand) as [locked | e] eqn:Hlk;
      [| discriminate Hgeo].
    destruct (call_val _ _ _ _ Hlk) as [-> _].
    cbn [exc_bind] in Hgeo. injection Hgeo as <-.
    assert (Hch : Qt.height cand = h).
    { rewrite Hh. unfold h. destruct Hedge as [-> | ->]; reflexivity. }
    exists new_w.
    rewrite width_from_height_formula, Hch in Hnw.
    split; [exact Hnw |].
    destruct (checked_geometry_spec s (Qt.setWidth new_w cand))
      as (Hl' & Ht' & Hw' & Hh').
    cbv zeta in Hl', Ht', Hw', Hh'. rewrite <- Hg in Hl', Ht', Hw', Hh'.
    destruct (setWidth_spec new_w cand) as (Hsl & Hst & Hsw & Hsh).
    rewrite Hsl in Hl'. rewrite Hst in Ht'. rewrite Hsw in Hw'.
    rewrite Hsh in Hh'.
    split; [rewrite Hl', Hl; destruct Hedge as [-> | ->]; reflexivity |].
    split; [rewrite Ht', Ht; destruct Hedge as [-> | ->]; reflexivity |].
    split; [rewrite Hh', Hch; reflexivity | exact Hw'].
Qed.

(* ------------------------------------------------------------------ *)
(** ** Corner drags under the aspect lock *)

(** C5, as stated: the edge opposite to the dragged corner does not always
    stay.  The top-left corner of the window (100,100,500,400), aspect
    ratio 1.5, is pressed at (102,102) and dragged 450 to the right: the
    width drives, the locked height is 99 and the top is put at
    499 - 99 + 1 = 401; the minimum-size check then makes the window 100
    high by moving the bottom from 499 to 500. *)
Lemma corner_resize_bottom_moves :
  exists (s' : App) (cand : Qt.QRect),
    dispatch Shown.top_left_drag Shown.window_3_2 = Ok tt s' /\
    resize_edge s' = Some 5 /\
    rough_geometry 5 (geometry Shown.window_3_2) (Qt.mkQPoint 450 0)
    = Val cand /\
    width_drives (geometry Shown.window_3_2) cand Scenario.ratio_3_2 = true /\
    height_from_width (Qt.width cand) Scenario.ratio_3_2 = Val 99 /\
    Qt.bottom (geometry Shown.window_3_2) = 499 /\
    Qt.top (geometry s') = 401 /\
    Qt.bottom (geometry s') = 500.
Proof.
  eexists. eexists.
  split; [vm_compute; reflexivity |].
  split; [reflexivity |].
  split; [vm_compute; reflexivity |].
  split; [vm_compute; reflexivity |].
  split; [vm_compute; reflexivity |].
  repeat split.
Qed.

(** C5, amended.  On a corner and under an aspect ratio [r], a move that
    completes chooses the axis that drives from the candidate rectangle as
    the pointer proposes it, before any constraint: the width drives
    exactly when |candidate width - anchored width| > |candidate height -
    anchored height| * r (the float product and comparison of the source),
    and the height drives otherwise.  When the width drives, the height is
    recomputed from the candidate width; on a corner with the Top edge the
    top is put at anchored bottom - new height + 1, and the bottom stays
    where the anchored rectangle has it provided the new height is at least
    100 and within the size constraints of the window; it moves down
    otherwise.  On a corner without the Top edge the top stays.  When the
    height drives, symmetrically, with Left and right. *)
Theorem corner_resize_driving_axis :
  forall (s s' : App) (p p0 : Qt.QPoint) (g0 : Qt.QRect) (edge : Z)
         (r : PyFloat.float),
    resize_state p0 g0 edge s ->
    is_corner edge = true ->
    aspect_ratio s = Some r ->
    PyFloat.truthy r = true ->
    handle_resize p s = Ok tt s' ->
    exists cand : Qt.QRect,
      rough_geometry edge g0 (Qt.psub p p0) = Val cand /\
      let delta_w := Z.abs (Qt.width cand - Qt.width g0) in
      let delta_h := Z.abs (Qt.height cand - Qt.height g0) in
      let g := geometry s' in
      delta_w = Z.abs (Qt.x p - Qt.x p0) /\
      delta_h = Z.abs (Qt.y p - Qt.y p0) /\
      if PyFloat.ltb (PyFloat.mul (PyFloat.of_int delta_h) r)
                     (PyFloat.of_int delta_w)
      then
        exists new_h : Z,
          height_from_width (Qt.width cand) r = Val new_h /\
          Qt.left g = Qt.left cand /\
          Qt.width g = bounded (minimum_width s) (Z.max 100 (Qt.width cand)) /\
          Qt.height g = bounded (minimum_height s) (Z.max 100 new_h) /\
          if flag edge 4
          then Qt.top g = Qt.bottom g0 - new_h + 1 /\
               (Z.max 100 (minimum_height s) <= new_h <= Qt.QWIDGETSIZE_MAX ->
                Qt.bottom g = Qt.bottom g0) /\
               (new_h < Z.max 100 (minimum_height s) ->
                Qt.bottom g0 < Qt.bottom g)
          else Qt.top g = Qt.top g0
      else
        exists new_w : Z,
          width_from_height (Qt.height cand) r = Val new_w /\
          Qt.top g = Qt.top cand /\
          Qt.height g = bounded (minimum_height s) (Z.max 100 (Qt.height cand)) /\
          Qt.width g = bounded (minimum_width s) (Z.max 100 new_w) /\
          if flag edge 1
          then Qt.left g = Qt.right g0 - new_w + 1 /\
               (Z.max 100 (minimum_width s) <= new_w <= Qt.QWIDGETSIZE_MAX ->
                Qt.right g = Qt.right g0) /\
               (new_w < Z.max 100 (minimum_width s) ->
                Qt.right g0 < Qt.right g)
          else Qt.left g = Qt.left g0.
Proof.
  intros s s' p p0 g0 edge r Hs Hc Har Hr Hrun.
  destruct (handle_resize_ok_inv s s' p p0 g0 edge Hs Hrun)
    as (final & Hgeo & Hs').
  rewrite Har in Hgeo. unfold resized_geometry in Hgeo.
  destruct (rough_geometry edge g0 (Qt.psub p p0)) as [cand | e0] eqn:Hcand;
    [| discriminate Hgeo].
  cbn [exc_bind] in Hgeo. rewrite Hr in Hgeo.
  exists cand. split; [reflexivity |].
  destruct (rough_geometry_corner_deltas edge g0 (Qt.psub p p0) cand Hc Hcand)
    as (Hdw & Hdh & Hb & Ht & Hri & Hl).
  cbn [Qt.psub Qt.x Qt.y] in Hdw, Hdh.
  cbv zeta. split; [exact Hdw |]. split; [exact Hdh |].
  rewrite (enforce_aspect_ratio_corner edge g0 cand r Hc) in Hgeo.
  unfold width_drives in Hgeo.
  assert (Hg : geometry s' = constrained s final) by (rewrite Hs'; reflexivity).
  rewrite Hg.
  destruct (PyFloat.ltb
              (PyFloat.mul (PyFloat.of_int (Z.abs (Qt.height cand - Qt.height g0))) r)
              (PyFloat.of_int (Z.abs (Qt.width cand - Qt.width g0)))).
  - destruct (height_from_width (Qt.width cand) r) as [new_h | e];
      [| discriminate Hgeo].
    exists new_h. split; [reflexivity |].
    cbn [exc_bind] in Hgeo. unfold PyQt.setTop, PyQt.setHeight in Hgeo.
    destruct (flag edge 4).
    + destruct (PyQt.call Qt.setTop (Qt.bottom cand - new_h + 1) cand)
        as [locked | e] eqn:Hlk; [| discriminate Hgeo].
      destruct (call_val _ _ _ _ Hlk) as [-> _].
      cbn [exc_bind] in Hgeo. injection Hgeo as <-.
      destruct (checked_geometry_spec s
                  (Qt.setTop (Qt.bottom cand - new_h + 1) cand))
        as (Hl' & Ht' & Hw' & Hh').
      cbv zeta in Hl', Ht', Hw', Hh'.
      destruct (setTop_spec (Qt.bottom cand - new_h + 1) cand)
        as (Hsl & Hst & Hsw & Hsh).
      rewrite Hsl in Hl'. rewrite Hst in Ht'. rewrite Hsw in Hw'.
      rewrite Hsh in Hh'.
      specialize (Hb eq_refl).
      replace (Qt.bottom cand - (Qt.bottom cand - new_h + 1) + 1)
        with new_h in Hh' by lia.
      split; [exact Hl' |]. split; [exact Hw' |]. split; [exact Hh' |].
      split; [rewrite Ht', Hb; reflexivity |].
      unfold Qt.bottom, Qt.top, Qt.height in *.
      unfold bounded, Qt.QWIDGETSIZE_MAX in *.
      split; intros; lia.
    + destruct (PyQt.call Qt.setHeight new_h cand)
        as [locked | e] eqn:Hlk; [| discriminate Hgeo].
      destruct (call_val _ _ _ _ Hlk) as [-> _].
      cbn [exc_bind] in Hgeo. injection Hgeo as <-.
      destruct (checked_geometry_spec s (Qt.setHeight new_h cand))
        as (Hl' & Ht' & Hw' & Hh').
      cbv zeta in Hl', Ht', Hw', Hh'.
      destruct (setHeight_spec new_h cand) as (Hsl & Hst & Hsw & Hsh).
      rewrite Hsl in Hl'. rewrite Hst in Ht'. rewrite Hsw in Hw'.
      rewrite Hsh in Hh'.
      specialize (Ht eq_refl).
      split; [exact Hl' |]. split; [exact Hw' |]. split; [exact Hh' |].
      rewrite Ht', Ht. reflexivity.
  - destruct (width_from_height (Qt.height cand) r) as [new_w | e];
      [| discriminate Hgeo].
    exists new_w. split; [reflexivity |].
    cbn [exc_bind] in Hgeo. unfold PyQt.setLeft, PyQt.setWidth in Hgeo.
    destruct (flag edge 1).
    + destruct (PyQt.call Qt.setLeft (Qt.right cand - new_w + 1) cand)
        as [locked | e] eqn:Hlk; [| discriminate Hgeo].
      destruct (call_val _ _ _ _ Hlk) as [-> _].
      cbn [exc_bind] in Hgeo. injection Hgeo as <-.
      destruct (checked_geometry_spec s
                  (Qt.setLeft (Qt.right cand - new_w + 1) cand))
        as (Hl' & Ht' & Hw' & Hh').
      cbv zeta in Hl', Ht', Hw', Hh'.
      destruct (setLeft_spec (Qt.right cand - new_w + 1) cand)
        as (Hsl & Hst & Hsw & Hsh).
      rewrite Hsl in Hl'. rewrite Hst in Ht'. rewrite Hsw in Hw'.
      rewrite Hsh in Hh'.
      specialize (Hri eq_refl).
      replace (Qt.right cand - (Qt.right cand - new_w + 1) + 1)
        with new_w in Hw' by lia.
      split; [exact Ht' |]. split; [exact Hh' |]. split; [exact Hw' |].
      split; [rewrite Hl', Hri; reflexivity |].
      unfold Qt.right, Qt.left, Qt.width in *.
      unfold bounded, Qt.QWIDGETSIZE_MAX in *.
      split; intros; lia.
    + destruct (PyQt.call Qt.setWidth new_w cand)
        as [locked | e] eqn:Hlk; [| discriminate Hgeo].
      destruct (call_val _ _ _ _ Hlk) as [-> _].
      cbn [exc_bind] in Hgeo. injection Hgeo as <-.
      destruct (checked_geometry_spec s (Qt.setWidth new_w cand))
        as (Hl' & Ht' & Hw' & Hh').
      cbv zeta in Hl', Ht', Hw', Hh'.
      destruct (setWidth_spec new_w cand) as (Hsl & Hst & Hsw & Hsh).
      rewrite Hsl in Hl'. rewrite Hst in Ht'. rewrite Hsw in Hw'.
      rewrite Hsh in Hh'.
      specialize (Hl eq_refl).
      split; [exact Ht' |]. split; [exact Hh' |]. split; [exact Hw' |].
      rewrite Hl', Hl. reflexivity.
Qed.

Lemma corner_resize_driving_axis_witness :
  dispatch [MouseButtonPress LeftButton (Qt.mkQPoint 102 102)]
    Shown.window_3_2 = Ok tt Shown.top_left_pressed /\
  exists s' : App,
    handle_resize (Qt.mkQPoint 42 92) Shown.top_left_pressed = Ok tt s' /\
    height_from_width 560 Scenario.ratio_3_2 = Val 439 /\
    Qt.left (geometry s') = 40 /\
    Qt.top (geometry s') = 499 - 439 + 1 /\
    Qt.bottom (geometry s') = 499.
Proof.
  split; [reflexivity |].
  destruct (handle_resize (Qt.mkQPoint 42 92) Shown.top_left_pressed)
    as [[] s' | e s'] eqn:Hrun; [| vm_compute in Hrun; discriminate Hrun].
  exists s'. split; [reflexivity |].
  destruct (corner_resize_driving_axis Shown.top_left_pressed s'
              (Qt.mkQPoint 42 92) (Qt.mkQPoint 102 102)
              (Qt.mkQRect 100 100 500 400) 5 Scenario.ratio_3_2)
    as (cand & Hcand & H).
  - unfold resize_state. repeat split; reflexivity.
  - reflexivity.
  - reflexivity.
  - reflexivity.
  - exact Hrun.
  - assert (Hc : rough_geometry 5 (Qt.mkQRect 100 100 500 400)
                   (Qt.psub (Qt.mkQPoint 42 92) (Qt.mkQPoint 102 102))
                 = Val (Qt.mkCorners 40 90 599 499))
      by (vm_compute; reflexivity).
    rewrite Hc in Hcand. injection Hcand as <-.
    cbv zeta in H. destruct H as (_ & _ & H).
    assert (Hd : PyFloat.ltb
                   (PyFloat.mul
                      (PyFloat.of_int
                         (Z.abs (Qt.height (Qt.mkCorners 40 90 599 499)
                                 - Qt.height (Qt.mkQRect 100 100 500 400))))
                      Scenario.ratio_3_2)
                   (PyFloat.of_int
                      (Z.abs (Qt.width (Qt.mkCorners 40 90 599 499)
                              - Qt.width (Qt.mkQRect 100 100 500 400))))
                 = true) by (vm_compute; reflexivity).
    rewrite Hd in H. destruct H as (new_h & Hnh & Hl & _ & _ & Hf).
    assert (Hh : height_from_width 560 Scenario.ratio_3_2 = Val 439)
      by (vm_compute; reflexivity).
    change (Qt.width (Qt.mkCorners 40 90 599 499)) with 560 in Hnh.
    rewrite Hh in Hnh. injection Hnh as <-.
    change (flag 5 4) with true in Hf. cbv iota in Hf.
    destruct Hf as (Ht & Hb & _).
    split; [exact Hh |]. split; [exact Hl |]. split; [exact Ht |].
    apply Hb. vm_compute. split; discriminate.
Defined.

(** The rectangle handed to [setGeometry] is the aspect-locked one whenever
    that one respects the floor. *)
Lemma resized_geometry_constrained :
  forall (edge : Z) (geo : Qt.QRect) (diff : Qt.QPoint) (r : PyFloat.float)
         (cand new_geo : Qt.QRect),
    PyFloat.truthy r = true ->
    rough_geometry edge geo diff = Val cand ->
    enforce_aspect_ratio edge geo cand r = Val new_geo ->
    100 <= Qt.width new_geo ->
    100 <= Qt.height new_geo ->
    resized_geometry edge geo diff (Some r) = Val new_geo.
Proof.
  intros edge geo diff r cand new_geo Hr Hc Hrun Hw Hh.
  unfold resized_geometry. rewrite Hc. cbn [exc_bind].
  rewrite Hr, Hrun. cbn [exc_bind].
  rewrite (minimum_size_check_id new_geo Hw Hh). reflexivity.
Qed.

(** X11.  What the minimum-size check leaves of a width-driven corner drag
    that includes the Top edge: the top is where the aspect lock put it; the
    bottom is the anchored one unless the locked height is below 100, in
    which case the floor moves the bottom down. *)
Lemma corner_resize_top_after_floor :
  forall (edge : Z) (geo : Qt.QRect) (diff : Qt.QPoint) (r : PyFloat.float)
         (cand final : Qt.QRect),
    is_corner edge = true ->
    flag edge 4 = true ->
    PyFloat.truthy r = true ->
    rough_geometry edge geo diff = Val cand ->
    width_drives geo cand r = true ->
    resized_geometry edge geo diff (Some r) = Val final ->
    exists new_h : Z,
      height_from_width (Qt.width cand) r = Val new_h /\
      Qt.top final = Qt.bottom geo - new_h + 1 /\
      (100 <= new_h -> Qt.bottom final = Qt.bottom geo) /\
      (new_h < 100 -> Qt.bottom final = Qt.top final + 99).
Proof.
  intros edge geo diff r cand final Hc Htop Hr Hcand Hdrv Hrun.
  destruct (rough_geometry_corner_deltas edge geo diff cand Hc Hcand)
    as (_ & _ & Hb & _).
  specialize (Hb Htop).
  unfold resized_geometry in Hrun. rewrite Hcand in Hrun.
  cbn [exc_bind] in Hrun. rewrite Hr in Hrun.
  rewrite (enforce_aspect_ratio_corner _ _ _ _ Hc), Hdrv, Htop in Hrun.
  destruct (height_from_width (Qt.width cand) r)
    as [new_h | e]; [| discriminate Hrun].
  exists new_h. split; [reflexivity |].
  cbn [exc_bind] in Hrun. unfold PyQt.setTop in Hrun.
  destruct (PyQt.call Qt.setTop (Qt.bottom cand - new_h + 1) cand)
    as [locked | e] eqn:Hlk; [| discriminate Hrun].
  destruct (call_val _ _ _ _ Hlk) as [-> _].
  cbn [exc_bind] in Hrun. injection Hrun as <-.
  unfold minimum_size_check.
  destruct (Z.ltb_spec (Qt.width (Qt.setTop (Qt.bottom cand - new_h + 1) cand)) 100);
    match goal with
    | |- context [Qt.height ?q <? 100] =>
        destruct (Z.ltb_spec (Qt.height q) 100) as [Hh | Hh]
    end;
    unfold Qt.top, Qt.bottom, Qt.height, Qt.width, Qt.setTop, Qt.setWidth,
      Qt.setHeight in *;
    cbn [Qt.x1 Qt.x2 Qt.y1 Qt.y2] in *;
    repeat split; intros; lia.
Qed.

(** ** Classifier, press and cursor *)

(** X1.  Flags of the classifier, one by one: Left is set exactly when
    [x < margin], Right exactly when that fails and [x > width - margin],
    Top and Bottom likewise on [y]; the mask is 0 exactly on the band
    [margin <= x <= width - margin], [margin <= y <= height - margin]. *)
Theorem get_resize_edge_flags :
  forall (s : App) (pos : Qt.QPoint),
    let edge := get_resize_edge s pos in
    (flag edge 1 = true <-> on_left s pos) /\
    (flag edge 2 = true <-> on_right s pos) /\
    (flag edge 4 = true <-> on_top s pos) /\
    (flag edge 8 = true <-> on_bottom s pos) /\
    (edge = 0 <->
     resize_margin s <= Qt.x pos <= self_width s - resize_margin s /\
     resize_margin s <= Qt.y pos <= self_height s - resize_margin s).
Proof.
  intros s pos edge. unfold edge, get_resize_edge, on_left, on_right, on_top, on_bottom.
  destruct (Z.ltb_spec (Qt.x pos) (resize_margin s)) as [Hx | Hx];
    [| destruct (Z.ltb_spec (self_width s - resize_margin s) (Qt.x pos)) as [Hx' | Hx']];
    (destruct (Z.ltb_spec (Qt.y pos) (resize_margin s)) as [Hy | Hy];
     [| destruct (Z.ltb_spec (self_height s - resize_margin s) (Qt.y pos)) as [Hy' | Hy']]);
    cbn [Z.lor Z.land Z.eqb negb flag Pos.lor Pos.land Pos.eqb N.succ_pos Pos.Nsucc_double Pos.Ndouble Z.of_N];
    unfold flag; cbn [Z.lor Z.land Z.eqb negb Pos.lor Pos.land Pos.eqb Z.of_N Pos.Nsucc_double Pos.Ndouble Pos.succ];
    repeat split; intros; try discriminate; try reflexivity; try lia; try tauto.
Qed.

Lemma update_cursor_run :
  forall (pos : Qt.QPoint) (s : App),
    exists c : CursorShape, update_cursor pos s = Ok tt (with_cursor c s).
Proof.
  intros pos s. unfold update_cursor, bind, get, setCursor, modify.
  repeat match goal with
         | |- context [if ?b then _ else _] => destruct b
         end; eexists; reflexivity.
Qed.

(** X2.  The cursor shown while hovering: [update_cursor] never fails,
    leaves the geometry alone and picks the shape from the border tests
    alone: the arrow inside, the horizontal or vertical arrow on a single
    border, the forward diagonal on top-left and bottom-right, the
    backward diagonal on top-right and bottom-left. *)
Theorem update_cursor_shape :
  forall (pos : Qt.QPoint) (s : App),
    exists s' : App,
      update_cursor pos s = Ok tt s' /\
      geometry s' = geometry s /\
      let l := on_left s pos in
      let r := on_right s pos in
      let t := on_top s pos in
      let b := on_bottom s pos in
      (cursor s' = ArrowCursor <-> ~ (l \/ r) /\ ~ (t \/ b)) /\
      (cursor s' = SizeHorCursor <-> (l \/ r) /\ ~ (t \/ b)) /\
      (cursor s' = SizeVerCursor <-> ~ (l \/ r) /\ (t \/ b)) /\
      (cursor s' = SizeFDiagCursor <-> (l /\ t) \/ (r /\ b)) /\
      (cursor s' = SizeBDiagCursor <-> (r /\ t) \/ (l /\ b)).
Proof.
  intros pos s. unfold update_cursor, bind, get, setCursor, modify.
  unfold get_resize_edge, on_left, on_right, on_top, on_bottom.
  destruct (Z.ltb_spec (Qt.x pos) (resize_margin s)) as [Hx | Hx];
    [| destruct (Z.ltb_spec (self_width s - resize_margin s) (Qt.x pos)) as [Hx' | Hx']];
    (destruct (Z.ltb_spec (Qt.y pos) (resize_margin s)) as [Hy | Hy];
     [| destruct (Z.ltb_spec (self_height s - resize_margin s) (Qt.y pos)) as [Hy' | Hy']]);
    cbn [Z.lor Z.eqb orb Pos.lor Pos.eqb Pos.succ];
    (eexists; split; [reflexivity |]; split; [reflexivity |];
     cbn [cursor with_cursor];
     repeat split; intros; try discriminate; try reflexivity; try lia;
     try tauto).
Qed.

Lemma get_resize_edge_zero_iff :
  forall (s : App) (pos : Qt.QPoint),
    get_resize_edge s pos = 0 <->
    resize_margin s <= Qt.x pos <= self_width s - resize_margin s /\
    resize_margin s <= Qt.y pos <= self_height s - resize_margin s.
Proof.
  intros s pos. unfold get_resize_edge.
  destruct (Z.ltb_spec (Qt.x pos) (resize_margin s)) as [Hx | Hx];
    [| destruct (Z.ltb_spec (self_width s - resize_margin s) (Qt.x pos)) as [Hx' | Hx']];
    (destruct (Z.ltb_spec (Qt.y pos) (resize_margin s)) as [Hy | Hy];
     [| destruct (Z.ltb_spec (self_height s - resize_margin s) (Qt.y pos)) as [Hy' | Hy']]);
    cbn [Z.lor Pos.lor Pos.succ];
    split; intros; try discriminate; try reflexivity; lia.
Qed.

Lemma handle_mouse_press_run :
  forall (p : Qt.QPoint) (s : App),
    let edge := get_resize_edge s (mapFromGlobal s p) in
    handle_mouse_press p s =
    Ok tt (if negb (edge =? 0)
           then with_start_geometry (Some (geometry s))
                  (with_start_pos (Some p)
                     (with_resize_edge (Some edge) (with_resizing true s)))
           else with_window_start_pos (Some (self_pos s))
                  (with_drag_start_pos (Some p) (with_dragging true s))).
Proof.
  intros p s edge. unfold handle_mouse_press, bind, get, modify. fold edge.
  destruct (negb (edge =? 0)); reflexivity.
Qed.

(** X3.  A press starts a move or a resize and changes neither geometry
    nor cursor: inside the margin band (in global coordinates) it records
    the pointer and the window position and sets [dragging]; on a border
    it records pointer, geometry and edge mask and sets [resizing]. *)
Theorem handle_mouse_press_starts_gesture :
  forall (p : Qt.QPoint) (s : App),
    let g := geometry s in
    let m := resize_margin s in
    let edge := get_resize_edge s (mapFromGlobal s p) in
    exists s' : App,
      handle_mouse_press p s = Ok tt s' /\
      geometry s' = g /\
      cursor s' = cursor s /\
      (edge = 0 <->
       Qt.left g + m <= Qt.x p <= Qt.right g + 1 - m /\
       Qt.top g + m <= Qt.y p <= Qt.bottom g + 1 - m) /\
      (edge = 0 ->
       dragging s' = true /\ drag_start_pos s' = Some p /\
       window_start_pos s' = Some (Qt.topLeft g) /\
       resizing s' = resizing s) /\
      (edge <> 0 ->
       resize_state p g edge s' /\ dragging s' = dragging s).
Proof.
  intros p s g m edge.
  pose proof (get_resize_edge_zero_iff s (mapFromGlobal s p)) as Hzero.
  fold edge in Hzero.
  rewrite handle_mouse_press_run. fold edge.
  destruct (Z.eqb_spec edge 0) as [He | He]; cbn [negb].
  - eexists. split; [reflexivity |]. split; [reflexivity |].
    split; [reflexivity |]. split.
    { rewrite Hzero. unfold mapFromGlobal, self_pos, self_width, self_height,
        Qt.psub, Qt.topLeft, Qt.width, Qt.height, Qt.left, Qt.right, Qt.top,
        Qt.bottom, g, m. cbn [Qt.x Qt.y]. lia. }
    split; [intros _; repeat split | intros Hne; contradiction].
  - eexists. split; [reflexivity |]. split; [reflexivity |].
    split; [reflexivity |]. split.
    { rewrite Hzero. unfold mapFromGlobal, self_pos, self_width, self_height,
        Qt.psub, Qt.topLeft, Qt.width, Qt.height, Qt.left, Qt.right, Qt.top,
        Qt.bottom, g, m. cbn [Qt.x Qt.y]. lia. }
    split; [intros Hz; contradiction | intros _; repeat split].
Qed.



Lemma handle_mouse_release_run :
  forall s : App,
    handle_mouse_release s =
    Ok tt (with_cursor ArrowCursor
             (with_resize_edge None
                (with_dragging false (with_resizing false s)))).
Proof. reflexivity. Qed.

(** X5.  Once the button is released, motion never moves or resizes:
    after a release of the left button, whatever the state before, any
    number of move events leaves the geometry unchanged and the window
    idle, with no edge recorded. *)
Theorem moves_after_release_keep_geometry :
  forall (q : Qt.QPoint) (ms : list Qt.QPoint) (s : App),
    exists s' : App,
      dispatch (MouseButtonRelease LeftButton q :: map MouseMove ms) s
      = Ok tt s' /\
      geometry s' = geometry s /\
      idle_state s' /\
      resize_edge s' = None.
Proof.
  intros q ms s. cbn [dispatch eventFilter]. unfold bind at 1 2.
  rewrite handle_mouse_release_run. cbn [ret].
  set (s0 := with_cursor ArrowCursor _).
  assert (H0 : geometry s0 = geometry s /\ idle_state s0 /\ resize_edge s0 = None).
  { unfold s0, idle_state. cbn. auto. }
  clearbody s0. revert s0 H0.
  induction ms as [| p ms IH]; intros s0 (Hg & Hidle & He).
  - exists s0. cbn. auto.
  - cbn [map dispatch eventFilter]. unfold bind at 1 2.
    unfold handle_mouse_move, bind, get.
    destruct Hidle as [Hr Hd]. rewrite Hr, Hd.
    destruct (update_cursor_run (mapFromGlobal s0 p) s0) as (c & ->).
    cbn [ret]. apply IH. unfold idle_state. cbn. auto.
Qed.

(** X4.  While a gesture is active the cursor is not recomputed: a move
    event during a resize or a drag leaves the cursor as it is, and a move
    that raises leaves the whole state as it is. *)
Theorem handle_mouse_move_keeps_cursor :
  forall (p : Qt.QPoint) (s : App),
    resizing s = true \/ dragging s = true ->
    match handle_mouse_move p s with
    | Ok _ s' => cursor s' = cursor s
    | Raise _ s' => s' = s
    end.
Proof.
  intros p s Hact. unfold handle_mouse_move, bind, get.
  destruct (resizing s) eqn:Hr.
  - unfold handle_resize, bind, get. rewrite Hr. cbn [negb].
    destruct (start_pos s); cbn; [| reflexivity].
    destruct (start_geometry s); cbn; [| reflexivity].
    destruct (resize_edge s); cbn; [| reflexivity].
    destruct (resized_geometry _ _ _ _); cbn; reflexivity.
  - destruct Hact as [Hc | Hd]; [discriminate Hc |]. rewrite Hd.
    destruct (drag_start_pos s); cbn; [| reflexivity].
    destruct (window_start_pos s); cbn; reflexivity.
Qed.


Lemma moveTo_size :
  forall (p : Qt.QPoint) (r : Qt.QRect),
    Qt.width (Qt.moveTo p r) = Qt.width r /\
    Qt.height (Qt.moveTo p r) = Qt.height r /\
    Qt.topLeft (Qt.moveTo p r) = p.
Proof.
  intros [px py] r. unfold Qt.moveTo, Qt.moveTop, Qt.moveLeft, Qt.width,
    Qt.height, Qt.topLeft. cbn. repeat split; lia.
Qed.


(** What one event does to a consistent window. *)
Lemma eventFilter_invariant :
  forall (event : QEvent) (s : App),
    anchors_set s -> size_floor s ->
    match eventFilter event s with
    | Ok _ s' =>
        anchors_set s' /\ size_floor s' /\ aspect_ratio s' = aspect_ratio s /\
        minimum_width s' = minimum_width s /\
        minimum_height s' = minimum_height s
    | Raise e s' =>
        s' = s /\ (e = OverflowError \/ e = ValueError) /\
        (e = ValueError -> aspect_ratio s <> None)
    end.
Proof.
  intros event s [Hres Hdrag] Hsize.
  destruct event as [[] p | p | [] p |]; cbn [eventFilter];
    try (cbn; split; [split; assumption | split; [assumption | repeat split]]).
  - (* press *)
    unfold bind. rewrite handle_mouse_press_run.
    destruct (negb (get_resize_edge s (mapFromGlobal s p) =? 0)); cbn.
    + split; [| split; [exact Hsize | repeat split]].
      split; cbn; [intros _; do 3 eexists; repeat split | exact Hdrag].
    + split; [| split; [exact Hsize | repeat split]].
      split; cbn; [exact Hres | intros _; do 2 eexists; split; reflexivity].
  - (* move *)
    unfold bind at 1. unfold handle_mouse_move, bind, get.
    destruct (resizing s) eqn:Hr.
    + destruct (Hres eq_refl) as (p0 & g0 & edge & Hp & Hg & He).
      rewrite (handle_resize_run s p p0 g0 edge
                 (conj Hr (conj Hp (conj Hg He)))).
      destruct (resized_geometry edge g0 (Qt.psub p p0) (aspect_ratio s))
        as [g | e] eqn:Hgeo; cbn [ret].
      * split; [| split; [| repeat split]].
        -- split; cbn; [rewrite Hr | ]; assumption.
        -- destruct (resized_geometry_floor _ _ _ _ _ Hgeo) as [Hw Hh].
           unfold size_floor. cbn [geometry with_geometry].
           apply constrained_floor; assumption.
      * split; [reflexivity |].
        exact (resized_geometry_errors _ _ _ _ _ Hgeo).
    + destruct (dragging s) eqn:Hd.
      * destruct (Hdrag eq_refl) as (p0 & w0 & Hp & Hw).
        rewrite Hp, Hw. cbn.
        split; [| split; [| repeat split]].
        -- split; cbn; [rewrite Hr; discriminate | rewrite Hd; assumption].
        -- destruct (moveTo_size (Qt.padd w0 (Qt.psub p p0)) (geometry s))
             as (Hw' & Hh' & _).
           unfold size_floor in *. cbn. rewrite Hw', Hh'. exact Hsize.
      * destruct (update_cursor_run (mapFromGlobal s p) s) as (c & ->). cbn.
        split; [| split; [exact Hsize | repeat split]].
        split; cbn; [rewrite Hr | rewrite Hd]; discriminate.
  - (* release *)
    unfold bind. rewrite handle_mouse_release_run. cbn.
    split; [| split; [exact Hsize | repeat split]].
    split; cbn; discriminate.
Qed.

(** X7.  Pointer events keep the window consistent and at least 100x100:
    from a state whose active gesture has its anchors recorded and whose
    window is at least 100x100, every stream of events ends, normally or
    by an exception, in such a state; a normal end leaves the aspect ratio
    as it was; an exception is an [OverflowError] or a [ValueError], and a
    [ValueError] needs an aspect ratio. *)
Theorem dispatch_keeps_invariant :
  forall (events : list QEvent) (s : App),
    anchors_set s -> size_floor s ->
    match dispatch events s with
    | Ok _ s' =>
        anchors_set s' /\ size_floor s' /\ aspect_ratio s' = aspect_ratio s
    | Raise e s' =>
        anchors_set s' /\ size_floor s' /\
        (e = OverflowError \/ e = ValueError) /\
        (e = ValueError -> aspect_ratio s <> None)
    end.
Proof.
  induction events as [| event rest IH]; intros s Ha Hs.
  - cbn. auto.
  - cbn [dispatch]. unfold bind.
    pose proof (eventFilter_invariant event s Ha Hs) as Hstep.
    destruct (eventFilter event s) as [b s1 | e s1].
    + destruct Hstep as (Ha1 & Hs1 & Har1 & _).
      specialize (IH s1 Ha1 Hs1).
      destruct (dispatch rest s1) as [u s2 | e s2].
      * destruct IH as (Ha2 & Hs2 & Har2).
        split; [exact Ha2 |]. split; [exact Hs2 |]. congruence.
      * destruct IH as (Ha2 & Hs2 & He & Har2).
        split; [exact Ha2 |]. split; [exact Hs2 |]. split; [exact He |].
        rewrite <- Har1. exact Har2.
    + destruct Hstep as (-> & He & Har). auto.
Qed.

Lemma handle_mouse_move_resizing :
  forall (p p0 : Qt.QPoint) (g0 : Qt.QRect) (edge : Z) (s : App),
    resize_state p0 g0 edge s ->
    handle_mouse_move p s =
    match resized_geometry edge g0 (Qt.psub p p0) (aspect_ratio s) with
    | Val g => Ok tt (with_geometry (constrained s g) s)
    | Err e => Raise e s
    end.
Proof.
  intros p p0 g0 edge s Hs.
  unfold handle_mouse_move, bind, get.
  destruct Hs as (Hr & Hp & Hg & He). rewrite Hr.
  apply handle_resize_run. repeat split; assumption.
Qed.

Lemma resize_moves :
  forall (p0 : Qt.QPoint) (g0 : Qt.QRect) (edge : Z) (ms : list Qt.QPoint)
         (s : App),
    resize_state p0 g0 edge s ->
    (forall p, In p ms ->
       exists g, resized_geometry edge g0 (Qt.psub p p0) (aspect_ratio s) = Val g) ->
    exists s' : App,
      dispatch (map MouseMove ms) s = Ok tt s' /\
      resize_state p0 g0 edge s' /\
      aspect_ratio s' = aspect_ratio s /\
      minimum_width s' = minimum_width s /\
      minimum_height s' = minimum_height s /\
      match ms with
      | [] => geometry s' = geometry s
      | _ :: _ =>
          exists g : Qt.QRect,
            resized_geometry edge g0 (Qt.psub (last ms p0) p0) (aspect_ratio s)
            = Val g /\
            geometry s' = constrained s g
      end.
Proof.
  intros p0 g0 edge.
  induction ms as [| p ms IH]; intros s Hs Hall.
  - exists s. repeat split; try reflexivity; apply Hs.
  - cbn [map dispatch eventFilter]. unfold bind.
    rewrite (handle_mouse_move_resizing p p0 g0 edge s Hs).
    destruct (Hall p (or_introl eq_refl)) as (g & Hg). rewrite Hg. cbn [ret].
    set (s1 := with_geometry (constrained s g) s).
    assert (Hs1 : resize_state p0 g0 edge s1) by exact Hs.
    destruct (IH s1 Hs1) as (s' & Hrun & Hs' & Har & Hmw & Hmh & Hlast).
    { intros p' Hin. apply Hall. right. exact Hin. }
    exists s'. split; [exact Hrun |]. split; [exact Hs' |].
    split; [exact Har |]. split; [exact Hmw |]. split; [exact Hmh |].
    destruct ms as [| p' ms'].
    + cbn [last]. exists g. split; [exact Hg | exact Hlast].
    + exact Hlast.
Qed.

(** X8.  A resize follows the last position of the pointer: on a desktop
    (coordinates of 16 bits) and with an aspect ratio, if any, between
    1:256 and 256:1, a press on a border, any moves, then a release
    complete, leave the window idle and give it the geometry computed from
    the press geometry and the last move alone, bounded by the size
    constraints of the window; without a move the geometry is unchanged. *)
Theorem resize_gesture :
  forall (s : App) (p0 q : Qt.QPoint) (ms : list Qt.QPoint),
    let edge := get_resize_edge s (mapFromGlobal s p0) in
    edge <> 0 ->
    ratio_ok s ->
    rect_on_desk (geometry s) ->
    point_on_desk p0 ->
    Forall point_on_desk ms ->
    exists s' : App,
      dispatch (MouseButtonPress LeftButton p0
                  :: map MouseMove ms ++ [MouseButtonRelease LeftButton q]) s
      = Ok tt s' /\
      idle_state s' /\
      match ms with
      | [] => geometry s' = geometry s
      | _ :: _ =>
          exists g : Qt.QRect,
            resized_geometry edge (geometry s) (Qt.psub (last ms p0) p0)
              (aspect_ratio s) = Val g /\
            geometry s' = constrained s g
      end.
Proof.
  intros s p0 q ms edge Hedge Hratio Hrect Hp0 Hms.
  cbn [dispatch eventFilter]. unfold bind at 1 2.
  rewrite handle_mouse_press_run. fold edge.
  destruct (Z.eqb_spec edge 0) as [Hz | _]; [contradiction |]. cbn [negb ret].
  set (s1 := with_start_geometry _ _).
  assert (Hs1 : resize_state p0 (geometry s) edge s1).
  { unfold resize_state, s1. cbn. auto. }
  destruct (resize_moves p0 (geometry s) edge ms s1 Hs1)
    as (s2 & Hrun & Hs2 & Har & _ & _ & Hlast).
  { intros p Hin. apply resized_geometry_total; try assumption.
    rewrite Forall_forall in Hms. apply Hms. exact Hin. }
  rewrite dispatch_app, Hrun. cbn [dispatch eventFilter]. unfold bind.
  rewrite handle_mouse_release_run. cbn [ret].
  eexists. split; [reflexivity |].
  split; [split; reflexivity |]. exact Hlast.
Qed.

(* ------------------------------------------------------------------ *)
(** ** The geometry a rotation sets *)

(** The size that fits the screen, of a proposed size below 2^26, fits an
    [int]. *)
Lemma rotate_fit_range :
  forall (screen : option Qt.QRect) (new_w new_h : Z),
    (forall screen_geo, screen = Some screen_geo -> rect_in_range screen_geo) ->
    0 < new_w < 2 ^ 26 -> 0 < new_h < 2 ^ 26 ->
    exists w' h' : Z,
      rotate_fit screen new_w new_h = Val (w', h') /\
      int_range w' /\ int_range h'.
Proof.
  intros screen new_w new_h Hscreen Hw Hh. unfold rotate_fit.
  assert (Hin : int_range new_w /\ int_range new_h)
    by (unfold int_range; split; lia).
  destruct screen as [sg |];
    [| exists new_w, new_h; split; [reflexivity | exact Hin]].
  destruct ((Qt.width sg <? new_w) || (Qt.height sg <? new_h));
    [| exists new_w, new_h; split; [reflexivity | exact Hin]].
  destruct (Hscreen sg eq_refl) as (_ & _ & _ & _ & Hsw & Hsh).
  unfold Qt.QWIDGETSIZE_MAX in Hsw, Hsh.
  destruct (truediv_sizes_canonical (Qt.width sg) new_w ltac:(lia) ltac:(lia))
    as (scale_w & -> & Hcw).
  destruct (truediv_sizes_canonical (Qt.height sg) new_h ltac:(lia) ltac:(lia))
    as (scale_h & -> & Hch).
  cbn [exc_bind].
  pose proof (min3_one_below scale_w scale_h Hcw Hch) as Hscale.
  assert (Hfw : float_below 27 (PyFloat.of_int new_w))
    by (apply (of_int_below new_w 26); lia).
  assert (Hfh : float_below 27 (PyFloat.of_int new_h))
    by (apply (of_int_below new_h 26); lia).
  pose proof (mul_below 27 1 _ _ Hfw Hscale ltac:(lia) ltac:(lia)) as Hmw.
  pose proof (mul_below 27 1 _ _ Hfh Hscale ltac:(lia) ltac:(lia)) as Hmh.
  destruct (to_int_bound 29 _ ltac:(lia) Hmw) as (w' & -> & Hw').
  destruct (to_int_bound 29 _ ltac:(lia) Hmh) as (h' & -> & Hh').
  cbn [exc_bind]. exists w', h'. split; [reflexivity |].
  unfold int_range. split; lia.
Qed.

Lemma rotate_image_no_image :
  forall (screen : option Qt.QRect) (a : Angle) (s : App),
    (forall pm, pixmap s = Some pm -> pm_isNull pm = true) ->
    rotate_image screen a s = Ok tt s.
Proof.
  intros screen a s Hno. unfold rotate_image, bind, get.
  destruct (pixmap s) as [pm |]; [| reflexivity].
  rewrite (Hno pm eq_refl). reflexivity.
Qed.

(** Whatever a rotation of a shown image ends in, pixmap and aspect ratio
    are the turned ones. *)
Lemma rotate_image_outcome :
  forall (screen : option Qt.QRect) (a : Angle) (s : App) (pm : QPixmap),
    pixmap s = Some pm ->
    pm_isNull pm = false ->
    match rotate_image screen a s with
    | Ok _ s' | Raise _ s' =>
        pixmap s' = Some (transformed pm a) /\
        pm_isNull (transformed pm a) = false /\
        aspect_ratio s' = Some (PyFloat.div (PyFloat.of_int (pm_height pm))
                                            (PyFloat.of_int (pm_width pm)))
    end.
Proof.
  intros screen a s pm Hpix Hnull.
  destruct (rotate_image_run screen a s pm Hpix Hnull)
    as (s1 & _ & _ & _ & Hpix1 & Hnull1 & Har1 & _ & _ & ->).
  destruct (rotate_fit screen _ _) as [[nw nh] | e]; [| auto].
  destruct (PyQt.QRect 0 0 nw nh) as [rect | e]; [| auto].
  destruct screen as [sg |]; [| auto].
  destruct (clamp_top_left sg _) as [g | e]; [| auto].
  cbn [pixmap aspect_ratio with_geometry]. auto.
Qed.

(** The outcome of a rotation whose fitted size is known. *)
Lemma rotate_image_geometry :
  forall (screen_geo : Qt.QRect) (a : Angle) (s : App) (pm : QPixmap)
         (new_w new_h : Z),
    pixmap s = Some pm ->
    pm_isNull pm = false ->
    rotate_fit (Some screen_geo) (fst (rotate_proposed_size s))
               (snd (rotate_proposed_size s)) = Val (new_w, new_h) ->
    int_range new_w -> int_range new_h ->
    int_range (Qt.left screen_geo) -> int_range (Qt.top screen_geo) ->
    exists s' : App,
      rotate_image (Some screen_geo) a s = Ok tt s' /\
      (let centered := Qt.moveCenter (Qt.center (geometry s))
                                     (Qt.mkQRect 0 0 new_w new_h) in
       Qt.left (geometry s') = Z.max (Qt.left centered) (Qt.left screen_geo) /\
       Qt.top (geometry s') = Z.max (Qt.top centered) (Qt.top screen_geo) /\
       Qt.width (geometry s') = bounded (minimum_width s) new_w /\
       Qt.height (geometry s') = bounded (minimum_height s) new_h) /\
      title_bar_height s' = title_bar_height s /\
      bottom_bar_height s' = bottom_bar_height s /\
      pixmap s' = Some (transformed pm a) /\
      pm_isNull (transformed pm a) = false /\
      minimum_width s' = minimum_width s /\
      minimum_height s' = minimum_height s.
Proof.
  intros sg a s pm nw nh Hpix Hnull Hfit Hnw Hnh Hl Ht.
  destruct (rotate_image_run (Some sg) a s pm Hpix Hnull)
    as (s1 & _ & Htb & Hbb & Hpix1 & Hnull1 & _ & Hmw1 & Hmh1 & Hrun).
  rewrite Hfit in Hrun.
  rewrite (QRect_ok 0 0 nw nh) in Hrun
    by (try assumption; unfold int_range; lia).
  destruct (clamp_top_left_ok sg
              (Qt.moveCenter (Qt.center (geometry s)) (Qt.mkQRect 0 0 nw nh))
              Hl Ht) as (g & Hclamp).
  rewrite Hclamp in Hrun.
  eexists. split; [exact Hrun |].
  cbn [geometry with_geometry title_bar_height bottom_bar_height pixmap
       minimum_width minimum_height].
  split; [| repeat split; assumption].
  cbv zeta.
  destruct (clamp_top_left_val _ _ _ Hclamp) as (Hgl & Hgt & Hgw & Hgh).
  destruct (constrained_spec s g) as (Hcl & Hct & Hcw & Hch).
  cbv zeta in Hcl, Hct, Hcw, Hch.
  destruct (moveCenter_size (Qt.center (geometry s)) nw nh) as [Hmw Hmh].
  rewrite Hcl, Hct, Hcw, Hch, Hgl, Hgt, Hgw, Hgh, Hmw, Hmh.
  repeat split.
Qed.

(** With a screen, a rotation of a shown image completes. *)
Lemma rotate_image_with_screen :
  forall (screen_geo : Qt.QRect) (a : Angle) (s : App) (pm : QPixmap),
    pixmap s = Some pm ->
    pm_isNull pm = false ->
    chrome_in_range s ->
    rect_in_range (geometry s) ->
    rect_in_range screen_geo ->
    exists (new_w new_h : Z) (s' : App),
      rotate_fit (Some screen_geo) (fst (rotate_proposed_size s))
                 (snd (rotate_proposed_size s)) = Val (new_w, new_h) /\
      rotate_image (Some screen_geo) a s = Ok tt s' /\
      let centered := Qt.moveCenter (Qt.center (geometry s))
                                    (Qt.mkQRect 0 0 new_w new_h) in
      Qt.left (geometry s') = Z.max (Qt.left centered) (Qt.left screen_geo) /\
      Qt.top (geometry s') = Z.max (Qt.top centered) (Qt.top screen_geo) /\
      Qt.width (geometry s') = bounded (minimum_width s) new_w /\
      Qt.height (geometry s') = bounded (minimum_height s) new_h.
Proof.
  intros sg a s pm Hpix Hnull Hchrome Hgeo Hsg.
  destruct (rotate_proposed_size_range s Hchrome Hgeo) as [Hw Hh].
  destruct (rotate_fit_range (Some sg) (fst (rotate_proposed_size s))
              (snd (rotate_proposed_size s))
              ltac:(intros ? [= <-]; exact Hsg)
              ltac:(lia) ltac:(lia))
    as (nw & nh & Hfit & Hnw & Hnh).
  destruct Hsg as (Hl & Ht & _).
  destruct (rotate_image_geometry sg a s pm nw nh Hpix Hnull Hfit Hnw Hnh Hl Ht)
    as (s' & Hrun & Hgeom & _).
  exists nw, nh, s'. split; [exact Hfit |]. split; [exact Hrun | exact Hgeom].
Qed.

(** X15.  [rotate_image] fails exactly when an image is shown and no screen
    is known; the exception is then [UnboundLocalError] and the geometry
    is the one before the call; with no image, or a null one, the call
    changes nothing. *)
Theorem rotate_image_raises_iff :
  forall (screen : option Qt.QRect) (a : Angle) (s : App),
    chrome_in_range s ->
    rect_in_range (geometry s) ->
    (forall screen_geo, screen = Some screen_geo -> rect_in_range screen_geo) ->
    ((exists e s', rotate_image screen a s = Raise e s') <->
     (screen = None /\
      exists pm, pixmap s = Some pm /\ pm_isNull pm = false)) /\
    (forall e s',
        rotate_image screen a s = Raise e s' ->
        e = UnboundLocalError /\ geometry s' = geometry s) /\
    ((forall pm, pixmap s = Some pm -> pm_isNull pm = true) ->
     rotate_image screen a s = Ok tt s).
Proof.
  intros screen a s Hchrome Hgeo Hscreen.
  assert (Hcases :
            (forall pm, pixmap s = Some pm -> pm_isNull pm = true) \/
            (exists pm, pixmap s = Some pm /\ pm_isNull pm = false)).
  { destruct (pixmap s) as [pm |]; [| left; discriminate].
    destruct (pm_isNull pm) eqn:Hnull.
    - left. intros pm' [= <-]. exact Hnull.
    - right. exists pm. split; [reflexivity | exact Hnull]. }
  split; [| split]; [| | apply rotate_image_no_image].
  - split.
    + intros (e & s' & Hrun).
      destruct Hcases as [Hno | (pm & Hpix & Hnull)].
      * rewrite (rotate_image_no_image screen a s Hno) in Hrun.
        discriminate Hrun.
      * destruct screen as [sg |]; [| split; [reflexivity | eauto]].
        exfalso.
        destruct (rotate_image_with_screen sg a s pm Hpix Hnull Hchrome Hgeo
                    (Hscreen sg eq_refl))
          as (nw & nh & s'' & _ & Hok & _).
        rewrite Hok in Hrun. discriminate Hrun.
    + intros (-> & pm & Hpix & Hnull).
      destruct (rotate_image_no_screen a s pm Hpix Hnull Hchrome Hgeo)
        as (s' & Hrun & _).
      eauto.
  - intros e s' Hrun.
    destruct Hcases as [Hno | (pm & Hpix & Hnull)].
    + rewrite (rotate_image_no_image screen a s Hno) in Hrun.
      discriminate Hrun.
    + destruct screen as [sg |].
      * destruct (rotate_image_with_screen sg a s pm Hpix Hnull Hchrome Hgeo
                    (Hscreen sg eq_refl))
          as (nw & nh & s'' & _ & Hok & _).
        rewrite Hok in Hrun. discriminate Hrun.
      * destruct (rotate_image_no_screen a s pm Hpix Hnull Hchrome Hgeo)
          as (s'' & Hraise & Hg).
        rewrite Hraise in Hrun. injection Hrun as <- <-.
        split; [reflexivity | exact Hg].
Qed.

(** C9, as stated: the window is not always centred on the previous
    centre.  The window is shown and a banner of 882x167 pixels is opened:
    the window is 900x250 at (510,415).  One rotation asks for the
    rectangle 185 wide and 965 high centred on (959,539); Qt widens it to
    the minimum width 294 from its top-left corner (867,57), so that the
    window is neither 185 wide nor centred on (959,539). *)
Lemma rotate_image_widened_off_centre :
  exists s1 s2 : App,
    perform_all Shown.banner_opened (init (Qt.mkQPoint 100 100)) = Ok tt s1 /\
    geometry s1 = Qt.mkQRect 510 415 900 250 /\
    rotate_fit (Some Scenario.screen) (fst (rotate_proposed_size s1))
               (snd (rotate_proposed_size s1)) = Val (185, 965) /\
    Qt.center (geometry s1) = Qt.mkQPoint 959 539 /\
    rotate_image (Some Scenario.screen) RotateRight s1 = Ok tt s2 /\
    geometry s2 = Qt.mkQRect 867 57 294 965 /\
    Qt.left (geometry s2) + Qt.right (geometry s2) - 2 * 959 = 109.
Proof.
  eexists. eexists.
  split; [vm_compute; reflexivity |].
  split; [reflexivity |].
  split; [vm_compute; reflexivity |].
  split; [reflexivity |].
  split; [vm_compute; reflexivity |].
  split; reflexivity.
Qed.

(** C9, amended.  With a screen, the rotation recompute builds the
    rectangle of the (swapped, possibly scaled) size, centres it on the
    centre of the previous geometry, then moves it right or down, size
    unchanged, only as far as needed for its top-left corner not to lie
    left of or above the origin of the usable screen area.  The window
    takes the top-left corner of that rectangle, and its size bounded by
    the size constraints of the window: it is that rectangle whenever the
    size lies between the minimum size and the maximum size of the window.
    The right and bottom edges are not compared with the screen: a wide
    window inside the screen, next to its bottom border, ends below that
    border, and a tall one next to the right border ends beyond it. *)
Theorem rotate_image_recenters_and_clamps_top_left :
  (forall (screen_geo : Qt.QRect) (a : Angle) (s : App) (pm : QPixmap),
      pixmap s = Some pm ->
      pm_isNull pm = false ->
      chrome_in_range s ->
      rect_in_range (geometry s) ->
      rect_in_range screen_geo ->
      exists (new_w new_h : Z) (s' : App),
        rotate_fit (Some screen_geo) (fst (rotate_proposed_size s))
                   (snd (rotate_proposed_size s)) = Val (new_w, new_h) /\
        rotate_image (Some screen_geo) a s = Ok tt s' /\
        let c := Qt.center (geometry s) in
        let centered := Qt.moveCenter c (Qt.mkQRect 0 0 new_w new_h) in
        Qt.width centered = new_w /\
        Qt.height centered = new_h /\
        Z.abs (Qt.left centered + Qt.right centered - 2 * Qt.x c) <= 1 /\
        Z.abs (Qt.top centered + Qt.bottom centered - 2 * Qt.y c) <= 1 /\
        Qt.left (geometry s') = Z.max (Qt.left centered) (Qt.left screen_geo) /\
        Qt.top (geometry s') = Z.max (Qt.top centered) (Qt.top screen_geo) /\
        Qt.width (geometry s') = bounded (minimum_width s) new_w /\
        Qt.height (geometry s') = bounded (minimum_height s) new_h /\
        (minimum_width s <= new_w <= Qt.QWIDGETSIZE_MAX ->
         minimum_height s <= new_h <= Qt.QWIDGETSIZE_MAX ->
         geometry s' =
         Qt.mkQRect (Z.max (Qt.left centered) (Qt.left screen_geo))
                    (Z.max (Qt.top centered) (Qt.top screen_geo))
                    new_w new_h)) /\
  (exists s' : App,
      Qt.right (geometry Shown.tall_window) <= Qt.right Scenario.screen /\
      rotate_image (Some Scenario.screen) RotateRight Shown.tall_window
      = Ok tt s' /\
      Qt.right Scenario.screen < Qt.right (geometry s')) /\
  (exists s' : App,
      Qt.bottom (geometry Shown.wide_window) <= Qt.bottom Scenario.screen /\
      rotate_image (Some Scenario.screen) RotateRight Shown.wide_window
      = Ok tt s' /\
      Qt.bottom Scenario.screen < Qt.bottom (geometry s')).
Proof.
  split; [| split].
  - intros sg a s pm Hpix Hnull Hchrome Hgeo Hsg.
    destruct (rotate_image_with_screen sg a s pm Hpix Hnull Hchrome Hgeo Hsg)
      as (nw & nh & s' & Hfit & Hrun & Hl & Ht & Hw & Hh).
    exists nw, nh, s'. split; [exact Hfit |]. split; [exact Hrun |].
    cbv zeta in *.
    destruct (moveCenter_size (Qt.center (geometry s)) nw nh) as [Hmw Hmh].
    destruct (moveCenter_centered (Qt.center (geometry s)) (Qt.mkQRect 0 0 nw nh))
      as [Hcx Hcy].
    cbv zeta in Hcx, Hcy.
    split; [exact Hmw |]. split; [exact Hmh |].
    split; [exact Hcx |]. split; [exact Hcy |].
    split; [exact Hl |]. split; [exact Ht |].
    split; [exact Hw |]. split; [exact Hh |].
    intros Hbw Hbh. apply rect_eq; try assumption.
    + rewrite Hw. apply bounded_id. exact Hbw.
    + rewrite Hh. apply bounded_id. exact Hbh.
  - eexists. split; [vm_compute; discriminate |].
    split; [vm_compute; reflexivity | vm_compute; reflexivity].
  - eexists. split; [vm_compute; discriminate |].
    split; [vm_compute; reflexivity | vm_compute; reflexivity].
Qed.

Lemma rect_in_range_check :
  forall r : Qt.QRect,
    (- 2 ^ 31 <=? Qt.x1 r) && (Qt.x1 r <? 2 ^ 31) &&
    ((- 2 ^ 31 <=? Qt.y1 r) && (Qt.y1 r <? 2 ^ 31)) &&
    ((- 2 ^ 31 <=? Qt.x2 r) && (Qt.x2 r <? 2 ^ 31)) &&
    ((- 2 ^ 31 <=? Qt.y2 r) && (Qt.y2 r <? 2 ^ 31)) &&
    ((0 <=? Qt.width r) && (Qt.width r <=? Qt.QWIDGETSIZE_MAX)) &&
    ((0 <=? Qt.height r) && (Qt.height r <=? Qt.QWIDGETSIZE_MAX)) = true ->
    rect_in_range r.
Proof.
  intros r H.
  rewrite !andb_true_iff, !Z.leb_le, !Z.ltb_lt in H.
  unfold rect_in_range, int_range, Qt.left, Qt.top, Qt.right, Qt.bottom.
  tauto.
Qed.

Lemma init_chrome_in_range :
  forall s : App,
    title_bar_height s = 30 -> bottom_bar_height s = 35 -> chrome_in_range s.
Proof.
  intros s Ht Hb. unfold chrome_in_range, Qt.QWIDGETSIZE_MAX.
  rewrite Ht, Hb. lia.
Qed.

Lemma screen_in_range : rect_in_range Scenario.screen.
Proof. apply rect_in_range_check. reflexivity. Qed.

Lemma rotate_image_recenters_and_clamps_top_left_witness :
  exists s' : App,
    rotate_image (Some Scenario.screen) RotateLeft Shown.wide_window
    = Ok tt s' /\
    geometry s' = Qt.mkQRect 382 317 335 965.
Proof.
  destruct rotate_image_recenters_and_clamps_top_left as (H & _ & _).
  destruct (H Scenario.screen RotateLeft Shown.wide_window
              (mkQPixmap 600 400) eq_refl eq_refl)
    as (nw & nh & s' & Hfit & Hrun & _ & _ & _ & _ & _ & _ & _ & _ & Hgeo).
  - apply init_chrome_in_range; reflexivity.
  - apply rect_in_range_check. reflexivity.
  - exact screen_in_range.
  - exists s'. split; [exact Hrun |].
    assert (Hf : rotate_fit (Some Scenario.screen)
                   (fst (rotate_proposed_size Shown.wide_window))
                   (snd (rotate_proposed_size Shown.wide_window))
                 = Val (335, 965)) by (vm_compute; reflexivity).
    rewrite Hf in Hfit. injection Hfit as <- <-.
    rewrite Hgeo; [reflexivity | |]; vm_compute; split; discriminate.
Defined.

Section RotationSwap.

Variable screen_geo : Qt.QRect.
Hypothesis screen_range : rect_in_range screen_geo.

Lemma rotation_swap_step :
  forall (a : Angle) (s : App),
    chrome_in_range s ->
    shows_content s ->
    content_h s + rotate_extra_w <= Qt.width screen_geo ->
    content_w s + rotate_extra_h s <= Qt.height screen_geo ->
    minimum_width s <= content_h s + rotate_extra_w ->
    minimum_height s <= content_w s + rotate_extra_h s ->
    exists s' : App,
      rotate_image (Some screen_geo) a s = Ok tt s' /\
      shows_content s' /\
      content_w s' = content_h s /\
      content_h s' = content_w s /\
      rotate_extra_h s' = rotate_extra_h s /\
      minimum_width s' = minimum_width s /\
      minimum_height s' = minimum_height s /\
      chrome_in_range s'.
Proof.
  intros a s [Hct Hcb] ((pm & Hpix & Hnull) & Hcw & Hch) Hfw Hfh Hmw Hmh.
  destruct screen_range as (Hl & Ht & _ & _ & Hsw & Hsh).
  assert (Hprop : rotate_proposed_size s
                  = (content_h s + rotate_extra_w, content_w s + rotate_extra_h s)).
  { unfold rotate_proposed_size, content_w, content_h in *.
    rewrite !Z.max_r by lia. reflexivity. }
  assert (Hfit : rotate_fit (Some screen_geo) (fst (rotate_proposed_size s))
                   (snd (rotate_proposed_size s))
                 = Val (content_h s + rotate_extra_w, content_w s + rotate_extra_h s)).
  { rewrite Hprop. cbn [fst snd]. unfold rotate_fit.
    destruct (Z.ltb_spec (Qt.width screen_geo) (content_h s + rotate_extra_w));
      [lia |].
    destruct (Z.ltb_spec (Qt.height screen_geo) (content_w s + rotate_extra_h s));
      [lia | reflexivity]. }
  assert (Hex0 : 53 <= rotate_extra_h s).
  { unfold rotate_extra_h. destruct (bottom_bar_height s <? 35) eqn:E; [lia |].
    apply Z.ltb_ge in E. lia. }
  unfold Qt.QWIDGETSIZE_MAX in Hsw, Hsh.
  assert (Hnw : int_range (content_h s + rotate_extra_w))
    by (unfold int_range, rotate_extra_w in *; lia).
  assert (Hnh : int_range (content_w s + rotate_extra_h s))
    by (unfold int_range; lia).
  destruct (rotate_image_geometry screen_geo a s pm _ _ Hpix Hnull Hfit Hnw
              Hnh Hl Ht)
    as (s' & Hrun & (_ & _ & Hw & Hh) & Htb & Hbb & Hpix1 & Hnull1 & Hmw1 & Hmh1).
  exists s'. split; [exact Hrun |].
  rewrite bounded_id in Hw by (unfold Qt.QWIDGETSIZE_MAX; lia).
  rewrite bounded_id in Hh by (unfold Qt.QWIDGETSIZE_MAX; lia).
  assert (Hchrome' : chrome_in_range s')
    by (unfold chrome_in_range; rewrite Htb, Hbb; split; assumption).
  assert (Hex : rotate_extra_h s' = rotate_extra_h s).
  { unfold rotate_extra_h. rewrite Htb, Hbb. reflexivity. }
  assert (Hcw' : content_w s' = content_h s).
  { unfold content_w at 1. rewrite Hw. lia. }
  assert (Hch' : content_h s' = content_w s).
  { unfold content_h at 1. rewrite Hex, Hh. lia. }
  split.
  { split; [exists (transformed pm a); split; [exact Hpix1 | exact Hnull1] |].
    rewrite Hcw', Hch'. split; assumption. }
  split; [exact Hcw' |]. split; [exact Hch' |]. split; [exact Hex |].
  split; [exact Hmw1 |]. split; [exact Hmh1 | exact Hchrome'].
Qed.

Lemma rotations_two :
  forall (a1 a2 : Angle) (s : App),
    chrome_in_range s ->
    shows_content s ->
    content_h s + rotate_extra_w <= Qt.width screen_geo ->
    content_w s + rotate_extra_h s <= Qt.height screen_geo ->
    minimum_width s <= content_h s + rotate_extra_w ->
    minimum_height s <= content_w s + rotate_extra_h s ->
    Qt.width (geometry s) <= Qt.width screen_geo ->
    Qt.height (geometry s) <= Qt.height screen_geo ->
    minimum_width s <= Qt.width (geometry s) ->
    minimum_height s <= Qt.height (geometry s) ->
    exists s2 : App,
      rotations (Some screen_geo) [a1; a2] s = Ok tt s2 /\
      shows_content s2 /\
      content_w s2 = content_w s /\
      content_h s2 = content_h s /\
      rotate_extra_h s2 = rotate_extra_h s /\
      minimum_width s2 = minimum_width s /\
      minimum_height s2 = minimum_height s /\
      chrome_in_range s2.
Proof.
  intros a1 a2 s Hc Hs Hfw Hfh Hmw Hmh Hw Hh Hmw0 Hmh0.
  destruct (rotation_swap_step a1 s Hc Hs Hfw Hfh Hmw Hmh)
    as (s1 & Hrun1 & Hs1 & Hcw1 & Hch1 & Hex1 & Hmw1 & Hmh1 & Hc1).
  assert (Hfw1 : content_h s1 + rotate_extra_w <= Qt.width screen_geo).
  { rewrite Hch1. unfold content_w. lia. }
  assert (Hfh1 : content_w s1 + rotate_extra_h s1 <= Qt.height screen_geo).
  { rewrite Hcw1, Hex1. unfold content_h. lia. }
  assert (Hmw1' : minimum_width s1 <= content_h s1 + rotate_extra_w).
  { rewrite Hmw1, Hch1. unfold content_w. lia. }
  assert (Hmh1' : minimum_height s1 <= content_w s1 + rotate_extra_h s1).
  { rewrite Hmh1, Hcw1, Hex1. unfold content_h. lia. }
  destruct (rotation_swap_step a2 s1 Hc1 Hs1 Hfw1 Hfh1 Hmw1' Hmh1')
    as (s2 & Hrun2 & Hs2 & Hcw2 & Hch2 & Hex2 & Hmw2 & Hmh2 & Hc2).
  exists s2. split.
  { cbn [rotations]. unfold bind. rewrite Hrun1, Hrun2. reflexivity. }
  split; [exact Hs2 |].
  split; [congruence |]. split; [congruence |]. split; [congruence |].
  split; [congruence |]. split; [congruence | exact Hc2].
Qed.

End RotationSwap.

(** C8, as stated: the rotated window is not always the swapped content
    plus the chrome.  The window is shown and a banner of 882x167 pixels
    is opened: the window is 900x250 and its content box (size minus
    chrome) 882x167.  One rotation, with no scaling, asks for 185x965; Qt
    widens the window to its minimum width 294, so that the content box is
    276x882, not 167x882, and four rotations give 882x276, whose ratio is
    not the original one. *)
Lemma rotate_image_widens_content :
  exists s1 s2 s5 : App,
    perform_all Shown.banner_opened (init (Qt.mkQPoint 100 100)) = Ok tt s1 /\
    (content_w s1, content_h s1) = (882, 167) /\
    rotate_image (Some Scenario.screen) RotateRight s1 = Ok tt s2 /\
    (content_w s2, content_h s2) = (276, 882) /\
    content_w s2 <> content_h s1 /\
    rotations (Some Scenario.screen)
      [RotateRight; RotateRight; RotateRight; RotateRight] s1 = Ok tt s5 /\
    (content_w s5, content_h s5) = (882, 276) /\
    ~ (content_aspect s5 == content_aspect s1)%Q.
Proof.
  eexists. eexists. eexists.
  split; [vm_compute; reflexivity |].
  split; [reflexivity |].
  split; [vm_compute; reflexivity |].
  split; [reflexivity |].
  split; [vm_compute; discriminate |].
  split; [vm_compute; reflexivity |].
  split; [reflexivity |].
  vm_compute. discriminate.
Qed.

(** C8, amended.  On a window that shows an image and whose content box
    (size minus chrome) is at least 1x1, with a screen large enough for the
    swapped size and a minimum size of the window that is not above the
    swapped size (the window with its chrome), one rotation swaps the content width and the content
    height; if the screen is also large enough for the present size, and
    the present size not below the minimum size, four successive rotations
    return the content width and height, hence the content aspect ratio,
    to their original values. *)
Theorem rotate_image_swaps_content :
  forall (screen_geo : Qt.QRect) (s : App),
    rect_in_range screen_geo ->
    chrome_in_range s ->
    shows_content s ->
    content_h s + rotate_extra_w <= Qt.width screen_geo ->
    content_w s + rotate_extra_h s <= Qt.height screen_geo ->
    minimum_width s <= content_h s + rotate_extra_w ->
    minimum_height s <= content_w s + rotate_extra_h s ->
    (forall a : Angle,
        exists s' : App,
          rotate_image (Some screen_geo) a s = Ok tt s' /\
          content_w s' = content_h s /\
          content_h s' = content_w s) /\
    (Qt.width (geometry s) <= Qt.width screen_geo ->
     Qt.height (geometry s) <= Qt.height screen_geo ->
     minimum_width s <= Qt.width (geometry s) ->
     minimum_height s <= Qt.height (geometry s) ->
     forall a1 a2 a3 a4 : Angle,
       exists s4 : App,
         rotations (Some screen_geo) [a1; a2; a3; a4] s = Ok tt s4 /\
         content_w s4 = content_w s /\
         content_h s4 = content_h s /\
         content_aspect s4 = content_aspect s).
Proof.
  intros sg s Hsg Hc Hs Hfw Hfh Hmw Hmh. split.
  - intros a.
    destruct (rotation_swap_step sg Hsg a s Hc Hs Hfw Hfh Hmw Hmh)
      as (s' & Hrun & _ & Hcw & Hch & _).
    exists s'. repeat split; assumption.
  - intros Hw Hh Hmw0 Hmh0 a1 a2 a3 a4.
    destruct (rotations_two sg Hsg a1 a2 s Hc Hs Hfw Hfh Hmw Hmh Hw Hh Hmw0 Hmh0)
      as (s2 & Hrun2 & Hs2 & Hcw2 & Hch2 & Hex2 & Hmw2 & Hmh2 & Hc2).
    assert (Hfw2 : content_h s2 + rotate_extra_w <= Qt.width sg)
      by (rewrite Hch2; exact Hfw).
    assert (Hfh2 : content_w s2 + rotate_extra_h s2 <= Qt.height sg)
      by (rewrite Hcw2, Hex2; exact Hfh).
    assert (Hmw2' : minimum_width s2 <= content_h s2 + rotate_extra_w)
      by (rewrite Hmw2, Hch2; exact Hmw).
    assert (Hmh2' : minimum_height s2 <= content_w s2 + rotate_extra_h s2)
      by (rewrite Hmh2, Hcw2, Hex2; exact Hmh).
    assert (Hw2 : Qt.width (geometry s2) <= Qt.width sg).
    { unfold content_w in Hcw2. lia. }
    assert (Hh2 : Qt.height (geometry s2) <= Qt.height sg).
    { unfold content_h in Hch2. rewrite Hex2 in Hch2. lia. }
    assert (Hmw02 : minimum_width s2 <= Qt.width (geometry s2)).
    { rewrite Hmw2. unfold content_w in Hcw2. lia. }
    assert (Hmh02 : minimum_height s2 <= Qt.height (geometry s2)).
    { rewrite Hmh2. unfold content_h in Hch2. rewrite Hex2 in Hch2. lia. }
    destruct (rotations_two sg Hsg a3 a4 s2 Hc2 Hs2 Hfw2 Hfh2 Hmw2' Hmh2' Hw2 Hh2
                Hmw02 Hmh02)
      as (s4 & Hrun4 & _ & Hcw4 & Hch4 & _).
    exists s4. split.
    { cbn [rotations] in *. unfold bind in *.
      destruct (rotate_image (Some sg) a1 s) as [u1 t1 | e1 t1]; [| discriminate].
      destruct (rotate_image (Some sg) a2 t1) as [u2 t2 | e2 t2]; [| discriminate].
      unfold ret in Hrun2. assert (Ht2 : t2 = s2) by congruence.
      rewrite Ht2. exact Hrun4. }
    assert (Hcw : content_w s4 = content_w s) by congruence.
    assert (Hch : content_h s4 = content_h s) by congruence.
    split; [exact Hcw |]. split; [exact Hch |].
    unfold content_aspect. rewrite Hcw, Hch. reflexivity.
Qed.

Lemma rotate_image_swaps_content_witness :
  exists s4 : App,
    rotations (Some Scenario.screen)
      [RotateRight; RotateLeft; RotateRight; RotateRight] Shown.window_3_2
    = Ok tt s4 /\
    content_w s4 = 482 /\ content_h s4 = 317.
Proof.
  assert (Hs : shows_content Shown.window_3_2).
  { split; [exists (mkQPixmap 600 400); split; reflexivity |].
    split; vm_compute; discriminate. }
  destruct (rotate_image_swaps_content Scenario.screen Shown.window_3_2
              screen_in_range
              ltac:(apply init_chrome_in_range; reflexivity) Hs)
    as (_ & H4).
  - vm_compute. discriminate.
  - vm_compute. discriminate.
  - vm_compute. discriminate.
  - vm_compute. discriminate.
  - destruct (H4 ltac:(vm_compute; discriminate) ltac:(vm_compute; discriminate)
                ltac:(vm_compute; discriminate) ltac:(vm_compute; discriminate)
                RotateRight RotateLeft RotateRight RotateRight)
      as (s4 & Hrun & Hcw & Hch & _).
    exists s4. split; [exact Hrun |]. split; [exact Hcw | exact Hch].
Defined.

(** X16.  Two quarter turns, in any two directions, restore the dimensions
    of the pixmap, and the aspect ratio stored is again width / height of
    the pixmap. *)
Theorem rotations_two_restore_pixmap :
  forall (screen : option Qt.QRect) (a1 a2 : Angle) (s s2 : App)
         (pm : QPixmap),
    pixmap s = Some pm ->
    pm_isNull pm = false ->
    rotations screen [a1; a2] s = Ok tt s2 ->
    pixmap s2 = Some pm /\
    aspect_ratio s2 = Some (PyFloat.div (PyFloat.of_int (pm_width pm))
                                        (PyFloat.of_int (pm_height pm))).
Proof.
  intros screen a1 a2 s s2 pm Hpix Hnull Hrun.
  cbn [rotations] in Hrun. unfold bind, ret in Hrun.
  pose proof (rotate_image_outcome screen a1 s pm Hpix Hnull) as H1.
  destruct (rotate_image screen a1 s) as [[] t1 | e t1]; [| discriminate].
  destruct H1 as (Hpix1 & Hnull1 & _).
  pose proof (rotate_image_outcome screen a2 t1 _ Hpix1 Hnull1) as H2.
  destruct (rotate_image screen a2 t1) as [[] t2 | e t2]; [| discriminate].
  injection Hrun as <-.
  destruct H2 as (Hpix2 & _ & Har2).
  rewrite Hpix2, Har2. destruct pm as [w h]. destruct a1, a2; split; reflexivity.
Qed.

(* ------------------------------------------------------------------ *)
(** ** Loading within the ranges *)

Lemma resize_run :
  forall (w h : Z) (s : App),
    int_range w -> int_range h ->
    resize w h s
    = Ok tt (with_geometry (constrained s (Qt.setSize w h (geometry s))) s).
Proof.
  intros w h s Hw Hh. unfold resize, bind, lift, get, setGeometry, modify.
  rewrite (c_int_ok w Hw), (c_int_ok h Hh). reflexivity.
Qed.

Lemma resize_ok_inv :
  forall (w h : Z) (s s' : App),
    resize w h s = Ok tt s' ->
    s' = with_geometry (constrained s (Qt.setSize w h (geometry s))) s.
Proof.
  intros w h s s'. unfold resize, bind, lift, get, setGeometry, modify.
  destruct (c_int w) as [w' | e] eqn:Ew; [| discriminate].
  destruct (c_int h) as [h' | e] eqn:Eh; [| discriminate].
  apply c_int_val in Ew. apply c_int_val in Eh.
  destruct Ew as [-> _]. destruct Eh as [-> _].
  intros [= <-]. reflexivity.
Qed.

Lemma move_xy_run :
  forall (x y : Z) (s : App),
    int_range x -> int_range y ->
    move_xy x y s
    = Ok tt (with_geometry (Qt.moveTo (Qt.mkQPoint x y) (geometry s)) s).
Proof.
  intros x y s Hx Hy. unfold move_xy, bind, lift, move, modify.
  rewrite (c_int_ok x Hx), (c_int_ok y Hy). reflexivity.
Qed.

Lemma move_xy_ok_inv :
  forall (x y : Z) (s s' : App),
    move_xy x y s = Ok tt s' ->
    s' = with_geometry (Qt.moveTo (Qt.mkQPoint x y) (geometry s)) s.
Proof.
  intros x y s s'. unfold move_xy, bind, lift, move, modify.
  destruct (c_int x) as [x' | e] eqn:Ex; [| discriminate].
  destruct (c_int y) as [y' | e] eqn:Ey; [| discriminate].
  apply c_int_val in Ex. apply c_int_val in Ey.
  destruct Ex as [-> _]. destruct Ey as [-> _].
  intros [= <-]. reflexivity.
Qed.

Lemma chrome_extra_h_range :
  forall s : App,
    chrome_on_desk s ->
    53 <= load_extra_h s < 2 ^ 17 /\ rotate_extra_h s = load_extra_h s.
Proof.
  intros s [Ht Hb]. unfold load_extra_h, rotate_extra_h.
  destruct (Z.ltb_spec (bottom_bar_height s) 35); split; try reflexivity; lia.
Qed.

(** The scale of one axis: the exponent of the quotient is bounded by that
    of the image side. *)
Lemma load_scale_below :
  forall (screen_size extra img : Z),
    0 <= screen_size < 2 ^ 15 -> 0 <= extra < 2 ^ 17 ->
    0 < img < 2 ^ 24 ->
    exists scale : PyFloat.float,
      (if 0 <? img
       then PyFloat.truediv_float_int
              (PyFloat.sub (PyFloat.mul (PyFloat.of_int screen_size)
                                        PyFloat.lit_0_85)
                           (PyFloat.of_int extra)) img
       else Val PyFloat.one) = Val scale /\
      float_below (21 - Z.log2 img) scale.
Proof.
  intros screen_size extra img Hs He Himg.
  destruct (Z.ltb_spec 0 img) as [_ | Hc]; [| lia].
  unfold PyFloat.truediv_float_int.
  destruct (Z.eqb_spec img 0) as [Hz | _]; [lia |].
  eexists. split; [reflexivity |].
  assert (Hsw : float_below 16 (PyFloat.of_int screen_size)).
  { apply (of_int_below screen_size 15); lia. }
  assert (Hex : float_below 18 (PyFloat.of_int extra)).
  { apply (of_int_below extra 17); lia. }
  pose proof (mul_below 16 0 _ _ Hsw lit_0_85_below ltac:(lia) ltac:(lia)) as Hmax.
  pose proof (sub_below _ _ _ _ Hmax Hex ltac:(lia) ltac:(lia)) as Hmi.
  assert (Himgf : finite_mag false (Z.log2 img + 1) (Z.log2 img + 2)
                    (PyFloat.of_int img)).
  { apply of_int_mag; [lia |].
    apply Z.lt_trans with (2 ^ 24); [lia | reflexivity]. }
  assert (Hlog : 0 <= Z.log2 img < 24).
  { split; [apply Z.log2_nonneg | apply Z.log2_lt_pow2; lia]. }
  pose proof (div_below false _ (Z.log2 img + 1) (Z.log2 img + 2) _ _ Hmi Himgf
                ltac:(lia) ltac:(lia)) as Hd.
  apply (float_below_weaken _ _ _ Hd). lia.
Qed.

(** A scaled side plus the chrome fits an [int]. *)
Lemma scaled_size_range :
  forall (img extra : Z) (scale : PyFloat.float),
    0 < img < 2 ^ 24 -> 0 <= extra < 2 ^ 17 ->
    float_below (26 - Z.log2 img) scale ->
    exists target : Z,
      PyFloat.to_int
        (PyFloat.add (PyFloat.mul (PyFloat.of_int img) scale)
                     (PyFloat.of_int extra)) = Val target /\
      Z.abs target < 2 ^ 31.
Proof.
  intros img extra scale Himg Hextra Hscale.
  assert (Hlog : 0 <= Z.log2 img < 24).
  { split; [apply Z.log2_nonneg | apply Z.log2_lt_pow2; lia]. }
  assert (Hi : float_below (Z.log2 img + 2) (PyFloat.of_int img)).
  { apply (finite_mag_below false (Z.log2 img + 1)).
    apply of_int_mag; [lia |].
    apply Z.lt_trans with (2 ^ 24); [lia | reflexivity]. }
  assert (He : float_below 18 (PyFloat.of_int extra)).
  { apply (of_int_below extra 17); lia. }
  pose proof (mul_below _ _ _ _ Hi Hscale ltac:(lia) ltac:(lia)) as Hm.
  replace (Z.log2 img + 2 + (26 - Z.log2 img) + 1) with 29 in Hm by lia.
  pose proof (add_below 29 18 _ _ Hm He ltac:(lia) ltac:(lia)) as Ha.
  exact (to_int_bound 31 _ ltac:(lia) Ha).
Qed.

Lemma log2_within_32 :
  forall a b : Z, 0 < a -> 0 < b -> a <= 32 * b -> Z.log2 a <= Z.log2 b + 5.
Proof.
  intros a b Ha Hb Hab.
  apply Z.le_trans with (Z.log2 (32 * b)); [apply Z.log2_le_mono; exact Hab |].
  replace (32 * b) with (b * 2 ^ 5) by lia.
  rewrite Z.log2_mul_pow2 by lia. lia.
Qed.

(** On a screen of a desktop the target size of an image in range exists
    and fits an [int], and so does the position that centres it. *)
Lemma load_fit_range :
  forall (screen_geo : Qt.QRect) (w h extra_h : Z),
    screen_on_desk screen_geo -> image_in_range w h ->
    0 <= extra_h < 2 ^ 17 ->
    exists target_w target_h x y : Z,
      load_fit screen_geo (mkQPixmap w h) load_extra_w extra_h
      = Val (target_w, target_h, x, y) /\
      int_range target_w /\ int_range target_h /\
      int_range x /\ int_range y.
Proof.
  intros sg w h extra_h (Hl & Ht & Hsw & Hsh) (Hw & Hh & Hwh & Hhw) Heh.
  unfold load_fit. cbn [pm_width pm_height].
  destruct (load_scale_below (Qt.width sg) load_extra_w w Hsw
              ltac:(unfold load_extra_w; lia) Hw)
    as (scale_w & -> & Hbw).
  destruct (load_scale_below (Qt.height sg) extra_h h Hsh Heh Hh)
    as (scale_h & -> & Hbh).
  cbn [exc_bind].
  pose proof (log2_within_32 w h ltac:(lia) ltac:(lia) Hwh) as Hlw.
  pose proof (log2_within_32 h w ltac:(lia) ltac:(lia) Hhw) as Hlh.
  assert (Hlogw : 0 <= Z.log2 w < 24).
  { split; [apply Z.log2_nonneg | apply Z.log2_lt_pow2; lia]. }
  assert (Hlogh : 0 <= Z.log2 h < 24).
  { split; [apply Z.log2_nonneg | apply Z.log2_lt_pow2; lia]. }
  set (scale0 := if PyFloat.ltb scale_h scale_w then scale_h else scale_w).
  assert (H0 : float_below (26 - Z.log2 w) scale0 /\
               float_below (26 - Z.log2 h) scale0).
  { unfold scale0. destruct (PyFloat.ltb scale_h scale_w); split;
      (eapply float_below_weaken; [eassumption | lia]). }
  set (scale := if PyFloat.ltb PyFloat.one scale0 then PyFloat.one else scale0).
  assert (Hsc : float_below (26 - Z.log2 w) scale /\
                float_below (26 - Z.log2 h) scale).
  { unfold scale. destruct (PyFloat.ltb PyFloat.one scale0); [| exact H0].
    pose proof (finite_mag_below _ _ _ _ one_mag) as H1.
    split; (eapply float_below_weaken; [exact H1 | lia]). }
  destruct Hsc as [Hscw Hsch].
  destruct (scaled_size_range w load_extra_w scale Hw
              ltac:(unfold load_extra_w; lia) Hscw)
    as (tw & -> & Htw).
  destruct (scaled_size_range h extra_h scale Hh Heh Hsch)
    as (th & -> & Hth).
  cbn [exc_bind]. do 4 eexists. split; [reflexivity |].
  unfold desk_range in Hl, Ht. unfold int_range.
  assert (H31 : 2 ^ 31 = 2147483648) by reflexivity.
  assert (H15 : 2 ^ 15 = 32768) by reflexivity.
  rewrite H31 in *. rewrite H15 in *.
  pose proof (Z.div_mod (Qt.width sg - tw) 2 ltac:(lia)) as Hdx.
  pose proof (Z.mod_pos_bound (Qt.width sg - tw) 2 ltac:(lia)) as Hmx.
  pose proof (Z.div_mod (Qt.height sg - th) 2 ltac:(lia)) as Hdy.
  pose proof (Z.mod_pos_bound (Qt.height sg - th) 2 ltac:(lia)) as Hmy.
  repeat split; lia.
Qed.

Lemma load_fit_centred :
  forall (screen_geo : Qt.QRect) (pm : QPixmap) (extra_w extra_h : Z)
         (target_w target_h x y : Z),
    load_fit screen_geo pm extra_w extra_h = Val (target_w, target_h, x, y) ->
    x = Qt.left screen_geo + (Qt.width screen_geo - target_w) / 2 /\
    y = Qt.top screen_geo + (Qt.height screen_geo - target_h) / 2.
Proof.
  intros sg pm ew eh tw th x y. unfold load_fit.
  repeat match goal with
         | |- exc_bind ?c _ = _ -> _ =>
             destruct c; cbn [exc_bind]; [| discriminate]
         end.
  intros [= <- <- <- <-]. split; reflexivity.
Qed.

(** What [load_image] does to the state before it sizes the window. *)
Lemma load_image_run :
  forall (screen : option Qt.QRect) (file_path : string) (fmt : Format)
         (w h : Z) (s : App),
    0 < h ->
    let s1 := with_container_style TransparentFrame
                (with_aspect_ratio
                   (Some (PyFloat.div (PyFloat.of_int w) (PyFloat.of_int h)))
                   (with_title_text (os_path_basename file_path)
                      (with_pixmap (Some (mkQPixmap w h)) s))) in
    load_image screen file_path (Image fmt w h) s =
    match screen with
    | Some screen_geo =>
        match load_fit screen_geo (mkQPixmap w h) load_extra_w (load_extra_h s) with
        | Val (target_w, target_h, x, y) =>
            (resize target_w target_h ;;; move_xy x y) s1
        | Err e => Raise e s1
        end
    | None => resize (w + load_extra_w) (h + load_extra_h s) s1
    end.
Proof.
  intros screen file_path fmt w h s Hh s1.
  unfold load_image. unfold bind at 1 2 3 4 5. unfold modify, get.
  cbn [pm_height pm_width].
  destruct (Z.ltb_spec 0 h) as [_ | Hc]; [| lia].
  unfold PyFloat.truediv_int_int.
  destruct (Z.eqb_spec h 0) as [Hz | _]; [lia |].
  unfold bind at 1. cbn [lift ret].
  destruct screen as [sg |]; [| reflexivity].
  change (load_extra_h (with_container_style _ _)) with (load_extra_h s).
  unfold bind at 1. unfold lift.
  destruct (load_fit sg (mkQPixmap w h) load_extra_w (load_extra_h s))
    as [[[[tw th] x] y] | e]; reflexivity.
Qed.

(** X12.  Loading an image of sane dimensions never fails: for a decoded
    image with sides below 2^24 pixels, no more than 32 times as wide as
    high or as high as wide, with or without a screen (a screen and bars
    of a desktop), [load_image] completes, shows the image, sets the title to
    [os.path.basename] of the path, makes the frame transparent, stores
    width / height as the aspect ratio (a ratio in the range the resize
    code handles) and leaves an active gesture as it is. *)
Theorem load_image_completes :
  forall (screen : option Qt.QRect) (file_path : string) (fmt : Format)
         (w h : Z) (s : App),
    image_in_range w h ->
    chrome_on_desk s ->
    (forall screen_geo, screen = Some screen_geo -> screen_on_desk screen_geo) ->
    exists s' : App,
      load_image screen file_path (Image fmt w h) s = Ok tt s' /\
      pixmap s' = Some (mkQPixmap w h) /\
      title_text s' = os_path_basename file_path /\
      container_style s' = TransparentFrame /\
      aspect_ratio s' = Some (PyFloat.div (PyFloat.of_int w) (PyFloat.of_int h)) /\
      ratio_ok s' /\
      resizing s' = resizing s /\ dragging s' = dragging s.
Proof.
  intros screen file_path fmt w h s Himg Hchrome Hscreen.
  pose proof Himg as (Hw & Hh & _).
  rewrite load_image_run by lia.
  assert (Hratio : ratio_in_range (PyFloat.div (PyFloat.of_int w) (PyFloat.of_int h))).
  { destruct (image_ratio_in_range w h Himg) as (r & Hdiv & Hr).
    unfold PyFloat.truediv_int_int in Hdiv.
    destruct (Z.eqb_spec h 0) as [Hz | _]; [lia |].
    injection Hdiv as <-. exact Hr. }
  destruct (chrome_extra_h_range s Hchrome) as [Heh _].
  assert (H31 : 2 ^ 31 = 2147483648) by reflexivity.
  assert (H24 : 2 ^ 24 = 16777216) by reflexivity.
  assert (H17 : 2 ^ 17 = 131072) by reflexivity.
  destruct screen as [sg |].
  - destruct (load_fit_range sg w h (load_extra_h s) (Hscreen sg eq_refl) Himg
                ltac:(lia))
      as (tw & th & x & y & -> & Htw & Hth & Hx & Hy).
    unfold bind. rewrite (resize_run tw th _ Htw Hth).
    rewrite (move_xy_run x y _ Hx Hy).
    eexists. split; [reflexivity |]. cbn.
    repeat split; try reflexivity.
    intros r Hr. injection Hr as <-. exact Hratio.
  - rewrite resize_run
      by (unfold int_range, load_extra_w; rewrite H31; lia).
    eexists. split; [reflexivity |]. cbn.
    repeat split; try reflexivity.
    intros r Hr. injection Hr as <-. exact Hratio.
Qed.

(** X13.  With a screen the loaded window is placed where the size asked
    for would be centred on the usable area, and takes that size bounded
    by the size constraints of the window.  On an axis where the size
    asked for lies between the minimum and the maximum size of the window
    the margins on both sides differ by at most one pixel, the right (or
    lower) one being the larger. *)
Theorem load_image_centred :
  forall (screen_geo : Qt.QRect) (file_path : string) (fmt : Format)
         (w h : Z) (s s' : App),
    load_image (Some screen_geo) file_path (Image fmt w h) s = Ok tt s' ->
    exists target_w target_h x y : Z,
      load_fit screen_geo (mkQPixmap w h) load_extra_w (load_extra_h s)
      = Val (target_w, target_h, x, y) /\
      let g := geometry s' in
      Qt.left g = Qt.left screen_geo + (Qt.width screen_geo - target_w) / 2 /\
      Qt.top g = Qt.top screen_geo + (Qt.height screen_geo - target_h) / 2 /\
      Qt.width g = bounded (minimum_width s) target_w /\
      Qt.height g = bounded (minimum_height s) target_h /\
      (minimum_width s <= target_w <= Qt.QWIDGETSIZE_MAX ->
       0 <= (Qt.right screen_geo - Qt.right g) - (Qt.left g - Qt.left screen_geo)
         <= 1) /\
      (minimum_height s <= target_h <= Qt.QWIDGETSIZE_MAX ->
       0 <= (Qt.bottom screen_geo - Qt.bottom g) - (Qt.top g - Qt.top screen_geo)
         <= 1).
Proof.
  intros sg file_path fmt w h s s' Hrun.
  assert (Hfit : exists tw th x y s1,
             load_fit sg (mkQPixmap w h) load_extra_w (load_extra_h s)
             = Val (tw, th, x, y) /\
             minimum_width s1 = minimum_width s /\
             minimum_height s1 = minimum_height s /\
             (resize tw th ;;; move_xy x y) s1 = Ok tt s').
  { unfold load_image in Hrun. unfold bind at 1 2 3 4 5 in Hrun.
    unfold modify, get in Hrun. cbn [pm_height pm_width] in Hrun.
    destruct (0 <? h).
    - unfold PyFloat.truediv_int_int in Hrun.
      destruct (h =? 0); cbn [lift ret] in Hrun; [discriminate Hrun |].
      unfold bind at 1 in Hrun.
      change (load_extra_h (with_container_style _ _))
        with (load_extra_h s) in Hrun.
      unfold bind at 1 in Hrun. unfold lift in Hrun.
      destruct (load_fit sg (mkQPixmap w h) load_extra_w (load_extra_h s))
        as [[[[tw th] x] y] | e]; [| discriminate Hrun].
      do 5 eexists. split; [reflexivity |].
      split; [| split; [| exact Hrun]]; reflexivity.
    - cbn [ret] in Hrun. unfold bind at 1 in Hrun.
      change (load_extra_h (with_container_style _ _))
        with (load_extra_h s) in Hrun.
      unfold bind at 1 in Hrun. unfold lift in Hrun.
      destruct (load_fit sg (mkQPixmap w h) load_extra_w (load_extra_h s))
        as [[[[tw th] x] y] | e]; [| discriminate Hrun].
      do 5 eexists. split; [reflexivity |].
      split; [| split; [| exact Hrun]]; reflexivity. }
  destruct Hfit as (tw & th & x & y & s1 & Hfit & Hmw & Hmh & Hsize).
  exists tw, th, x, y. split; [exact Hfit |].
  destruct (load_fit_centred _ _ _ _ _ _ _ _ Hfit) as [Hx Hy].
  unfold bind in Hsize.
  destruct (resize tw th s1) as [[] s2 | e s2] eqn:Hres; [| discriminate Hsize].
  apply resize_ok_inv in Hres. apply move_xy_ok_inv in Hsize.
  subst s' s2. cbv zeta. cbn [geometry with_geometry].
  unfold constrained, bounded, Qt.QWIDGETSIZE_MAX, Qt.moveTo, Qt.moveTop,
    Qt.moveLeft, Qt.setSize, Qt.right, Qt.left, Qt.bottom, Qt.top, Qt.width,
    Qt.height in *.
  cbn [Qt.x1 Qt.x2 Qt.y1 Qt.y2 Qt.x Qt.y] in *.
  rewrite Hmw, Hmh.
  pose proof (Z.div_mod (Qt.x2 sg - Qt.x1 sg + 1 - tw) 2 ltac:(lia)) as Hdx.
  pose proof (Z.mod_pos_bound (Qt.x2 sg - Qt.x1 sg + 1 - tw) 2 ltac:(lia)) as Hmx.
  pose proof (Z.div_mod (Qt.y2 sg - Qt.y1 sg + 1 - th) 2 ltac:(lia)) as Hdy.
  pose proof (Z.mod_pos_bound (Qt.y2 sg - Qt.y1 sg + 1 - th) 2 ltac:(lia)) as Hmy.
  repeat split; lia.
Qed.

(** X14.  Without screen information [load_image] completes, for an image
    whose size with the chrome fits an [int]: the window is not moved, and
    takes the size of the image plus the chrome, neither scaled nor
    centred, bounded by the size constraints of the window. *)
Theorem load_image_without_screen :
  forall (file_path : string) (fmt : Format) (w h : Z) (s : App),
    0 < h ->
    int_range (w + load_extra_w) ->
    int_range (h + load_extra_h s) ->
    exists s',
      load_image None file_path (Image fmt w h) s = Ok tt s' /\
      Qt.width (geometry s') = bounded (minimum_width s) (w + load_extra_w) /\
      Qt.height (geometry s') = bounded (minimum_height s) (h + load_extra_h s) /\
      Qt.topLeft (geometry s') = Qt.topLeft (geometry s) /\
      pixmap s' = Some (mkQPixmap w h).
Proof.
  intros file_path fmt w h s Hh Hrw Hrh.
  rewrite load_image_run by exact Hh.
  rewrite (resize_run _ _ _ Hrw Hrh).
  eexists. split; [reflexivity |].
  cbn [geometry with_geometry pixmap with_container_style with_aspect_ratio
       with_title_text with_pixmap minimum_width minimum_height].
  destruct (constrained_spec
              (with_container_style TransparentFrame
                 (with_aspect_ratio
                    (Some (PyFloat.div (PyFloat.of_int w) (PyFloat.of_int h)))
                    (with_title_text (os_path_basename file_path)
                       (with_pixmap (Some (mkQPixmap w h)) s))))
              (Qt.setSize (w + load_extra_w) (h + load_extra_h s) (geometry s)))
    as (Hl & Ht & Hcw & Hch).
  cbv zeta in Hl, Ht, Hcw, Hch.
  cbn [geometry with_geometry pixmap with_container_style with_aspect_ratio
       with_title_text with_pixmap minimum_width minimum_height] in *.
  split.
  { rewrite Hcw. f_equal. unfold Qt.width, Qt.setSize. cbn. lia. }
  split.
  { rewrite Hch. f_equal. unfold Qt.height, Qt.setSize. cbn. lia. }
  split; [| reflexivity].
  unfold Qt.topLeft. unfold Qt.left, Qt.top in *. rewrite Hl, Ht. reflexivity.
Qed.

(* ------------------------------------------------------------------ *)
(** ** Loads, rotations and pointer events together *)

Lemma resize_keeps_image :
  forall (w h : Z) (s : App),
    match resize w h s with
    | Ok _ s' | Raise _ s' =>
        pixmap s' = pixmap s /\ aspect_ratio s' = aspect_ratio s
    end.
Proof.
  intros w h s. unfold resize, bind, lift, get, setGeometry, modify.
  destruct (c_int w); [| split; reflexivity].
  destruct (c_int h); split; reflexivity.
Qed.

Lemma move_xy_keeps_image :
  forall (x y : Z) (s : App),
    match move_xy x y s with
    | Ok _ s' | Raise _ s' =>
        pixmap s' = pixmap s /\ aspect_ratio s' = aspect_ratio s
    end.
Proof.
  intros x y s. unfold move_xy, bind, lift, move, modify.
  destruct (c_int x); [| split; reflexivity].
  destruct (c_int y); split; reflexivity.
Qed.

Lemma eventFilter_keeps_image :
  forall (event : QEvent) (s : App),
    match eventFilter event s with
    | Ok _ s' | Raise _ s' =>
        pixmap s' = pixmap s /\ aspect_ratio s' = aspect_ratio s
    end.
Proof.
  intros event s.
  destruct event as [[] p | p | [] p |]; cbn [eventFilter];
    try (cbn; split; reflexivity).
  - unfold bind. rewrite handle_mouse_press_run.
    destruct (negb _); cbn; split; reflexivity.
  - unfold bind at 1. unfold handle_mouse_move, bind, get.
    destruct (resizing s) eqn:Hr.
    + unfold handle_resize, bind, get. rewrite Hr. cbn [negb].
      destruct (start_pos s); cbn; [| split; reflexivity].
      destruct (start_geometry s); cbn; [| split; reflexivity].
      destruct (resize_edge s); cbn; [| split; reflexivity].
      destruct (resized_geometry _ _ _ _); cbn; split; reflexivity.
    + destruct (dragging s).
      * destruct (drag_start_pos s); cbn; [| split; reflexivity].
        destruct (window_start_pos s); cbn; split; reflexivity.
      * destruct (update_cursor_run (mapFromGlobal s p) s) as (c & ->).
        cbn. split; reflexivity.
Qed.

Lemma perform_keeps_ratio :
  forall (action : Action) (s : App),
    action_ok action -> ratio_matches s ->
    match perform action s with
    | Ok _ s' | Raise _ s' => ratio_matches s'
    end.
Proof.
  intros [lw lh | screen file_path image | screen a | event] s Hok Hs;
    cbn [perform].
  - exact Hs.
  - destruct image as [| fmt w h]; [exact Hs |].
    cbn in Hok. rewrite load_image_run by exact Hok.
    set (s1 := with_container_style _ _).
    assert (Hs1 : ratio_matches s1)
      by (unfold ratio_matches; cbn; split; [exact Hok | reflexivity]).
    assert (Hkeep : forall t : App,
               pixmap t = pixmap s1 /\ aspect_ratio t = aspect_ratio s1 ->
               ratio_matches t).
    { intros t [Hp Ha]. unfold ratio_matches in *. rewrite Hp, Ha. exact Hs1. }
    destruct screen as [sg |].
    + destruct (load_fit _ _ _ _) as [[[[tw th] x] y] | e]; [| exact Hs1].
      unfold bind. pose proof (resize_keeps_image tw th s1) as Hr.
      destruct (resize tw th s1) as [[] s2 | e s2]; [| exact (Hkeep _ Hr)].
      pose proof (move_xy_keeps_image x y s2) as Hm.
      destruct Hr as [Hp2 Ha2].
      destruct (move_xy x y s2) as [[] s3 | e s3];
        apply Hkeep; destruct Hm as [-> ->]; split; assumption.
    + pose proof (resize_keeps_image (w + load_extra_w) (h + load_extra_h s) s1)
        as Hr.
      destruct (resize _ _ s1) as [[] s2 | e s2]; exact (Hkeep _ Hr).
  - destruct (pixmap s) as [pm |] eqn:Hpix.
    + destruct (pm_isNull pm) eqn:Hnull.
      * rewrite rotate_image_no_image; [exact Hs |].
        intros pm' Hpm'. rewrite Hpix in Hpm'. injection Hpm' as <-. exact Hnull.
      * destruct (pm_isNull_false pm Hnull) as [Hw Hh].
        pose proof (rotate_image_outcome screen a s pm Hpix Hnull) as Hout.
        assert (Hkeep : forall t : App,
                   pixmap t = Some (transformed pm a) /\
                   pm_isNull (transformed pm a) = false /\
                   aspect_ratio t
                   = Some (PyFloat.div (PyFloat.of_int (pm_height pm))
                                       (PyFloat.of_int (pm_width pm))) ->
                   ratio_matches t).
        { intros t (Hp & _ & Ha). unfold ratio_matches. rewrite Hp, Ha.
          destruct a; cbn; auto. }
        destruct (rotate_image screen a s) as [[] s' | e s']; exact (Hkeep _ Hout).
    + rewrite rotate_image_no_image; [exact Hs |].
      intros pm' Hpm'. rewrite Hpix in Hpm'. discriminate Hpm'.
  - unfold bind. pose proof (eventFilter_keeps_image event s) as Hk.
    unfold ratio_matches in *.
    destruct (eventFilter event s) as [b s1 | e s1]; cbn [ret];
      destruct Hk as [-> ->]; exact Hs.
Qed.

(** X17.  The aspect ratio always belongs to the pixmap shown: through
    any sequence of loads, rotations and pointer events, also one cut short
    by an exception, the stored ratio is width / height of the current
    pixmap, and absent when there is none. *)
Theorem perform_all_keeps_ratio :
  forall (actions : list Action) (s : App),
    Forall action_ok actions -> ratio_matches s ->
    match perform_all actions s with
    | Ok _ s' | Raise _ s' => ratio_matches s'
    end.
Proof.
  induction actions as [| action rest IH]; intros s Hok Hs; [exact Hs |].
  inversion Hok as [| ? ? Ha Hrest]; subst.
  cbn [perform_all]. unfold bind.
  pose proof (perform_keeps_ratio action s Ha Hs) as Hstep.
  destruct (perform action s) as [u s1 | e s1]; [| exact Hstep].
  apply IH; assumption.
Qed.

(* ------------------------------------------------------------------ *)
(** ** The title bar *)

Lemma TitleBar_events_app :
  forall (l1 l2 : list TitleBarEvent) (tb : TitleBar) (s : App),
    TitleBar_events (l1 ++ l2) tb s =
    match TitleBar_events l1 tb s with
    | TbOk tb1 s1 => TitleBar_events l2 tb1 s1
    | TbAttributeError tb1 s1 => TbAttributeError tb1 s1
    end.
Proof.
  induction l1 as [| ev l1 IH]; intros l2 tb s; [reflexivity |].
  cbn [app TitleBar_events].
  destruct (TitleBar_event ev tb s) as [tb1 s1 | tb1 s1];
    [apply IH | reflexivity].
Qed.

Lemma TitleBar_moves :
  forall (p0 w0 : Qt.QPoint) (ms : list Qt.QPoint) (tb : TitleBar) (s : App),
    tb_start_pos tb = Some p0 ->
    QPoint_bool p0 = true ->
    tb_parent_pos tb = Some w0 ->
    exists s' : App,
      TitleBar_events (map TbMove ms) tb s = TbOk tb s' /\
      Qt.width (geometry s') = Qt.width (geometry s) /\
      Qt.height (geometry s') = Qt.height (geometry s) /\
      resizing s' = resizing s /\ dragging s' = dragging s /\
      self_pos s' = match ms with
                    | [] => self_pos s
                    | _ :: _ => Qt.padd w0 (Qt.psub (last ms p0) p0)
                    end.
Proof.
  intros p0 w0 ms tb. induction ms as [| p ms IH]; intros s Hp Hb Hw.
  - exists s. repeat split; reflexivity.
  - cbn [map TitleBar_events TitleBar_event]. unfold TitleBar_mouseMoveEvent.
    rewrite Hp, Hb, Hw.
    set (s1 := with_geometry _ s).
    destruct (IH s1 Hp Hb Hw) as (s' & Hrun & Hwd & Hht & Hr & Hd & Hpos).
    destruct (moveTo_size (Qt.padd w0 (Qt.psub p p0)) (geometry s))
      as (Hw1 & Hh1 & Hp1).
    exists s'. split; [exact Hrun |].
    split; [rewrite Hwd; exact Hw1 |]. split; [rewrite Hht; exact Hh1 |].
    split; [rewrite Hr; reflexivity |]. split; [rewrite Hd; reflexivity |].
    rewrite Hpos. destruct ms as [| p' ms']; [exact Hp1 | reflexivity].
Qed.

(** X18.  Dragging the window by its title bar: a left press at a point
    other than the global origin, any moves, then a release, moves the
    window by (last move - press), keeps its size and the gesture flags of
    the main window, and ends the drag. *)
Theorem TitleBar_drag :
  forall (tb : TitleBar) (s : App) (p0 click : Qt.QPoint)
         (ms : list Qt.QPoint) (button : MouseButton),
    QPoint_bool p0 = true ->
    exists (tb' : TitleBar) (s' : App),
      TitleBar_events (TbPress LeftButton p0 click
                         :: map TbMove ms ++ [TbRelease button]) tb s
      = TbOk tb' s' /\
      self_pos s' = Qt.padd (self_pos s) (Qt.psub (last ms p0) p0) /\
      Qt.width (geometry s') = Qt.width (geometry s) /\
      Qt.height (geometry s') = Qt.height (geometry s) /\
      resizing s' = resizing s /\ dragging s' = dragging s /\
      tb_start_pos tb' = None.
Proof.
  intros tb s p0 click ms button Hb.
  cbn [TitleBar_events TitleBar_event TitleBar_mousePressEvent].
  set (tb1 := mkTitleBar _ _ _).
  destruct (TitleBar_moves p0 (self_pos s) ms tb1 s eq_refl Hb eq_refl)
    as (s' & Hrun & Hw & Hh & Hr & Hd & Hpos).
  rewrite TitleBar_events_app, Hrun.
  cbn [TitleBar_events TitleBar_event TitleBar_mouseReleaseEvent].
  do 2 eexists. split; [reflexivity |].
  split.
  { rewrite Hpos. destruct ms as [| p ms']; [| reflexivity].
    unfold self_pos, Qt.topLeft, Qt.padd, Qt.psub. cbn. f_equal; lia. }
  repeat split; assumption.
Qed.

Lemma TitleBar_drag_witness :
  exists (tb' : TitleBar) (s' : App),
    TitleBar_events [TbPress LeftButton (Qt.mkQPoint 300 120) (Qt.mkQPoint 300 120);
                     TbMove (Qt.mkQPoint 310 150);
                     TbMove (Qt.mkQPoint 340 160);
                     TbRelease LeftButton]
      TitleBar_init (init (Qt.mkQPoint 100 100)) = TbOk tb' s' /\
    self_pos s' = Qt.mkQPoint 140 140.
Proof.
  destruct (TitleBar_drag TitleBar_init (init (Qt.mkQPoint 100 100))
              (Qt.mkQPoint 300 120) (Qt.mkQPoint 300 120)
              [Qt.mkQPoint 310 150; Qt.mkQPoint 340 160] LeftButton eq_refl)
    as (tb' & s' & Hrun & Hpos & _).
  exists tb', s'. split; [exact Hrun | exact Hpos].
Defined.

Lemma TitleBar_event_consistent :
  forall (event : TitleBarEvent) (tb : TitleBar) (s : App),
    TitleBar_consistent tb ->
    exists (tb' : TitleBar) (s' : App),
      TitleBar_event event tb s = TbOk tb' s' /\
      TitleBar_consistent tb' /\
      (is_left_press event = false -> tb_start_pos tb = None ->
       s' = s /\ tb_start_pos tb' = None).
Proof.
  intros [button p c | p | button] tb s Hc; cbn [TitleBar_event].
  - destruct button; cbn [TitleBar_mousePressEvent];
      do 2 eexists; (split; [reflexivity |]); split;
        try exact Hc; try (intros _; discriminate);
        try (intros _ Hn; split; [reflexivity | exact Hn]);
        try (intros Hl; discriminate Hl).
  - unfold TitleBar_mouseMoveEvent.
    destruct (tb_start_pos tb) as [start |] eqn:Hs.
    + destruct (QPoint_bool start).
      * destruct (tb_parent_pos tb) as [pp |] eqn:Hp.
        -- do 2 eexists. split; [reflexivity |]. split; [exact Hc |].
           intros _ Hn. discriminate Hn.
        -- exfalso. apply Hc; [rewrite Hs; discriminate | exact Hp].
      * do 2 eexists. split; [reflexivity |]. split; [exact Hc |].
        intros _ Hn. discriminate Hn.
    + do 2 eexists. split; [reflexivity |]. split; [exact Hc |].
      intros _ _. split; [reflexivity | exact Hs].
  - cbn [TitleBar_mouseReleaseEvent]. do 2 eexists. split; [reflexivity |].
    split; [intros Hn; contradiction Hn; reflexivity |].
    intros _ _. split; reflexivity.
Qed.

(** X19.  The title bar never reads [parent_pos] before creating it: from
    a state in which a drag in progress has its [parent_pos], every stream
    of events is handled without an [AttributeError]; and without a left
    press, from rest, nothing moves the window. *)
Theorem TitleBar_events_safe :
  forall (events : list TitleBarEvent) (tb : TitleBar) (s : App),
    TitleBar_consistent tb ->
    exists (tb' : TitleBar) (s' : App),
      TitleBar_events events tb s = TbOk tb' s' /\
      TitleBar_consistent tb' /\
      (forallb (fun event => negb (is_left_press event)) events = true ->
       tb_start_pos tb = None -> s' = s).
Proof.
  induction events as [| event rest IH]; intros tb s Hc.
  - exists tb, s. split; [reflexivity |]. split; [exact Hc |]. reflexivity.
  - cbn [TitleBar_events forallb].
    destruct (TitleBar_event_consistent event tb s Hc)
      as (tb1 & s1 & -> & Hc1 & Hidle).
    destruct (IH tb1 s1 Hc1) as (tb' & s' & Hrun & Hc' & Hidle').
    exists tb', s'. split; [exact Hrun |]. split; [exact Hc' |].
    intros Hall Hn. apply andb_true_iff in Hall. destruct Hall as [Hev Hrest].
    apply negb_true_iff in Hev.
    destruct (Hidle Hev Hn) as [-> Hn1]. apply Hidle'; assumption.
Qed.

Lemma TitleBar_events_safe_witness :
  exists tb' : TitleBar,
    TitleBar_events [TbMove (Qt.mkQPoint 5 5);
                     TbPress RightButton (Qt.mkQPoint 300 120) (Qt.mkQPoint 300 120);
                     TbMove (Qt.mkQPoint 340 160);
                     TbRelease RightButton]
      TitleBar_init (init (Qt.mkQPoint 100 100))
    = TbOk tb' (init (Qt.mkQPoint 100 100)).
Proof.
  assert (Hc : TitleBar_consistent TitleBar_init)
    by (intros H; contradiction H; reflexivity).
  destruct (TitleBar_events_safe
              [TbMove (Qt.mkQPoint 5 5);
               TbPress RightButton (Qt.mkQPoint 300 120) (Qt.mkQPoint 300 120);
               TbMove (Qt.mkQPoint 340 160);
               TbRelease RightButton]
              TitleBar_init (init (Qt.mkQPoint 100 100)) Hc)
    as (tb' & s' & Hrun & _ & Hsame).
  rewrite (Hsame eq_refl eq_refl) in Hrun.
  exists tb'. exact Hrun.
Defined.

(* ------------------------------------------------------------------ *)
(** ** Opacity *)

Lemma slider_values_spec :
  forall v : Z, 10 <= v <= 100 -> In v slider_values.
Proof.
  intros v Hv. unfold slider_values. apply in_map_iff.
  exists (Z.to_nat v). split; [lia |]. apply in_seq. lia.
Qed.

(** X20.  Over the range of the slider, 10 to 100, the opacity handed to
    the image widget is a float in (0, 1], equal to 1.0 at 100 and
    strictly increasing with the value. *)
Theorem change_opacity_range :
  forall v : Z,
    10 <= v <= 100 ->
    exists o : PyFloat.float,
      change_opacity v = Val o /\
      PyFloat.ltb (PyFloat.of_int 0) o = true /\
      SFleb o PyFloat.one = true /\
      (v = 100 -> o = PyFloat.one) /\
      (forall v' o',
          v < v' <= 100 -> change_opacity v' = Val o' ->
          PyFloat.ltb o o' = true).
Proof.
  intros v Hv.
  assert (Hall :
    forallb (fun a =>
      match change_opacity a with
      | Val o =>
          PyFloat.ltb (PyFloat.of_int 0) o && SFleb o PyFloat.one &&
          (negb (a =? 100) || SFeqb o PyFloat.one) &&
          forallb (fun b =>
            negb (a <? b) ||
            match change_opacity b with
            | Val o' => PyFloat.ltb o o'
            | Err _ => false
            end) slider_values
      | Err _ => false
      end) slider_values = true) by (vm_compute; reflexivity).
  rewrite forallb_forall in Hall.
  specialize (Hall v (slider_values_spec v Hv)).
  destruct (change_opacity v) as [o | e] eqn:Ho; [| discriminate Hall].
  apply andb_true_iff in Hall. destruct Hall as [Hall Hmono].
  apply andb_true_iff in Hall. destruct Hall as [Hall H100].
  apply andb_true_iff in Hall. destruct Hall as [Hpos Hle].
  exists o. split; [reflexivity |]. split; [exact Hpos |]. split; [exact Hle |].
  split.
  - intros ->. vm_compute in Ho. injection Ho as <-. reflexivity.
  - intros v' o' Hv' Ho'.
    rewrite forallb_forall in Hmono.
    specialize (Hmono v' (slider_values_spec v' ltac:(lia))).
    rewrite Ho' in Hmono.
    destruct (Z.ltb_spec v v') as [_ | Hc]; [| lia].
    exact Hmono.
Qed.

Lemma change_opacity_range_witness :
  exists o : PyFloat.float,
    change_opacity 50 = Val o /\ PyFloat.ltb (PyFloat.of_int 0) o = true.
Proof.
  destruct (change_opacity_range 50 ltac:(lia)) as (o & Ho & Hpos & _).
  exists o. split; [exact Ho | exact Hpos].
Defined.


(* ------------------------------------------------------------------ *)
(** ** The properties above on concrete windows *)

Lemma point_on_desk_check :
  forall p : Qt.QPoint,
    (- 2 ^ 15 <=? Qt.x p) && (Qt.x p <? 2 ^ 15) &&
    ((- 2 ^ 15 <=? Qt.y p) && (Qt.y p <? 2 ^ 15)) = true ->
    point_on_desk p.
Proof.
  intros p H. rewrite !andb_true_iff, !Z.leb_le, !Z.ltb_lt in H.
  unfold point_on_desk, desk_range. tauto.
Qed.

Lemma rect_on_desk_check :
  forall r : Qt.QRect,
    (- 2 ^ 15 <=? Qt.x1 r) && (Qt.x1 r <? 2 ^ 15) &&
    ((- 2 ^ 15 <=? Qt.y1 r) && (Qt.y1 r <? 2 ^ 15)) &&
    ((- 2 ^ 15 <=? Qt.x2 r) && (Qt.x2 r <? 2 ^ 15)) &&
    ((- 2 ^ 15 <=? Qt.y2 r) && (Qt.y2 r <? 2 ^ 15)) = true ->
    rect_on_desk r.
Proof.
  intros r H. rewrite !andb_true_iff, !Z.leb_le, !Z.ltb_lt in H.
  unfold rect_on_desk, desk_range. tauto.
Qed.

Lemma init_chrome_on_desk :
  forall s : App,
    title_bar_height s = 30 -> bottom_bar_height s = 35 -> chrome_on_desk s.
Proof.
  intros s Ht Hb. unfold chrome_on_desk. rewrite Ht, Hb. lia.
Qed.

Lemma screen_is_on_desk : screen_on_desk Scenario.screen.
Proof.
  unfold screen_on_desk, desk_range. vm_compute.
  repeat split; discriminate.
Qed.

Lemma handle_mouse_press_starts_gesture_witness :
  exists s' : App,
    handle_mouse_press (Qt.mkQPoint 300 300) (init (Qt.mkQPoint 100 100))
    = Ok tt s' /\
    dragging s' = true /\
    window_start_pos s' = Some (Qt.mkQPoint 100 100).
Proof.
  destruct (handle_mouse_press_starts_gesture (Qt.mkQPoint 300 300)
              (init (Qt.mkQPoint 100 100)))
    as (s' & Hrun & _ & _ & _ & Hdrag & _).
  destruct (Hdrag eq_refl) as (Hd & _ & Hw & _).
  exists s'. split; [exact Hrun |]. split; [exact Hd | exact Hw].
Defined.

Lemma handle_mouse_move_keeps_cursor_witness :
  match handle_mouse_move (Qt.mkQPoint 95 95) Scenario.resizing_window with
  | Ok _ s' => cursor s' = cursor Scenario.resizing_window
  | Raise _ s' => s' = Scenario.resizing_window
  end.
Proof.
  apply handle_mouse_move_keeps_cursor. left. reflexivity.
Defined.

Lemma dispatch_keeps_invariant_witness :
  exists s' : App,
    dispatch Scenario.shrink_gesture Shown.window_3_2 = Ok tt s' /\
    anchors_set s' /\ size_floor s'.
Proof.
  assert (Ha : anchors_set Shown.window_3_2)
    by (split; intros H; discriminate H).
  assert (Hs : size_floor Shown.window_3_2)
    by (split; vm_compute; discriminate).
  pose proof (dispatch_keeps_invariant Scenario.shrink_gesture
                Shown.window_3_2 Ha Hs) as H.
  destruct (dispatch Scenario.shrink_gesture Shown.window_3_2)
    as [[] s' | e s'] eqn:Hrun.
  - exists s'. split; [reflexivity |].
    destruct H as (Ha' & Hs' & _). split; assumption.
  - vm_compute in Hrun. discriminate Hrun.
Defined.

Lemma resize_gesture_witness :
  exists s' : App,
    dispatch Scenario.shrink_gesture Shown.window_3_2 = Ok tt s' /\
    geometry s' = Qt.mkQRect 100 100 294 100.
Proof.
  destruct (resize_gesture Shown.window_3_2 (Qt.mkQPoint 595 495)
              (Qt.mkQPoint 95 95) [Qt.mkQPoint 95 95])
    as (s' & Hrun & _ & g & Hg & Hgeo).
  - intros H. vm_compute in H. discriminate H.
  - exact window_3_2_ratio_ok.
  - exact window_3_2_geometry_on_desk.
  - apply point_on_desk_check. reflexivity.
  - repeat constructor; apply desk_range_check; reflexivity.
  - exists s'. split; [exact Hrun |].
    assert (E : resized_geometry
                  (get_resize_edge Shown.window_3_2
                     (mapFromGlobal Shown.window_3_2 (Qt.mkQPoint 595 495)))
                  (geometry Shown.window_3_2)
                  (Qt.psub (last [Qt.mkQPoint 95 95] (Qt.mkQPoint 595 495))
                           (Qt.mkQPoint 595 495))
                  (aspect_ratio Shown.window_3_2)
                = Val (Qt.mkQRect 100 100 100 100))
      by (vm_compute; reflexivity).
    pose proof (eq_trans (eq_sym E) Hg) as H.
    injection H as H. rewrite Hgeo, <- H. reflexivity.
Defined.

Lemma handle_resize_unconstrained_witness :
  exists s' : App,
    handle_resize (Qt.mkQPoint 635 535) Shown.free_pressed = Ok tt s' /\
    Qt.left (geometry s') = 100 /\ Qt.top (geometry s') = 100 /\
    Qt.width (geometry s') = 540 /\ Qt.height (geometry s') = 440.
Proof.
  destruct (handle_resize_unconstrained Shown.free_pressed
              (Qt.mkQPoint 635 535) (Qt.mkQPoint 595 495)
              (Qt.mkQRect 100 100 500 400) 10)
    as (s' & Hrun & Hl & Ht & Hw & Hh & _).
  - unfold resize_state. repeat split; reflexivity.
  - reflexivity.
  - apply rect_on_desk_check. reflexivity.
  - apply point_on_desk_check. reflexivity.
  - apply point_on_desk_check. reflexivity.
  - exists s'. split; [exact Hrun |]. repeat split; assumption.
Defined.

Lemma handle_resize_single_edge_lock_witness :
  exists new_h : Z,
    PyFloat.to_int
      (PyFloat.add
         (PyFloat.div (PyFloat.of_int (Z.max 1 (550 - 18))) Scenario.ratio_3_2)
         (PyFloat.of_int 78)) = Val new_h /\
    bounded 83 (Z.max 100 new_h) = 432.
Proof.
  destruct (handle_resize_single_edge_lock Shown.right_pressed
              (with_geometry (Qt.mkQRect 100 100 550 432) Shown.right_pressed)
              (Qt.mkQPoint 650 300) (Qt.mkQPoint 600 300)
              (Qt.mkQRect 100 100 500 400) 2 Scenario.ratio_3_2)
    as [Hedge _].
  - unfold resize_state. repeat split; reflexivity.
  - reflexivity.
  - reflexivity.
  - vm_compute. reflexivity.
  - destruct (Hedge (or_intror eq_refl)) as (new_h & Hnh & _ & _ & _ & Hh).
    exists new_h. split; [exact Hnh |]. symmetry. exact Hh.
Defined.

Lemma corner_resize_top_after_floor_witness :
  let geo := Qt.mkQRect 100 100 500 400 in
  let diff := Qt.mkQPoint 450 0 in
  let cand := Qt.mkQRect 550 100 50 400 in
  let final := Qt.mkQRect 550 401 100 100 in
  exists new_h : Z,
    height_from_width (Qt.width cand) Scenario.ratio_3_2 = Val new_h /\
    Qt.top final = Qt.bottom geo - new_h + 1 /\
    (100 <= new_h -> Qt.bottom final = Qt.bottom geo) /\
    (new_h < 100 -> Qt.bottom final = Qt.top final + 99).
Proof.
  cbv zeta.
  apply (corner_resize_top_after_floor 5 (Qt.mkQRect 100 100 500 400)
           (Qt.mkQPoint 450 0) Scenario.ratio_3_2
           (Qt.mkQRect 550 100 50 400)
           (Qt.mkQRect 550 401 100 100)).
  - reflexivity.
  - reflexivity.
  - reflexivity.
  - vm_compute. reflexivity.
  - vm_compute. reflexivity.
  - vm_compute. reflexivity.
Defined.

Lemma load_image_completes_witness :
  exists s' : App,
    load_image (Some Scenario.screen) "banner.png" Shown.banner Shown.window
    = Ok tt s' /\
    pixmap s' = Some (mkQPixmap 882 167) /\
    title_text s' = os_path_basename "banner.png".
Proof.
  destruct (load_image_completes (Some Scenario.screen) "banner.png"
              Format_Other 882 167 Shown.window)
    as (s' & Hrun & Hpix & Htitle & _).
  - unfold image_in_range. vm_compute. repeat split; discriminate.
  - apply init_chrome_on_desk; reflexivity.
  - intros sg Hsg. injection Hsg as <-. exact screen_is_on_desk.
  - exists s'. split; [exact Hrun |]. split; [exact Hpix | exact Htitle].
Defined.

Lemma load_image_centred_witness :
  exists s' : App,
    load_image (Some Scenario.screen) "banner.png" Shown.banner Shown.window
    = Ok tt s' /\
    geometry s' = Qt.mkQRect 510 415 900 250 /\
    0 <= (Qt.right Scenario.screen - Qt.right (geometry s'))
         - (Qt.left (geometry s') - Qt.left Scenario.screen) <= 1.
Proof.
  assert (E : load_image (Some Scenario.screen) "banner.png" Shown.banner
                Shown.window
              = Ok tt (with_geometry (Qt.mkQRect 510 415 900 250)
                         (with_container_style TransparentFrame
                            (with_aspect_ratio
                               (Some (PyFloat.div (PyFloat.of_int 882)
                                                  (PyFloat.of_int 167)))
                               (with_title_text (os_path_basename "banner.png")
                                  (with_pixmap (Some (mkQPixmap 882 167))
                                     Shown.window))))))
    by (vm_compute; reflexivity).
  eexists. split; [exact E |]. split; [reflexivity |].
  destruct (load_image_centred Scenario.screen "banner.png" Format_Other
              882 167 Shown.window _ E)
    as (tw & th & x & y & Hfit & _ & _ & _ & _ & Hmx & _).
  assert (F : load_fit Scenario.screen (mkQPixmap 882 167) load_extra_w
                (load_extra_h Shown.window) = Val (900, 250, 510, 415))
    by (vm_compute; reflexivity).
  rewrite F in Hfit. injection Hfit as <- <- <- <-.
  apply Hmx. vm_compute. split; discriminate.
Defined.

Lemma load_image_without_screen_witness :
  exists s' : App,
    load_image None "photo.png" (Image Format_Other 800 600) Shown.window
    = Ok tt s' /\
    Qt.width (geometry s') = 818 /\ Qt.height (geometry s') = 683.
Proof.
  destruct (load_image_without_screen "photo.png" Format_Other 800 600
              Shown.window eq_refl)
    as (s' & Hrun & Hw & Hh & _).
  - apply int_range_check. reflexivity.
  - apply int_range_check. reflexivity.
  - exists s'. split; [exact Hrun |]. split; [exact Hw | exact Hh].
Defined.

Lemma rotate_image_raises_iff_witness :
  exists (e : exn) (s' : App),
    rotate_image None RotateLeft Scenario.window_3_2 = Raise e s'.
Proof.
  destruct (rotate_image_raises_iff None RotateLeft Scenario.window_3_2)
    as (Hiff & _).
  - apply init_chrome_in_range; reflexivity.
  - apply rect_in_range_check. reflexivity.
  - intros sg Hsg. discriminate Hsg.
  - apply Hiff. split; [reflexivity |].
    exists (mkQPixmap 600 400). split; reflexivity.
Defined.

Lemma perform_all_keeps_ratio_witness :
  exists s' : App,
    perform_all Shown.banner_opened (init (Qt.mkQPoint 100 100)) = Ok tt s' /\
    ratio_matches s'.
Proof.
  assert (Hok : Forall action_ok Shown.banner_opened).
  { repeat constructor. }
  pose proof (perform_all_keeps_ratio Shown.banner_opened
                (init (Qt.mkQPoint 100 100)) Hok eq_refl) as H.
  destruct (perform_all Shown.banner_opened (init (Qt.mkQPoint 100 100)))
    as [[] s' | e s'] eqn:Hrun.
  - exists s'. split; [reflexivity | exact H].
  - vm_compute in Hrun. discriminate Hrun.
Defined.

Lemma rotations_two_restore_pixmap_witness :
  exists s2 : App,
    rotations (Some Scenario.screen) [RotateRight; RotateLeft]
      Scenario.window_3_2 = Ok tt s2 /\
    pixmap s2 = Some (mkQPixmap 600 400).
Proof.
  destruct (rotations (Some Scenario.screen) [RotateRight; RotateLeft]
              Scenario.window_3_2) as [[] s2 | e s2] eqn:Hrun.
  - exists s2. split; [reflexivity |].
    apply (rotations_two_restore_pixmap (Some Scenario.screen)
             RotateRight RotateLeft Scenario.window_3_2 s2
             (mkQPixmap 600 400) eq_refl eq_refl Hrun).
  - vm_compute in Hrun. discriminate Hrun.
Defined.
